(** * kmcuda: host-side orchestration of K-means on CUDA devices

    A shallow embedding of [kmcuda.cpp]: argument validation
    ([check_args]), device resolution ([setup_devices]), the K-means++
    index search of [kmeans_init_centroids] and the memory planning and
    result copy-out of [kmeans_cuda].

    Conventions.
    - [uint32_t], [uint16_t], [int] and [size_t] values are integers of [Z];
      every operation the source performs in 32 bits has its wrap-around
      written out with [u32].
    - The [float] arguments [tolerance] and [yinyang_t] are IEEE 754
      binary32 numbers, values of [SpecFloat.spec_float] with NaN,
      infinities and signed zeros; the product of line 213 is the binary32
      product, rounded to nearest even.
    - The distances and sums of the K-means++ search are rationals of [Q]:
      that part of the model covers finite values in exact arithmetic, so
      it tells where the loops can go and what they do on sums that a
      [double] holds exactly, not how rounding moves the index they stop at.
    - Pointers are addresses of [Z]; [nullptr] is [0]. *)

From Stdlib Require Import ZArith QArith Qround List Sorted Bool Lia SpecFloat.
Import ListNotations.

Local Open Scope Z_scope.

(** ** Result codes *)

(** Modelled from the spec: the enumeration [KMCUDAResult] of the header
    [kmcuda.h] (section 6, result codes surfaced to the caller). *)
Inductive KMCUDAResult : Type :=
| kmcudaSuccess
| kmcudaInvalidArguments
| kmcudaNoSuchDevice
| kmcudaMemoryAllocationFailure
| kmcudaRuntimeError
| kmcudaMemoryCopyError.

(** ** Machine arithmetic *)

Definition UINT32_MAX : Z := 4294967295.

(** Reduction of an integer to [uint32_t]. *)
Definition u32 (z : Z) : Z := z mod 2 ^ 32.

(** Reduction of an integer to [size_t] (64 bits). *)
Definition usize (z : Z) : Z := z mod 2 ^ 64.

Definition sizeof_float : Z := 4.
Definition sizeof_uint32_t : Z := 4.

(** [a < b] on rationals, as a boolean. *)
Definition Qlt_bool (a b : Q) : bool := negb (Qle_bool b a).

(** Conversion of a floating value to an integer: truncation toward zero. *)
Definition Qtrunc (q : Q) : Z := if Qle_bool 0 q then Qfloor q else Qceiling q.

(** [(uint32_t) q]. *)
Definition float_to_u32 (q : Q) : Z := u32 (Qtrunc q).

(** ** Single-precision numbers *)

(** A [float] of the source: an IEEE 754 binary32 number (24 bits of
    precision, infinities at exponent 128). *)
Definition float : Type := spec_float.

(** The constants [0], [0.5] and [1] the source compares with; they are
    binary32 numbers, so a comparison after promotion to [double] is the
    comparison of the [float]s. *)
Definition f32_0 : float := S754_zero false.
Definition f32_0_5 : float := S754_finite false 8388608 (-24).
Definition f32_1 : float := S754_finite false 8388608 (-23).

(** Further binary32 numbers: [0.01f], [0.04f], [0.1f], [1.5f] and [2.0f]. *)
Definition f32_0_01 : float := S754_finite false 10737418 (-30).
Definition f32_0_04 : float := S754_finite false 10737418 (-28).
Definition f32_0_1 : float := S754_finite false 13421773 (-27).
Definition f32_1_5 : float := S754_finite false 12582912 (-23).
Definition f32_2 : float := S754_finite false 8388608 (-22).

(** [a < b] on [float]s; false as soon as one of them is a NaN. *)
Definition f32_lt (a b : float) : bool := SFltb a b.

(** [(float) n] for a [uint32_t]: the nearest binary32 number, ties to even. *)
Definition float_of_u32 (n : Z) : float := binary_normalize 24 128 n 0 false.

(** [a * b] in single precision. *)
Definition f32_mul (a b : float) : float := SFmul 24 128 a b.

(** The integer part of a finite [float], rounded toward zero. *)
Definition f32_trunc (x : float) : Z :=
  match x with
  | S754_finite s m e => let a := Z.shiftl (Zpos m) e in if s then - a else a
  | _ => 0
  end.

(** [(uint32_t) x] for a [float].  C++ defines the conversion when the
    integer part of [x] is a [uint32_t]; for a NaN, an infinity or an
    integer part outside the type it is undefined.  There the model takes
    the low 32 bits of the integer part, and [0] for a NaN or an infinity.
    [check_args] lets [yinyang_t] through when it is a NaN or lies in
    [0, 0.5], so the NaN is the one undefined case line 213 can meet. *)
Definition f32_to_u32 (x : float) : Z := u32 (f32_trunc x).

(** ** Argument validation *)

(** [check_args].  [devices] is the value [cudaGetDeviceCount] leaves in
    the local variable [devices] (it stays [0] when the query fails).  The
    comparisons of lines 39 and 42 are false on a NaN, which therefore
    passes.  [1u << devices] is the 32-bit shift for [devices < 32]; for a
    larger count the shift of the source is undefined (the model reduces
    the mathematical value to 32 bits, which is [0]), and the statements
    about the bound assume [devices < 32]. *)
Definition check_args (devices : Z)
    (tolerance yinyang_t : float) (samples_size features_size clusters_size device : Z)
    (samples centroids assignments : Z) : KMCUDAResult :=
  if (clusters_size <? 2) || (clusters_size =? UINT32_MAX) then
    kmcudaInvalidArguments
  else if features_size =? 0 then
    kmcudaInvalidArguments
  else if samples_size <? clusters_size then
    kmcudaInvalidArguments
  else if device =? 0 then
    kmcudaNoSuchDevice
  else if device >? u32 (Z.shiftl 1 devices) then
    kmcudaNoSuchDevice
  else if (samples =? 0) || (centroids =? 0) || (assignments =? 0) then
    kmcudaInvalidArguments
  else if f32_lt tolerance f32_0 || f32_lt f32_1 tolerance then
    kmcudaInvalidArguments
  else if f32_lt yinyang_t f32_0 || f32_lt f32_0_5 yinyang_t then
    kmcudaInvalidArguments
  else
    kmcudaSuccess.

(** ** Device resolution *)

(** The loop of [setup_devices]: [for (int dev = 0; device; dev++)].
    [cudaSetDevice dev = true] stands for [cudaSetDevice(dev) == cudaSuccess].
    [None] is returned only when the fuel runs out. *)
Fixpoint setup_devices_loop (cudaSetDevice : Z -> bool) (fuel : nat)
    (dev device : Z) (devs : list Z) : option (list Z) :=
  if device =? 0 then Some devs
  else
    match fuel with
    | O => None
    | S fuel' =>
        let devs' :=
          if Z.land device 1 =? 1 then
            let pushed := devs ++ [dev] in
            if cudaSetDevice dev then pushed else removelast pushed
          else devs in
        setup_devices_loop cudaSetDevice fuel' (dev + 1) (Z.shiftr device 1) devs'
    end.

(** [setup_devices]: a [uint32_t] selector is exhausted after 32 shifts. *)
Definition setup_devices (cudaSetDevice : Z -> bool) (device : Z) : option (list Z) :=
  setup_devices_loop cudaSetDevice 32 0 device [].

(** ** The K-means++ index search of [kmeans_init_centroids] *)

(** The distances ([float]) and the sums and targets ([double]) of this
    part are rationals, added, multiplied and compared exactly.  The loops
    and their guards are those of the source, so the bounds on [j] and on
    the indices read hold whatever the sums are; the index at which a scan
    stops is the one of the source when every sum involved is exact in a
    [double], as in the runs of this file (distances that are small whole
    numbers).  With sums that round, the source may stop elsewhere. *)

(** State of a scan: the loop variable [j], the running sum [dist_sum2]
    and the indices at which [host_dists] was read, in order. *)
Record scan : Type := mkScan {
  scan_j : Z;
  scan_sum : Q;
  scan_reads : list Z
}.

Definition scan_read (t : Z) (s : scan) : scan :=
  mkScan (scan_j s) (scan_sum s) (t :: scan_reads s).

Section Search.

Variable samples_size : Z.
(** The array [host_dists], as filled by [kmeans_cuda_plus_plus]. *)
Variable host_dists : list Q.

(** [host_dists[t]]; the model reads [0] outside the array. *)
Definition host_dists_at (t : Z) : Q := nth (Z.to_nat t) host_dists 0%Q.

Variable choice_sum : Q.

(** [for (j = j0; j < samples_size && dist_sum2 < choice_sum; j++)
      dist_sum2 += host_dists[j];] *)
Fixpoint scan_forward (fuel : nat) (j : Z) (dist_sum2 : Q) : option scan :=
  if (j <? samples_size) && Qlt_bool dist_sum2 choice_sum then
    match fuel with
    | O => None
    | S fuel' =>
        option_map (scan_read j)
          (scan_forward fuel' (j + 1) (dist_sum2 + host_dists_at j)%Q)
    end
  else Some (mkScan j dist_sum2 []).

(** [for (j = j0; j > 1 && dist_sum2 >= choice_sum; j--)
      dist_sum2 -= host_dists[j];] *)
Fixpoint scan_backward (fuel : nat) (j : Z) (dist_sum2 : Q) : option scan :=
  if (j >? 1) && Qle_bool choice_sum dist_sum2 then
    match fuel with
    | O => None
    | S fuel' =>
        option_map (scan_read j)
          (scan_backward fuel' (j - 1) (dist_sum2 - host_dists_at j)%Q)
    end
  else Some (mkScan j dist_sum2 []).

(** [for (uint32_t t = 0; t < choice_approx; t++) dist_sum2 += host_dists[t];]
    a counted loop: the indices [0 .. choice_approx - 1].  The source lets
    the compiler reorder this sum ([omp simd reduction]); on exact sums the
    order does not matter. *)
Definition partial_sum_reads (choice_approx : Z) : list Z :=
  map Z.of_nat (seq 0 (Z.to_nat choice_approx)).

Definition partial_sum (choice_approx : Z) : Q :=
  fold_left (fun acc t => (acc + host_dists_at t)%Q)
            (partial_sum_reads choice_approx) 0%Q.

End Search.

(** Outcome of the search of one seeding step (lines 120-151): the value of
    [j] after the reference scan of lines 124-129, the value of [j] after the
    search policy of lines 130-151, and every index at which [host_dists]
    was read. *)
Record search_result : Type := mkSearch {
  naive_j : Z;
  final_j : Z;
  reads : list Z
}.

(** [double choice = (rand() + .0) / RAND_MAX]. *)
Definition choice_of_rand (RAND_MAX r : Z) : Q := (inject_Z r / inject_Z RAND_MAX)%Q.

(** Lines 120-151.  [choice * samples_size] and [choice * dist_sum] are
    exact products here, [double] products in the source. *)
Definition kmpp_search (samples_size : Z) (host_dists : list Q)
    (dist_sum choice : Q) : option search_result :=
  let choice_approx := float_to_u32 (choice * inject_Z samples_size)%Q in
  let choice_sum := (choice * dist_sum)%Q in
  let fwd := scan_forward samples_size host_dists choice_sum (Z.to_nat samples_size) in
  match fwd 0 0%Q with
  | None => None
  | Some naive =>
      let policy :=
        if choice_approx <? 100 then fwd 0 0%Q
        else
          let dist_sum2 := partial_sum host_dists choice_approx in
          let pre := partial_sum_reads choice_approx in
          if Qlt_bool dist_sum2 choice_sum then
            option_map (fun s => mkScan (scan_j s) (scan_sum s) (pre ++ scan_reads s))
                       (fwd choice_approx dist_sum2)
          else
            option_map
              (fun s => mkScan (u32 (scan_j s + 1)) (scan_sum s) (pre ++ scan_reads s))
              (scan_backward host_dists choice_sum (Z.to_nat choice_approx)
                             choice_approx dist_sum2) in
      option_map
        (fun s => mkSearch (scan_j naive) (scan_j s) (scan_reads naive ++ scan_reads s))
        policy
  end.

(** What one seeding step does after the search: [assert(j > 0)], then the
    copy of sample row [j - 1]. *)
Inductive pick : Type :=
| AssertionFailure
| Picked (row : Z).

Definition kmpp_pick (samples_size : Z) (host_dists : list Q)
    (dist_sum choice : Q) : option pick :=
  option_map
    (fun r => if final_j r >? 0 then Picked (u32 (final_j r - 1)) else AssertionFailure)
    (kmpp_search samples_size host_dists dist_sum choice).

(** ** Device buffers and the CUDA runtime *)

(** Modelled from the spec: [unique_devptr] of the header [private.h]
    (section 9: a raw pointer plus a boolean "do not free" flag).  [fake =
    true] marks an aliased buffer, which the planner never releases. *)
Record unique_devptr : Type := mkDevptr {
  get : Z;
  fake : bool
}.

(** [udevptrs<T>]: one [unique_devptr] per device, in the order of [devs]. *)
Definition udevptrs : Type := list unique_devptr.

(** The vectors of device buffers declared by [kmeans_cuda]. *)
Inductive buffer : Type :=
| Samples | Centroids | Assignments | AssignmentsPrev | CCounts
| AssignmentsYY | BoundsYY | DriftsYY | PassedYY | CentroidsYY.


Definition is_centroids_yy (b : buffer) : bool :=
  match b with CentroidsYY => true | _ => false end.

(** Modelled from the spec: the enumeration [KMCUDAInitMethod] of the header
    [kmcuda.h].  Section 6 names the flag of the entry operation
    [use_weighted_init]: [static_cast<KMCUDAInitMethod>(kmpp)] selects the
    K-means++ seeding when [kmpp] is true. *)
Inductive KMCUDAInitMethod : Type :=
| kmcudaInitMethodRandom
| kmcudaInitMethodPlusPlus.

Definition init_method_of_bool (kmpp : bool) : KMCUDAInitMethod :=
  if kmpp then kmcudaInitMethodPlusPlus else kmcudaInitMethodRandom.

(** What the invocation asks of the devices and of its collaborators. *)
Inductive event : Type :=
| Malloc (dest : buffer) (dev : Z) (size : Z) (ptr : option Z)
    (** [CUMALLOC_ONE(dest, size)] on device [dev]; [None]: the request failed *)
| MemcpyH2DAsync (dev : Z) (dst src size : Z) (ok : bool)
| MemcpyD2D (async : bool) (dst_stride src_stride size : Z) (ok : bool)
| MemcpyD2H (dst src bytes : Z) (ok : bool)
    (** [cudaMemcpy(dst, src, bytes, cudaMemcpyDeviceToHost)] *)
| MemcpyPeer (dst dst_dev src src_dev bytes : Z) (ok : bool)
    (** [cudaMemcpyPeer(dst, dst_dev, src, src_dev, bytes)] *)
| Setup (yinyang_groups : Z)
    (** call of [kmeans_cuda_setup] *)
| PlusPlus (i : Z)
    (** call of [kmeans_cuda_plus_plus] for centroid [i] *)
| Refine (yinyang_groups : Z) (centroids_yy passed_yy : udevptrs).
    (** call of [kmeans_cuda_yy] *)

(** The environment of one invocation: the answers of the CUDA runtime, of
    the C library and of the external collaborators. *)
Record runtime : Type := mkRuntime {
  cudaGetDeviceCount : Z;
  cudaSetDevice : Z -> bool;
  (** answer to the [n]-th allocation request: the pointer, or failure *)
  cudaMalloc : nat -> option Z;
  (** whether the [n]-th transfer request succeeds *)
  cudaMemcpy : nat -> bool;
  cudaMemGetInfo : bool;
  RAND_MAX : Z;
  (** the [n]-th value of [rand()] after [srand(seed)] *)
  rand : Z -> nat -> Z;
  (** [kmeans_cuda_setup(samples_size, features_size, clusters_size,
      yinyang_groups, devs, verbosity)] *)
  kmeans_cuda_setup : Z -> Z -> Z -> Z -> list Z -> Z -> KMCUDAResult;
  (** [kmeans_cuda_plus_plus(samples_size, features_size, i, verbosity, devs,
      ...)]: the result code, [host_dists] and [dist_sum] *)
  kmeans_cuda_plus_plus : Z -> Z -> Z -> Z -> list Z -> KMCUDAResult * list Q * Q;
  (** [kmeans_cuda_yy(tolerance, yinyang_groups, samples_size, clusters_size,
      features_size, verbosity, devs, ...)] *)
  kmeans_cuda_yy : float -> Z -> Z -> Z -> Z -> Z -> list Z -> KMCUDAResult
}.

(** State threaded through an invocation. *)
Record world : Type := mkWorld {
  trace : list event;
  mallocs : nat;
  memcpys : nat;
  rng_seed : Z;
  rng_pos : nat
}.

Definition world0 : world := mkWorld [] 0 0 1 0.

(** How a computation ends: with a value, by a [return] out of the
    function being executed, by a failed [assert], or out of fuel. *)
Inductive outcome (A : Type) : Type :=
| Value (a : A)
| Return (r : KMCUDAResult)
| AssertFail
| OutOfFuel.

Arguments Value {A} a.
Arguments Return {A} r.
Arguments AssertFail {A}.
Arguments OutOfFuel {A}.

Definition M (A : Type) : Type := world -> outcome A * world.

Definition ret {A : Type} (a : A) : M A := fun w => (Value a, w).

Definition bind {A B : Type} (m : M A) (k : A -> M B) : M B :=
  fun w =>
    match m w with
    | (Value a, w') => k a w'
    | (Return r, w') => (Return r, w')
    | (AssertFail, w') => (AssertFail, w')
    | (OutOfFuel, w') => (OutOfFuel, w')
    end.

Declare Scope kmcuda_scope.
Delimit Scope kmcuda_scope with kmcuda.
Notation "x <- m ;; k" := (bind m (fun x => k))
  (at level 61, m at next level, right associativity) : kmcuda_scope.
Notation "' pat <- m ;; k" := (bind m (fun x => match x with pat => k end))
  (at level 61, pat pattern, m at next level, right associativity) : kmcuda_scope.
Notation "m ;; k" := (bind m (fun _ => k))
  (at level 61, right associativity) : kmcuda_scope.
Local Open Scope kmcuda_scope.

(** [return r;] *)
Definition return_ {A : Type} (r : KMCUDAResult) : M A := fun w => (Return r, w).

(** [assert(b);] *)
Definition assert (b : bool) : M unit :=
  fun w => if b then (Value tt, w) else (AssertFail, w).

Definition emit (e : event) : M unit :=
  fun w => (Value tt,
            mkWorld (trace w ++ [e]) (mallocs w) (memcpys w) (rng_seed w) (rng_pos w)).

(** Modelled from the spec: the macro [RETERR] of [private.h] (section 7:
    the first failure aborts the remaining pipeline and returns that code). *)
Definition RETERR (r : KMCUDAResult) : M unit :=
  match r with
  | kmcudaSuccess => ret tt
  | _ => return_ r
  end.

(** Modelled from the spec: the macro [CUCH] of [private.h] (a CUDA call
    that fails makes the function return the given code). *)
Definition CUCH (ok : bool) (code : KMCUDAResult) : M unit :=
  if ok then ret tt else return_ code.

Definition out_of_fuel {A : Type} : M A := fun w => (OutOfFuel, w).

(** A call of a function of this file: its [return] ends the callee only. *)
Definition call (m : M KMCUDAResult) : M KMCUDAResult :=
  fun w =>
    match m w with
    | (Return r, w') => (Value r, w')
    | other => other
    end.

(** [srand(seed)]. *)
Definition srand (seed : Z) : M unit :=
  fun w => (Value tt, mkWorld (trace w) (mallocs w) (memcpys w) seed 0).

(** Modelled from the spec: the macro [FOR_ALL_DEVS] of [private.h]
    (section 9: "for all devices" iteration with early return on error).
    [s] stands for the local variables the body updates. *)
Fixpoint FOR_ALL_DEVS {S : Type} (devs : list Z) (body : Z -> S -> M S) (s : S) : M S :=
  match devs with
  | [] => ret s
  | dev :: rest => s' <- body dev s ;; FOR_ALL_DEVS rest body s'
  end.

(** Modelled from the spec: the macro [FOR_ALL_DEVSI] of [private.h], the
    same iteration with the index [devi] of the device in [devs]. *)
Fixpoint FOR_ALL_DEVSI (devi : nat) (devs : list Z) (body : nat -> Z -> M unit) : M unit :=
  match devs with
  | [] => ret tt
  | dev :: rest => body devi dev ;; FOR_ALL_DEVSI (S devi) rest body
  end.

(** [for (uint32_t c = start; ...; c++)] with a known number of rounds. *)
Fixpoint for_range (rounds : nat) (c : Z) (body : Z -> M unit) : M unit :=
  match rounds with
  | O => ret tt
  | S rounds' => body c ;; for_range rounds' (c + 1) body
  end.

Section Invocation.

Variable rt : runtime.

(** [rand()]. *)
Definition do_rand : M Z :=
  fun w => (Value (rand rt (rng_seed w) (rng_pos w)),
            mkWorld (trace w) (mallocs w) (memcpys w) (rng_seed w) (S (rng_pos w))).

(** One allocation request on device [dev] for the vector [dest]. *)
Definition cuda_malloc (dest : buffer) (dev size : Z) : M (option Z) :=
  fun w =>
    let r := cudaMalloc rt (mallocs w) in
    (Value r,
     mkWorld (trace w ++ [Malloc dest dev size r]) (S (mallocs w)) (memcpys w)
             (rng_seed w) (rng_pos w)).

(** One transfer request; [request ok] is the event to record. *)
Definition cuda_memcpy (request : bool -> event) : M bool :=
  fun w =>
    let ok := cudaMemcpy rt (memcpys w) in
    (Value ok,
     mkWorld (trace w ++ [request ok]) (mallocs w) (S (memcpys w))
             (rng_seed w) (rng_pos w)).

(** Modelled from the spec: the macro [CUMALLOC_ONE] of [private.h]
    (section 4.2: an owned allocation; a failure aborts the pipeline with
    the memory-allocation error).  The new pointer is appended to [dest]. *)
Definition CUMALLOC_ONE (tag : buffer) (dest : udevptrs) (dev size : Z) : M udevptrs :=
  r <- cuda_malloc tag dev size ;;
  match r with
  | Some p => ret (dest ++ [mkDevptr p false])
  | None => return_ kmcudaMemoryAllocationFailure
  end.

(** Modelled from the spec: the macro [CUMALLOC] of [private.h], one
    owned allocation on every device of [devs]. *)
Definition CUMALLOC (tag : buffer) (dest : udevptrs) (size : Z) (devs : list Z)
  : M udevptrs :=
  FOR_ALL_DEVS devs (fun dev dest => CUMALLOC_ONE tag dest dev size) dest.

(** Modelled from the spec: the macro [CUMEMCPY_H2D_ASYNC] of [private.h],
    a host-to-device transfer to the buffer of every device; a failure
    returns the memory-copy error. *)
Definition CUMEMCPY_H2D_ASYNC (dst : udevptrs) (dst_stride src size : Z)
    (devs : list Z) : M unit :=
  FOR_ALL_DEVSI 0 devs (fun devi dev =>
    ok <- cuda_memcpy
            (MemcpyH2DAsync dev (get (nth devi dst (mkDevptr 0 false)) + dst_stride)
                            src size) ;;
    CUCH ok kmcudaMemoryCopyError).

(** Modelled from the spec: the macros [CUMEMCPY_D2D] and
    [CUMEMCPY_D2D_ASYNC] of [private.h], the copy of [size] elements from
    offset [src_stride] of the samples to offset [dst_stride] of the
    centroids; a failure returns the memory-copy error. *)
Definition CUMEMCPY_D2D (async : bool) (dst_stride src_stride size : Z) : M unit :=
  ok <- cuda_memcpy (MemcpyD2D async dst_stride src_stride size) ;;
  CUCH ok kmcudaMemoryCopyError.

(** [print_memory_stats]. *)
Definition print_memory_stats : M KMCUDAResult :=
  if cudaMemGetInfo rt then ret kmcudaSuccess else return_ kmcudaRuntimeError.

(** [kmeans_init_centroids].  The progress output is left out.
    [assert(dist_sum == dist_sum)] rejects a NaN, which no rational is.  The
    search of lines 120-151 is [kmpp_search]. *)
Definition kmeans_init_centroids (method : KMCUDAInitMethod)
    (samples_size features_size clusters_size seed verbosity : Z) (devs : list Z)
  : M KMCUDAResult :=
  let ssize := u32 (features_size * sizeof_float) in
  srand seed ;;
  match method with
  | kmcudaInitMethodRandom =>
      for_range (Z.to_nat clusters_size) 0 (fun c =>
        r <- do_rand ;;
        let blocking :=
          (u32 (c + 1) mod 1000 =? 0) || (c =? u32 (clusters_size - 1)) in
        CUMEMCPY_D2D (negb blocking) (u32 (c * features_size))
                     (u32 (u32 r mod samples_size * features_size)) features_size)
  | kmcudaInitMethodPlusPlus =>
      r0 <- do_rand ;;
      CUMEMCPY_D2D true 0 (u32 (u32 r0 mod samples_size * features_size))
                   features_size ;;
      for_range (Z.to_nat (clusters_size - 1)) 1 (fun i =>
        emit (PlusPlus i) ;;
        let '(res, host_dists, dist_sum) :=
          kmeans_cuda_plus_plus rt samples_size features_size i verbosity devs in
        RETERR res ;;
        assert (Qeq_bool dist_sum dist_sum) ;;
        r <- do_rand ;;
        let choice := choice_of_rand (RAND_MAX rt) r in
        match kmpp_search samples_size host_dists dist_sum choice with
        | None => out_of_fuel
        | Some found =>
            let j := final_j found in
            assert (j >? 0) ;;
            FOR_ALL_DEVSI 0 devs (fun _ _ =>
              CUMEMCPY_D2D true (u32 (i * features_size))
                           (u32 (u32 (j - 1) * features_size)) ssize)
        end)
  end ;;
  ret kmcudaSuccess.

(** The sample buffers, lines 181-188 of [kmeans_cuda]. *)
Definition plan_samples (samples_size features_size device_ptrs samples : Z)
    (devs : list Z) : M udevptrs :=
  let device_samples_size := usize (samples_size * features_size) in
  if device_ptrs <? 0 then
    device_samples <- CUMALLOC Samples [] device_samples_size devs ;;
    CUMEMCPY_H2D_ASYNC device_samples 0 samples device_samples_size devs ;;
    ret device_samples
  else
    ret [mkDevptr samples true].

(** The centroid buffers and [must_copy_result], lines 189-199. *)
Definition plan_centroids (centroids_size device_ptrs centroids : Z) (devs : list Z)
  : M (udevptrs * bool) :=
  FOR_ALL_DEVS devs
    (fun dev '(device_centroids, must_copy_result) =>
       if dev =? device_ptrs then
         ret (device_centroids ++ [mkDevptr centroids true], false)
       else
         device_centroids' <- CUMALLOC_ONE Centroids device_centroids dev centroids_size ;;
         ret (device_centroids', must_copy_result))
    ([], true).

(** The assignment buffers, lines 200-207. *)
Definition plan_assignments (samples_size device_ptrs assignments : Z) (devs : list Z)
  : M udevptrs :=
  FOR_ALL_DEVS devs
    (fun dev device_assignments =>
       if dev =? device_ptrs then
         ret (device_assignments ++ [mkDevptr assignments true])
       else
         CUMALLOC_ONE Assignments device_assignments dev samples_size)
    [].

(** The scratch buffers of the accelerated variant. *)
Record yinyang_buffers : Type := mkYinyang {
  device_assignments_yy : udevptrs;
  device_bounds_yy : udevptrs;
  device_drifts_yy : udevptrs;
  device_passed_yy : udevptrs;
  device_centroids_yy : udevptrs
}.

(** The condition of line 224, as the source evaluates it:
    [yyc_size + (clusters_size + yinyang_groups) <= samples_size] with
    [size_t yyc_size = yinyang_groups * features_size], a product of 32-bit
    operands, and a 32-bit sum in the parentheses. *)
Definition reuse_passed_yy (yinyang_groups samples_size features_size clusters_size : Z)
  : bool :=
  let yyc_size := u32 (yinyang_groups * features_size) in
  usize (yyc_size + u32 (clusters_size + yinyang_groups)) <=? samples_size.

(** Lines 215-232. *)
Definition plan_yinyang
    (yinyang_groups samples_size features_size clusters_size centroids_size : Z)
    (devs : list Z) : M yinyang_buffers :=
  if yinyang_groups >=? 1 then
    assignments_yy <- CUMALLOC AssignmentsYY [] clusters_size devs ;;
    let yyb_size := usize (samples_size * u32 (yinyang_groups + 1)) in
    bounds_yy <- CUMALLOC BoundsYY [] yyb_size devs ;;
    drifts_yy <- CUMALLOC DriftsYY [] (usize (centroids_size + clusters_size)) devs ;;
    passed_yy <- CUMALLOC PassedYY [] samples_size devs ;;
    let yyc_size := u32 (yinyang_groups * features_size) in
    if reuse_passed_yy yinyang_groups samples_size features_size clusters_size then
      ret (mkYinyang assignments_yy bounds_yy drifts_yy passed_yy
             (map (fun p => mkDevptr (get p) true) passed_yy))
    else
      centroids_yy <- CUMALLOC CentroidsYY [] yyc_size devs ;;
      ret (mkYinyang assignments_yy bounds_yy drifts_yy passed_yy centroids_yy)
  else
    ret (mkYinyang [] [] [] [] []).

Definition null_devptr : unique_devptr := mkDevptr 0 false.

(** The copy-out of the results, lines 258-274. *)
Definition copy_result (must_copy_result : bool)
    (device_ptrs centroids assignments centroids_size samples_size : Z)
    (device_centroids device_assignments : udevptrs) (devs : list Z) : M unit :=
  if must_copy_result then
    if device_ptrs <? 0 then
      ok <- cuda_memcpy
              (MemcpyD2H centroids (get (nth 0 device_centroids null_devptr))
                         (usize (centroids_size * sizeof_float))) ;;
      CUCH ok kmcudaMemoryCopyError ;;
      ok <- cuda_memcpy
              (MemcpyD2H assignments (get (nth 0 device_assignments null_devptr))
                         (usize (samples_size * sizeof_uint32_t))) ;;
      CUCH ok kmcudaMemoryCopyError
    else
      ok <- cuda_memcpy
              (MemcpyPeer centroids device_ptrs
                          (get (nth 0 device_centroids null_devptr)) (nth 0 devs 0)
                          (usize (centroids_size * sizeof_float))) ;;
      CUCH ok kmcudaMemoryCopyError ;;
      ok <- cuda_memcpy
              (MemcpyPeer assignments device_ptrs
                          (get (nth 0 device_assignments null_devptr)) (nth 0 devs 0)
                          (usize (samples_size * sizeof_uint32_t))) ;;
      CUCH ok kmcudaMemoryCopyError
  else
    ret tt.

(** [uint32_t yinyang_groups = yinyang_t * clusters_size]: the [uint32_t]
    is converted to [float], the product is taken in single precision and
    its integer part is kept. *)
Definition yinyang_groups_of (yinyang_t : float) (clusters_size : Z) : Z :=
  f32_to_u32 (f32_mul yinyang_t (float_of_u32 clusters_size)).

(** The local variables of [kmeans_cuda] that are live after the call of
    [kmeans_cuda_yy]. *)
Record refined : Type := mkRefined {
  devs_of : list Z;
  centroids_size_of : Z;
  must_copy_result_of : bool;
  device_centroids_of : udevptrs;
  device_assignments_of : udevptrs
}.

(** [kmeans_cuda] up to the return of [kmeans_cuda_yy], lines 174-257. *)
Definition kmeans_cuda_refine (kmpp : bool) (tolerance yinyang_t : float)
    (samples_size features_size clusters_size seed device verbosity device_ptrs : Z)
    (samples centroids assignments : Z) : M refined :=
  RETERR (check_args (cudaGetDeviceCount rt) tolerance yinyang_t samples_size
                     features_size clusters_size device
                     samples centroids assignments) ;;
  devs <- match setup_devices (cudaSetDevice rt) device with
          | Some devs => ret devs
          | None => out_of_fuel
          end ;;
  match devs with
  | [] => return_ kmcudaNoSuchDevice
  | _ :: _ =>
      device_samples <- plan_samples samples_size features_size device_ptrs samples devs ;;
      let centroids_size := usize (clusters_size * features_size) in
      ' (device_centroids, must_copy_result) <-
          plan_centroids centroids_size device_ptrs centroids devs ;;
      device_assignments <- plan_assignments samples_size device_ptrs assignments devs ;;
      device_assignments_prev <- CUMALLOC AssignmentsPrev [] samples_size devs ;;
      device_ccounts <- CUMALLOC CCounts [] clusters_size devs ;;
      let yinyang_groups := yinyang_groups_of yinyang_t clusters_size in
      yy <- plan_yinyang yinyang_groups samples_size features_size clusters_size
                         centroids_size devs ;;
      (if verbosity >? 1 then r <- call print_memory_stats ;; RETERR r else ret tt) ;;
      emit (Setup yinyang_groups) ;;
      RETERR (kmeans_cuda_setup rt samples_size features_size clusters_size
                                yinyang_groups devs verbosity) ;;
      r <- call (kmeans_init_centroids (init_method_of_bool kmpp) samples_size
                   features_size clusters_size seed verbosity devs) ;;
      RETERR r ;;
      emit (Refine yinyang_groups (device_centroids_yy yy) (device_passed_yy yy)) ;;
      RETERR (kmeans_cuda_yy rt tolerance yinyang_groups samples_size clusters_size
                             features_size verbosity devs) ;;
      ret (mkRefined devs centroids_size must_copy_result
                     device_centroids device_assignments)
  end.

(** [kmeans_cuda]: the pipeline above, then the copy-out of lines 258-274
    and [return kmcudaSuccess]. *)
Definition kmeans_cuda (kmpp : bool) (tolerance yinyang_t : float)
    (samples_size features_size clusters_size seed device verbosity device_ptrs : Z)
    (samples centroids assignments : Z) : M KMCUDAResult :=
  call (
    st <- kmeans_cuda_refine kmpp tolerance yinyang_t samples_size features_size
                             clusters_size seed device verbosity device_ptrs
                             samples centroids assignments ;;
    copy_result (must_copy_result_of st) device_ptrs centroids assignments
                (centroids_size_of st) samples_size
                (device_centroids_of st) (device_assignments_of st) (devs_of st) ;;
    ret kmcudaSuccess).

End Invocation.

(** ** Vocabulary of the statements *)

(** A runtime with two devices on which every request succeeds, used to
    run the model on concrete inputs. *)
Definition two_devices : runtime :=
  mkRuntime 2 (fun _ => true) (fun n => Some (4096 * (Z.of_nat n + 1)))
            (fun _ => true) true 2147483647
            (fun seed n => (seed + 1000003 * Z.of_nat n) mod 2147483648)
            (fun _ _ _ _ _ _ => kmcudaSuccess)
            (fun samples_size _ _ _ _ =>
               (kmcudaSuccess, repeat 1%Q (Z.to_nat samples_size), inject_Z samples_size))
            (fun _ _ _ _ _ _ _ => kmcudaSuccess).

(** The shape rules of [check_args] (lines 19-27). *)
Definition shape_violation (samples_size features_size clusters_size : Z) : Prop :=
  clusters_size < 2 \/ clusters_size = UINT32_MAX \/ features_size = 0
  \/ samples_size < clusters_size.

(** The rules on pointers, tolerance and accelerated fraction (lines 36-44):
    a null pointer, a tolerance that compares below [0] or above [1], an
    accelerated fraction that compares below [0] or above [0.5].  A NaN
    compares neither below nor above and violates no rule. *)
Definition value_violation (tolerance yinyang_t : float)
    (samples centroids assignments : Z) : Prop :=
  samples = 0 \/ centroids = 0 \/ assignments = 0
  \/ f32_lt tolerance f32_0 = true \/ f32_lt f32_1 tolerance = true
  \/ f32_lt yinyang_t f32_0 = true \/ f32_lt f32_0_5 yinyang_t = true.

(** The device selector passes lines 28-35. *)
Definition selector_passes (devices device : Z) : Prop :=
  device <> 0 /\ device <= u32 (Z.shiftl 1 devices).

(** The transfers of the copy-out. *)
Definition is_copy_out (e : event) : bool :=
  match e with
  | MemcpyD2H _ _ _ _ | MemcpyPeer _ _ _ _ _ _ => true
  | _ => false
  end.

(** [hoare P m Q]: from any world, [m] only appends events that satisfy [P]
    to the trace, and a value it ends with satisfies [Q]. *)
Definition hoare {A : Type} (P : event -> Prop) (m : M A) (Q : A -> Prop) : Prop :=
  forall w, exists evs,
    trace (snd (m w)) = trace w ++ evs
    /\ Forall P evs
    /\ forall a, fst (m w) = Value a -> Q a.

(** [m] only appends events that satisfy [P] to the trace. *)
Definition emits {A : Type} (P : event -> Prop) (m : M A) : Prop :=
  hoare P m (fun _ => True).

(** How the buffer of device [dev] relates to the caller's pointer [caller]
    under the location hint [device_ptrs] (lines 193-198 and 202-206):
    aliased on the hinted device, owned on every other one. *)
Definition alias_or_owned (device_ptrs caller : Z) (dev : Z) (p : unique_devptr) : Prop :=
  if dev =? device_ptrs then p = mkDevptr caller true else fake p = false.

(** Some participating device is the one the location hint names. *)
Definition hinted (device_ptrs : Z) (devs : list Z) : bool :=
  existsb (fun dev => dev =? device_ptrs) devs.


(** A runtime on which no device can be activated. *)
Definition no_live_device : runtime :=
  mkRuntime 2 (fun _ => false) (fun _ => None) (fun _ => false) true 2147483647
            (fun _ _ => 0)
            (fun _ _ _ _ _ _ => kmcudaSuccess)
            (fun _ _ _ _ _ => (kmcudaSuccess, [], 0%Q))
            (fun _ _ _ _ _ _ _ => kmcudaSuccess).

(** A runtime with two devices of which only device 0 can be activated. *)
Definition first_device_only : runtime :=
  mkRuntime 2 (fun dev => dev =? 0) (fun n => Some (4096 * (Z.of_nat n + 1)))
            (fun _ => true) true 2147483647
            (fun _ _ => 0)
            (fun _ _ _ _ _ _ => kmcudaSuccess)
            (fun _ _ _ _ _ => (kmcudaSuccess, [], 0%Q))
            (fun _ _ _ _ _ _ _ => kmcudaSuccess).

(** Following the spec's words (section 4.3, step 3): the smallest sample
    index [j] such that the prefix sum of the per-sample distances up to
    [j] is at least [T], found by a full linear scan; [None] when no prefix
    sum reaches [T].  [j] is the index of the head of [host_dists] and
    [prefix] the sum of the distances before it. *)
Fixpoint spec_smallest_index (host_dists : list Q) (T : Q) (j : Z) (prefix : Q)
  : option Z :=
  match host_dists with
  | [] => None
  | d :: rest =>
      if Qle_bool T (prefix + d)%Q then Some j
      else spec_smallest_index rest T (j + 1) (prefix + d)%Q
  end.

(** The sum of the distances. *)
Definition total (host_dists : list Q) : Q := fold_right Qplus 0%Q host_dists.

(** 200 distances, all of them zero except the one of sample 50. *)
Definition front_loaded : list Q := repeat 0%Q 50 ++ [100%Q] ++ repeat 0%Q 149.

(** The value of [rand()] the examples use: about three quarters of
    [RAND_MAX = 2147483647]. *)
Definition three_quarters : Q := choice_of_rand 2147483647 1610612735.

(** The transfer of [bytes] bytes from the buffer [src] of the primary
    device to the caller's pointer [dst]: a copy to the host when the
    location hint is negative, a peer copy to the hinted device otherwise
    (lines 259-273). *)
Definition copy_out (device_ptrs dst src primary bytes : Z) (ok : bool) : event :=
  if device_ptrs <? 0 then MemcpyD2H dst src bytes ok
  else MemcpyPeer dst device_ptrs src primary bytes ok.

(** A run of the pipeline up to the return of [kmeans_cuda_yy]: six
    samples of two features, three clusters, K-means++ seeding, devices 0
    and 1, results expected in host memory. *)
Definition host_run : outcome refined * world :=
  kmeans_cuda_refine two_devices true f32_0_01 f32_0_1 6 2 3 42 3 0 (-1)
                     111 222 333 world0.

Definition host_run_state : refined :=
  match fst host_run with
  | Value st => st
  | _ => mkRefined [] 0 true [] []
  end.

(** Requests for a buffer of [dest] in a trace. *)
Definition is_malloc_of (dest : buffer -> bool) (e : event) : bool :=
  match e with
  | Malloc b _ _ _ => dest b
  | _ => false
  end.

Definition is_samples (b : buffer) : bool :=
  match b with Samples => true | _ => false end.

(** The view of a passed-flags buffer that lines 225-228 store in
    [device_centroids_yy]. *)
Definition alias_of (p : unique_devptr) : unique_devptr := mkDevptr (get p) true.

(** An owned buffer at address [p]. *)
Definition owned (p : Z) : unique_devptr := mkDevptr p false.

(** The successful requests of [size] elements for [dest], one per pair of
    a device and the pointer it was given. *)
Definition granted (dest : buffer) (size : Z) (devs ptrs : list Z) : list event :=
  map (fun dp => Malloc dest (fst dp) size (Some (snd dp))) (combine devs ptrs).

(** The successful uploads of [size] elements from the host pointer [src]
    to the buffers [dst], one per device, the devices being numbered from
    [devi] on. *)
Definition uploaded (dst : udevptrs) (src size : Z) (devi : nat) (devs : list Z)
  : list event :=
  map (fun id => MemcpyH2DAsync (snd id) (get (nth (fst id) dst (mkDevptr 0 false)) + 0)
                                src size true)
      (combine (seq devi (length devs)) devs).

(** The way a computation ends, whatever its value. *)
Inductive ending : Type :=
| EndValue
| EndReturn (r : KMCUDAResult)
| EndAssert
| EndFuel.

Definition ending_of {A : Type} (o : outcome A) : ending :=
  match o with
  | Value _ => EndValue
  | Return r => EndReturn r
  | AssertFail => EndAssert
  | OutOfFuel => EndFuel
  end.

(** [obeys R m Q]: from any world, the events [m] appends and the way it
    ends are related by [R], and a value it ends with satisfies [Q]. *)
Definition obeys {A : Type} (R : ending -> list event -> Prop) (m : M A)
    (Q : A -> Prop) : Prop :=
  forall w, exists evs,
    trace (snd (m w)) = trace w ++ evs
    /\ R (ending_of (fst (m w))) evs
    /\ forall a, fst (m w) = Value a -> Q a.

(** What a relation between endings and events needs in order to go
    through sequences, early returns and calls. *)
Record discipline (R : ending -> list event -> Prop) : Prop := mkDiscipline {
  d_skip : R EndValue [];
  d_seq : forall s evs1 evs2, R EndValue evs1 -> R s evs2 -> R s (evs1 ++ evs2);
  d_return : forall r, r <> kmcudaSuccess -> R (EndReturn r) [];
  d_call : forall evs, R (EndReturn kmcudaSuccess) evs -> R EndValue evs
}.

(** A request that the runtime refused. *)
Definition failed (e : event) : bool :=
  match e with
  | Malloc _ _ _ None => true
  | MemcpyH2DAsync _ _ _ _ false => true
  | MemcpyD2D _ _ _ _ false => true
  | MemcpyD2H _ _ _ false => true
  | MemcpyPeer _ _ _ _ _ false => true
  | _ => false
  end.

(** The code the code returns for a refused request. *)
Definition code_of (e : event) : KMCUDAResult :=
  match e with
  | Malloc _ _ _ _ => kmcudaMemoryAllocationFailure
  | _ => kmcudaMemoryCopyError
  end.

Definition clean (evs : list event) : Prop := Forall (fun e => failed e = false) evs.

(** Either no request was refused, or the last event is the only refused
    request and the computation has returned its code. *)
Definition fails_fast (s : ending) (evs : list event) : Prop :=
  (clean evs /\ s <> EndReturn kmcudaSuccess)
  \/ (exists evs' e, evs = evs' ++ [e] /\ clean evs' /\ failed e = true
                     /\ s = EndReturn (code_of e)).

(** The computation has ended by itself: its loops had fuel left. *)
Definition finishes (s : ending) (evs : list event) : Prop := s <> EndFuel.

(** The computation has ended with a value or a [return]. *)
Definition returns (s : ending) (evs : list event) : Prop :=
  s <> EndFuel /\ s <> EndAssert.

(** A runtime with two devices on which every request succeeds, whose
    [rand()] stays strictly between 0 and [RAND_MAX] and whose distance
    sums are positive. *)
Definition steady_runtime : runtime :=
  mkRuntime 2 (fun _ => true) (fun n => Some (4096 * (Z.of_nat n + 1)))
            (fun _ => true) true 2147483647
            (fun _ n => if Nat.even n then 715827882 else 1431655765)
            (fun _ _ _ _ _ _ => kmcudaSuccess)
            (fun _ _ _ _ _ => (kmcudaSuccess, [1; 2; 3; 4; 5; 6]%Q, 21%Q))
            (fun _ _ _ _ _ _ _ => kmcudaSuccess).

(** The runtime [two_devices] with a [cudaMemGetInfo] that fails. *)
Definition blind_runtime : runtime :=
  mkRuntime 2 (fun _ => true) (fun n => Some (4096 * (Z.of_nat n + 1)))
            (fun _ => true) false 2147483647
            (fun seed n => (seed + 1000003 * Z.of_nat n) mod 2147483648)
            (fun _ _ _ _ _ _ => kmcudaSuccess)
            (fun samples_size _ _ _ _ =>
               (kmcudaSuccess, repeat 1%Q (Z.to_nat samples_size), inject_Z samples_size))
            (fun _ _ _ _ _ _ _ => kmcudaSuccess).


(** Every event satisfies [P], however the computation ends. *)
Definition only (P : event -> Prop) (s : ending) (evs : list event) : Prop :=
  Forall P evs.

(** The computation has not executed a [return kmcudaSuccess]. *)
Definition no_success (s : ending) (evs : list event) : Prop :=
  s <> EndReturn kmcudaSuccess.

Definition both (R1 R2 : ending -> list event -> Prop) (s : ending)
    (evs : list event) : Prop :=
  R1 s evs /\ R2 s evs.

(** A copy of random seeding (lines 90-99): it is given the offset
    [c * features_size] of a centroid [c], the offset [row * features_size]
    of a sample [row] and the size [features_size]. *)
Definition copies_rows (samples_size features_size clusters_size : Z) (e : event)
  : Prop :=
  match e with
  | MemcpyD2D _ dst_stride src_stride size _ =>
      (exists c, 0 <= c < clusters_size /\ dst_stride = c * features_size)
      /\ (exists row, 0 <= row < samples_size /\ src_stride = row * features_size)
      /\ size = features_size
  | _ => True
  end.

(** An event of K-means++ seeding (lines 104-157): a call of
    [kmeans_cuda_plus_plus] for a centroid [1 <= i < clusters_size], or a
    copy that is given the offset of a centroid [c], the offset of a sample
    [row] and, as its size, [features_size] for the first centroid (line
    106) and [ssize = features_size * sizeof(float)], a 32-bit product, for
    the others (line 156). *)
Definition seeds_rows (samples_size features_size clusters_size : Z) (e : event)
  : Prop :=
  match e with
  | MemcpyD2D _ dst_stride src_stride size _ =>
      exists c row,
        0 <= c < clusters_size /\ 0 <= row < samples_size
        /\ dst_stride = c * features_size /\ src_stride = row * features_size
        /\ size = if c =? 0 then features_size
                  else u32 (features_size * sizeof_float)
  | PlusPlus i => 1 <= i < clusters_size
  | _ => True
  end.

(** The requests [kmeans_cuda] makes before it calls a collaborator:
    allocations and the upload of the samples. *)
Definition is_preparation (e : event) : bool :=
  match e with
  | Malloc _ _ _ _ | MemcpyH2DAsync _ _ _ _ _ => true
  | _ => false
  end.

(** The copy of lines 90-99 for the centroid [c], chosen by the draw [r]. *)
Definition random_copy (samples_size features_size clusters_size c r : Z) : event :=
  MemcpyD2D (negb ((u32 (c + 1) mod 1000 =? 0) || (c =? u32 (clusters_size - 1))))
            (u32 (c * features_size))
            (u32 (u32 r mod samples_size * features_size)) features_size true.

(** * Properties *)

(** ** Argument validation *)

Lemma Qlt_bool_iff (a b : Q) : Qlt_bool a b = true <-> (a < b)%Q.
Proof.
  unfold Qlt_bool. rewrite negb_true_iff. split; intro H.
  - apply Qnot_le_lt. intro Hle. apply Qle_bool_iff in Hle. congruence.
  - destruct (Qle_bool b a) eqn:E; [|reflexivity].
    apply Qle_bool_iff in E. exfalso. exact (Qlt_not_le _ _ H E).
Qed.

Lemma check_args_shape devices tolerance yinyang_t samples_size features_size
      clusters_size device samples centroids assignments :
  shape_violation samples_size features_size clusters_size ->
  check_args devices tolerance yinyang_t samples_size features_size clusters_size
             device samples centroids assignments = kmcudaInvalidArguments.
Proof.
  unfold shape_violation, check_args. intros H.
  destruct (clusters_size <? 2) eqn:E1; [reflexivity|].
  destruct (clusters_size =? UINT32_MAX) eqn:E2; [reflexivity|].
  destruct (features_size =? 0) eqn:E3; [reflexivity|].
  destruct (samples_size <? clusters_size) eqn:E4; [reflexivity|].
  exfalso. lia.
Qed.

Lemma check_args_device_zero devices tolerance yinyang_t samples_size features_size
      clusters_size samples centroids assignments :
  ~ shape_violation samples_size features_size clusters_size ->
  check_args devices tolerance yinyang_t samples_size features_size clusters_size
             0 samples centroids assignments = kmcudaNoSuchDevice.
Proof.
  unfold shape_violation, check_args. intros H.
  destruct (clusters_size <? 2) eqn:E1; [exfalso; lia|].
  destruct (clusters_size =? UINT32_MAX) eqn:E2; [exfalso; lia|].
  destruct (features_size =? 0) eqn:E3; [exfalso; lia|].
  destruct (samples_size <? clusters_size) eqn:E4; [exfalso; lia|].
  reflexivity.
Qed.

Lemma check_args_value devices tolerance yinyang_t samples_size features_size
      clusters_size device samples centroids assignments :
  selector_passes devices device ->
  value_violation tolerance yinyang_t samples centroids assignments ->
  check_args devices tolerance yinyang_t samples_size features_size clusters_size
             device samples centroids assignments = kmcudaInvalidArguments.
Proof.
  unfold selector_passes, value_violation, check_args. intros [Hd0 Hd1] H.
  destruct ((clusters_size <? 2) || (clusters_size =? UINT32_MAX)); [reflexivity|].
  destruct (features_size =? 0); [reflexivity|].
  destruct (samples_size <? clusters_size); [reflexivity|].
  destruct (device =? 0) eqn:E1; [exfalso; lia|].
  destruct (device >? u32 (Z.shiftl 1 devices)) eqn:E2; [exfalso; lia|].
  destruct (samples =? 0) eqn:E3; [reflexivity|].
  destruct (centroids =? 0) eqn:E4; [reflexivity|].
  destruct (assignments =? 0) eqn:E5; [reflexivity|].
  cbn [orb].
  destruct (f32_lt tolerance f32_0) eqn:E6; [reflexivity|].
  destruct (f32_lt f32_1 tolerance) eqn:E7; [reflexivity|].
  destruct (f32_lt yinyang_t f32_0) eqn:E8; [reflexivity|].
  destruct (f32_lt f32_0_5 yinyang_t) eqn:E9; [reflexivity|].
  exfalso.
  destruct H as [H|[H|[H|[H|[H|[H|H]]]]]]; try lia; congruence.
Qed.

(** A failed validation ends the invocation at once: the code of
    [check_args] is returned and the world is untouched. *)
Lemma kmeans_cuda_rejects rt kmpp tolerance yinyang_t samples_size features_size
      clusters_size seed device verbosity device_ptrs samples centroids assignments w r :
  check_args (cudaGetDeviceCount rt) tolerance yinyang_t samples_size features_size
             clusters_size device samples centroids assignments = r ->
  r <> kmcudaSuccess ->
  kmeans_cuda rt kmpp tolerance yinyang_t samples_size features_size clusters_size
              seed device verbosity device_ptrs samples centroids assignments w
  = (Value r, w).
Proof.
  intros Hc Hr. unfold kmeans_cuda, kmeans_cuda_refine, call, bind.
  rewrite Hc. destruct r; try congruence; reflexivity.
Qed.

(** C3, as stated, fails: with device selector [0] and [clusters_size = 1]
    the shape checks of lines 19-27 answer first, and the result is
    [kmcudaInvalidArguments]. *)
Lemma device_zero_not_always_no_such_device :
  ~ (forall rt kmpp tolerance yinyang_t samples_size features_size clusters_size
            seed verbosity device_ptrs samples centroids assignments w,
        fst (kmeans_cuda rt kmpp tolerance yinyang_t samples_size features_size
                         clusters_size seed 0 verbosity device_ptrs
                         samples centroids assignments w)
        = Value kmcudaNoSuchDevice).
Proof.
  intro H.
  specialize (H two_devices false f32_0_01 f32_0 10 2 1 0 0 (-1) 1 2 3 world0).
  vm_compute in H. discriminate H.
Qed.

(** C3 (amended).  The test of the device selector against [0] comes after
    the three shape checks and before the checks of the pointers, of the
    tolerance and of the accelerated fraction: every call with device
    selector [0] whose shape arguments are valid returns
    [kmcudaNoSuchDevice] and leaves the world untouched, whatever the
    pointers, [tolerance] and [yinyang_t] are. *)
Theorem device_zero_after_shape_checks
    rt kmpp tolerance yinyang_t samples_size features_size clusters_size
    seed verbosity device_ptrs samples centroids assignments w :
  ~ shape_violation samples_size features_size clusters_size ->
  kmeans_cuda rt kmpp tolerance yinyang_t samples_size features_size clusters_size
              seed 0 verbosity device_ptrs samples centroids assignments w
  = (Value kmcudaNoSuchDevice, w).
Proof.
  intro Hshape. eapply kmeans_cuda_rejects.
  - now apply check_args_device_zero.
  - discriminate.
Qed.

Lemma device_zero_after_shape_checks_witness :
  ~ shape_violation 10 2 3
  /\ kmeans_cuda two_devices false f32_1_5 f32_2 10 2 3 0 0 0 (-1) 0 0 0 world0
     = (Value kmcudaNoSuchDevice, world0).
Proof.
  assert (Hs : ~ shape_violation 10 2 3).
  { unfold shape_violation, UINT32_MAX. lia. }
  split; [exact Hs|].
  exact (device_zero_after_shape_checks two_devices false f32_1_5 f32_2 10 2 3
           0 0 (-1) 0 0 0 world0 Hs).
Defined.

(** C7, as stated, fails: with two devices, [tolerance = 1.5] and the
    device selector [5], which is above [1 << 2], the selector is tested
    before the tolerance, and the result is [kmcudaNoSuchDevice]. *)
Lemma violation_not_always_invalid_arguments :
  ~ (forall rt kmpp tolerance yinyang_t samples_size features_size clusters_size
            seed device verbosity device_ptrs samples centroids assignments w,
        shape_violation samples_size features_size clusters_size
        \/ value_violation tolerance yinyang_t samples centroids assignments ->
        fst (kmeans_cuda rt kmpp tolerance yinyang_t samples_size features_size
                         clusters_size seed device verbosity device_ptrs
                         samples centroids assignments w)
        = Value kmcudaInvalidArguments).
Proof.
  intro H.
  specialize (H two_devices false f32_1_5 f32_0 10 2 3 0 5 0 (-1) 1 2 3 world0).
  assert (Hv : value_violation f32_1_5 f32_0 1 2 3).
  { unfold value_violation. do 4 right. left. reflexivity. }
  specialize (H (or_intror Hv)).
  vm_compute in H. discriminate H.
Qed.

(** C7 (amended).  A violated shape rule ([clusters_size < 2] or equal to the
    all-ones sentinel, [features_size = 0], [samples_size < clusters_size])
    always makes [kmeans_cuda] return [kmcudaInvalidArguments]; a null
    pointer, a tolerance that compares below [0] or above [1] or an
    accelerated fraction that compares below [0] or above [0.5] does so
    when the device selector passes its own test (non-zero and at most
    [1 << devices]).  In both cases nothing is asked of the devices: the
    world is untouched.  A NaN compares neither below nor above: it is not
    a violation, see [nan_accepted]. *)
Theorem violations_rejected
    rt kmpp tolerance yinyang_t samples_size features_size clusters_size
    seed device verbosity device_ptrs samples centroids assignments w :
  shape_violation samples_size features_size clusters_size
  \/ (selector_passes (cudaGetDeviceCount rt) device
      /\ value_violation tolerance yinyang_t samples centroids assignments) ->
  kmeans_cuda rt kmpp tolerance yinyang_t samples_size features_size clusters_size
              seed device verbosity device_ptrs samples centroids assignments w
  = (Value kmcudaInvalidArguments, w).
Proof.
  intros H. eapply kmeans_cuda_rejects; [|discriminate].
  destruct H as [H|[Hd Hv]].
  - now apply check_args_shape.
  - now apply check_args_value.
Qed.

Lemma violations_rejected_witness :
  (shape_violation 3 2 5
   \/ (selector_passes (cudaGetDeviceCount two_devices) 1
       /\ value_violation f32_0_01 f32_0 1 2 3))
  /\ (shape_violation 10 2 3
      \/ (selector_passes (cudaGetDeviceCount two_devices) 1
          /\ value_violation f32_1_5 f32_0 1 2 3))
  /\ kmeans_cuda two_devices false f32_0_01 f32_0 3 2 5 0 1 0 (-1) 1 2 3 world0
     = (Value kmcudaInvalidArguments, world0)
  /\ kmeans_cuda two_devices false f32_1_5 f32_0 10 2 3 0 1 0 (-1) 1 2 3 world0
     = (Value kmcudaInvalidArguments, world0).
Proof.
  assert (H1 : shape_violation 3 2 5
               \/ (selector_passes (cudaGetDeviceCount two_devices) 1
                   /\ value_violation f32_0_01 f32_0 1 2 3)).
  { left. unfold shape_violation. lia. }
  assert (H2 : shape_violation 10 2 3
               \/ (selector_passes (cudaGetDeviceCount two_devices) 1
                   /\ value_violation f32_1_5 f32_0 1 2 3)).
  { right. split.
    - unfold selector_passes. split; [lia|]. vm_compute. discriminate.
    - unfold value_violation. do 4 right. left. reflexivity. }
  split; [exact H1|]. split; [exact H2|]. split.
  - exact (violations_rejected two_devices false f32_0_01 f32_0 3 2 5 0 1 0 (-1)
             1 2 3 world0 H1).
  - exact (violations_rejected two_devices false f32_1_5 f32_0 10 2 3 0 1 0 (-1)
             1 2 3 world0 H2).
Defined.

(** A NaN passes the tests of lines 39 and 42: with valid arguments
    otherwise, [check_args] accepts a tolerance and an accelerated fraction
    that are not numbers. *)
Lemma nan_accepted devices samples_size features_size clusters_size device
      samples centroids assignments :
  ~ shape_violation samples_size features_size clusters_size ->
  selector_passes devices device ->
  samples <> 0 -> centroids <> 0 -> assignments <> 0 ->
  check_args devices S754_nan S754_nan samples_size features_size clusters_size
             device samples centroids assignments = kmcudaSuccess.
Proof.
  unfold shape_violation, selector_passes, check_args. intros Hs [Hd0 Hd1] H1 H2 H3.
  destruct (clusters_size <? 2) eqn:E1; [exfalso; lia|].
  destruct (clusters_size =? UINT32_MAX) eqn:E2; [exfalso; lia|].
  destruct (features_size =? 0) eqn:E3; [exfalso; lia|].
  destruct (samples_size <? clusters_size) eqn:E4; [exfalso; lia|].
  destruct (device =? 0) eqn:E5; [exfalso; lia|].
  destruct (device >? u32 (Z.shiftl 1 devices)) eqn:E6; [exfalso; lia|].
  destruct (samples =? 0) eqn:E7; [exfalso; lia|].
  destruct (centroids =? 0) eqn:E8; [exfalso; lia|].
  destruct (assignments =? 0) eqn:E9; [exfalso; lia|].
  reflexivity.
Qed.

(** ** Device resolution *)

Lemma land_1_testbit (a : Z) : (Z.land a 1 =? 1) = Z.testbit a 0.
Proof.
  change 1 with (Z.ones 1) at 1.
  rewrite Z.land_ones by lia. change (2 ^ 1) with 2.
  rewrite <- Z.bit0_mod. now destruct (Z.testbit a 0).
Qed.

(** The loop visits the bits of [device] from bit [0] up, pairing bit [k]
    with device [dev + k], and keeps the devices whose bit is set and that
    [cudaSetDevice] accepts. *)
Lemma setup_devices_loop_spec (f : Z -> bool) (fuel : nat) :
  forall dev device devs,
    0 <= dev -> 0 <= device < 2 ^ Z.of_nat fuel ->
    exists devs',
      setup_devices_loop f fuel dev device devs = Some devs'
      /\ forall d, In d devs' <->
                   In d devs
                   \/ (dev <= d /\ Z.testbit device (d - dev) = true /\ f d = true).
Proof.
  induction fuel as [|fuel IH]; intros dev device devs Hdev Hrange.
  - assert (device = 0) by (change (2 ^ Z.of_nat 0) with 1 in Hrange; lia). subst.
    exists devs. split; [reflexivity|].
    intro d. rewrite Z.bits_0. intuition discriminate.
  - cbn [setup_devices_loop].
    destruct (device =? 0) eqn:E0.
    + apply Z.eqb_eq in E0. subst. exists devs. split; [reflexivity|].
      intro d. rewrite Z.bits_0. intuition discriminate.
    + apply Z.eqb_neq in E0.
      set (devs1 := if Z.land device 1 =? 1
                    then if f dev then devs ++ [dev] else removelast (devs ++ [dev])
                    else devs).
      assert (Hdevs1 : forall d, In d devs1 <->
                  In d devs \/ (d = dev /\ Z.testbit device 0 = true /\ f d = true)).
      { intro d. subst devs1. rewrite land_1_testbit.
        destruct (Z.testbit device 0) eqn:Eb.
        - destruct (f dev) eqn:Ef.
          + rewrite in_app_iff. cbn [In]. split.
            * intros [H|[H|[]]]; [now left|]. subst. now right.
            * intros [H|[H _]]; [now left|]. right. left. now symmetry.
          + rewrite removelast_last. split; [now left|].
            intros [H|[H [_ H']]]; [exact H|]. subst. congruence.
        - split; [now left|]. intros [H|[_ [H _]]]; [exact H|discriminate]. }
      assert (Hshift : 0 <= Z.shiftr device 1 < 2 ^ Z.of_nat fuel).
      { rewrite Z.shiftr_div_pow2 by lia. change (2 ^ 1) with 2.
        rewrite Nat2Z.inj_succ, Z.pow_succ_r in Hrange by lia.
        split; [apply Z.div_pos; lia|].
        apply Z.div_lt_upper_bound; lia. }
      destruct (IH (dev + 1) (Z.shiftr device 1) devs1 ltac:(lia) Hshift)
        as [devs' [Hrun Hin]].
      exists devs'. split; [exact Hrun|].
      intro d. rewrite Hin, Hdevs1. split.
      * intros [[H|[Hd [Hb Hf]]]|[Hle [Hb Hf]]].
        -- now left.
        -- right. subst d. rewrite Z.sub_diag. repeat split; [lia|exact Hb|exact Hf].
        -- right. rewrite Z.shiftr_spec in Hb by lia.
           replace (d - (dev + 1) + 1) with (d - dev) in Hb by lia.
           repeat split; [lia|exact Hb|exact Hf].
      * intros [H|[Hle [Hb Hf]]]; [now left; left|].
        destruct (Z.eq_dec d dev) as [->|Hne].
        -- left. right. rewrite Z.sub_diag in Hb. now repeat split.
        -- right. rewrite Z.shiftr_spec by lia.
           replace (d - (dev + 1) + 1) with (d - dev) by lia.
           repeat split; [lia|exact Hb|exact Hf].
Qed.

(** [setup_devices] returns for every 32-bit selector, and keeps exactly
    the devices whose bit is set and that [cudaSetDevice] accepts. *)
Lemma setup_devices_spec (f : Z -> bool) (device : Z) :
  0 <= device < 2 ^ 32 ->
  exists devs,
    setup_devices f device = Some devs
    /\ forall d, In d devs <-> 0 <= d /\ Z.testbit device d = true /\ f d = true.
Proof.
  intro Hrange. unfold setup_devices.
  pose proof (setup_devices_loop_spec f 32 0 device []) as H.
  change (Z.of_nat 32) with 32 in H.
  destruct (H ltac:(lia) Hrange) as [devs [Hrun Hin]].
  exists devs. split; [exact Hrun|].
  intro d. rewrite Hin, Z.sub_0_r. cbn [In]. tauto.
Qed.

(** With valid arguments and no device resolved, the invocation ends
    before any buffer is planned. *)
Lemma kmeans_cuda_no_device
    rt kmpp tolerance yinyang_t samples_size features_size clusters_size
    seed device verbosity device_ptrs samples centroids assignments w :
  check_args (cudaGetDeviceCount rt) tolerance yinyang_t samples_size
             features_size clusters_size device samples centroids assignments
  = kmcudaSuccess ->
  setup_devices (cudaSetDevice rt) device = Some [] ->
  kmeans_cuda rt kmpp tolerance yinyang_t samples_size features_size
              clusters_size seed device verbosity device_ptrs
              samples centroids assignments w
  = (Value kmcudaNoSuchDevice, w).
Proof.
  intros Hc Hrun. unfold kmeans_cuda, kmeans_cuda_refine, call, bind.
  rewrite Hc. cbn [RETERR ret]. rewrite Hrun. reflexivity.
Qed.

(** C9.  For a 32-bit selector [setup_devices] returns, and the list it
    returns holds exactly the devices whose bit is set in the selector and
    that [cudaSetDevice] activates; when that list is empty, a call whose
    arguments pass [check_args] returns [kmcudaNoSuchDevice] with the world
    untouched: no buffer has been planned. *)
Theorem resolved_devices
    rt kmpp tolerance yinyang_t samples_size features_size clusters_size
    seed device verbosity device_ptrs samples centroids assignments w :
  0 <= device < 2 ^ 32 ->
  exists devs,
    setup_devices (cudaSetDevice rt) device = Some devs
    /\ (forall d, In d devs <->
                  0 <= d /\ Z.testbit device d = true /\ cudaSetDevice rt d = true)
    /\ (check_args (cudaGetDeviceCount rt) tolerance yinyang_t samples_size
                   features_size clusters_size device samples centroids assignments
        = kmcudaSuccess ->
        devs = [] ->
        kmeans_cuda rt kmpp tolerance yinyang_t samples_size features_size
                    clusters_size seed device verbosity device_ptrs
                    samples centroids assignments w
        = (Value kmcudaNoSuchDevice, w)).
Proof.
  intro Hrange.
  destruct (setup_devices_spec (cudaSetDevice rt) device Hrange) as [devs [Hrun Hin]].
  exists devs. split; [exact Hrun|]. split; [exact Hin|].
  intros Hc Hnil. subst devs. now apply kmeans_cuda_no_device.
Qed.

Lemma resolved_devices_witness :
  0 <= 3 < 2 ^ 32
  /\ check_args (cudaGetDeviceCount no_live_device) f32_0_01 f32_0 10 2 3 3 1 2 3
     = kmcudaSuccess
  /\ setup_devices (cudaSetDevice no_live_device) 3 = Some []
  /\ kmeans_cuda no_live_device false f32_0_01 f32_0 10 2 3 0 3 0 (-1) 1 2 3 world0
     = (Value kmcudaNoSuchDevice, world0)
  /\ setup_devices (cudaSetDevice first_device_only) 3 = Some [0]
  /\ exists devs,
       setup_devices (cudaSetDevice first_device_only) 3 = Some devs
       /\ (forall d, In d devs <->
                     0 <= d /\ Z.testbit 3 d = true
                     /\ cudaSetDevice first_device_only d = true)
       /\ (check_args (cudaGetDeviceCount first_device_only) f32_0_01 f32_0 10 2 3 3
                      1 2 3
           = kmcudaSuccess ->
           devs = [] ->
           kmeans_cuda first_device_only false f32_0_01 f32_0 10 2 3 0 3 0 (-1) 1 2 3
                       world0
           = (Value kmcudaNoSuchDevice, world0)).
Proof.
  assert (H : 0 <= 3 < 2 ^ 32) by (split; [discriminate|reflexivity]).
  assert (Hc : check_args (cudaGetDeviceCount no_live_device) f32_0_01 f32_0 10 2 3 3
                          1 2 3
               = kmcudaSuccess) by reflexivity.
  assert (Hs : setup_devices (cudaSetDevice no_live_device) 3 = Some [])
    by (vm_compute; reflexivity).
  assert (Hk : setup_devices (cudaSetDevice first_device_only) 3 = Some [0])
    by (vm_compute; reflexivity).
  split; [exact H|]. split; [exact Hc|]. split; [exact Hs|]. split; [|split].
  - destruct (resolved_devices no_live_device false f32_0_01 f32_0 10 2 3 0 3 0 (-1)
                1 2 3 world0 H) as [devs [Hrun [_ Hnone]]].
    apply Hnone; [exact Hc|]. rewrite Hs in Hrun. now inversion Hrun.
  - exact Hk.
  - exact (resolved_devices first_device_only false f32_0_01 f32_0 10 2 3 0 3 0 (-1)
             1 2 3 world0 H).
Defined.

(** ** The K-means++ index search *)

(** C1, at the failing input: 200 samples whose only non-zero distance is
    that of sample 50, and a draw of about 3/4.  The smallest index whose
    prefix sum reaches [T] is 50, and the reference scan of lines 124-129
    stops there ([j = 51]); the search policy starts at [choice_approx =
    149], takes the backward branch, and ends with [j = 50]: it selects
    sample 49. *)
Theorem backward_search_misses_index :
  length front_loaded = 200%nat
  /\ Forall (fun d => (0 <= d)%Q) front_loaded
  /\ (total front_loaded == 100)%Q
  /\ (0 <= three_quarters < 1)%Q
  /\ float_to_u32 (three_quarters * inject_Z 200)%Q = 149
  /\ spec_smallest_index front_loaded (three_quarters * 100)%Q 0 0%Q = Some 50
  /\ option_map (fun r => (naive_j r, final_j r))
                (kmpp_search 200 front_loaded 100%Q three_quarters)
     = Some (51, 50)
  /\ kmpp_pick 200 front_loaded 100%Q three_quarters = Some (Picked 49).
Proof.
  split; [reflexivity|]. split.
  { unfold front_loaded. rewrite !Forall_app. repeat split.
    - apply Forall_forall. intros d Hd. apply repeat_spec in Hd. subst. discriminate.
    - repeat constructor. discriminate.
    - apply Forall_forall. intros d Hd. apply repeat_spec in Hd. subst. discriminate. }
  split; [vm_compute; reflexivity|].
  split; [split; vm_compute; [discriminate|reflexivity]|].
  repeat split; vm_compute; reflexivity.
Qed.

(** C4, at the failing input: four samples at distance 0, [dist_sum = 0].
    [choice_sum] is 0, the scan of lines 132-134 does not take a single
    step, [j] stays 0 and [assert(j > 0)] fails: no row is copied.  With
    200 such samples and [choice_approx = 149] the backward branch ends
    with [j = 2] and row 1 is selected, not row 0. *)
Theorem zero_total_distance_step :
  kmpp_pick 4 [0; 0; 0; 0]%Q 0%Q three_quarters = Some AssertionFailure
  /\ kmpp_pick 200 (repeat 0%Q 200) 0%Q three_quarters = Some (Picked 1).
Proof. split; vm_compute; reflexivity. Qed.

(** C5, at the failing inputs.  With [rand() = 0] the target is 0 although
    [dist_sum = 6 > 0]: [j] stays 0 and [assert(j > 0)] fails.  With
    [rand() = RAND_MAX] and 200 samples at distance 1, [choice_approx] is
    200 and the backward branch reads [host_dists[200]], one past the end
    of the array. *)
Theorem search_leaves_array_or_asserts :
  kmpp_pick 3 [1; 2; 3]%Q 6%Q (choice_of_rand 2147483647 0) = Some AssertionFailure
  /\ option_map (fun r => existsb (Z.eqb 200) (reads r))
                (kmpp_search 200 (repeat 1%Q 200) 200%Q
                             (choice_of_rand 2147483647 2147483647))
     = Some true.
Proof. split; vm_compute; reflexivity. Qed.

(** ** A Hoare logic for the invocation monad *)

Lemma hoare_ret {A} (P : event -> Prop) (Q : A -> Prop) (a : A) :
  Q a -> hoare P (ret a) Q.
Proof.
  intros HQ w. exists []. cbn. rewrite app_nil_r.
  repeat split; [constructor|]. intros a' H. now inversion H; subst.
Qed.

Lemma hoare_return_ {A} (P : event -> Prop) (Q : A -> Prop) r : hoare P (return_ r) Q.
Proof.
  intros w. exists []. cbn. rewrite app_nil_r.
  repeat split; [constructor|]. discriminate.
Qed.

Lemma hoare_out_of_fuel {A} (P : event -> Prop) (Q : A -> Prop) : hoare P out_of_fuel Q.
Proof.
  intros w. exists []. cbn. rewrite app_nil_r.
  repeat split; [constructor|]. discriminate.
Qed.

Lemma hoare_assert (P : event -> Prop) b : hoare P (assert b) (fun _ => b = true).
Proof.
  intros w. exists []. unfold assert. destruct b; cbn; rewrite app_nil_r;
    repeat split; try constructor; discriminate.
Qed.

Lemma hoare_emit (P : event -> Prop) e : P e -> emits P (emit e).
Proof.
  intros He w. exists [e]. cbn. repeat split. now constructor.
Qed.

Lemma hoare_srand (P : event -> Prop) seed : emits P (srand seed).
Proof.
  intros w. exists []. cbn. rewrite app_nil_r. repeat split. constructor.
Qed.

Lemma hoare_do_rand rt (P : event -> Prop) : emits P (do_rand rt).
Proof.
  intros w. exists []. cbn. rewrite app_nil_r. repeat split. constructor.
Qed.

Lemma hoare_cuda_malloc rt (P : event -> Prop) tag dev size :
  (forall r, P (Malloc tag dev size r)) -> emits P (cuda_malloc rt tag dev size).
Proof.
  intros He w. eexists [_]. cbn. repeat split. constructor; [apply He|constructor].
Qed.

Lemma hoare_cuda_memcpy rt (P : event -> Prop) request :
  (forall ok, P (request ok)) -> emits P (cuda_memcpy rt request).
Proof.
  intros He w. eexists [_]. cbn. repeat split. constructor; [apply He|constructor].
Qed.

Lemma hoare_conseq {A} (P : event -> Prop) (m : M A) (Q Q' : A -> Prop) :
  hoare P m Q -> (forall a, Q a -> Q' a) -> hoare P m Q'.
Proof.
  intros Hm HQ w. destruct (Hm w) as [evs [Ht [Hev Hpost]]].
  exists evs. repeat split; auto.
Qed.

Lemma hoare_bind {A B} (P : event -> Prop) (m : M A) (k : A -> M B)
      (Q : A -> Prop) (R : B -> Prop) :
  hoare P m Q -> (forall a, Q a -> hoare P (k a) R) -> hoare P (bind m k) R.
Proof.
  intros Hm Hk w. unfold bind.
  destruct (Hm w) as [evs1 [Ht1 [Hev1 Hpost1]]].
  destruct (m w) as [o w1] eqn:E. cbn in Ht1, Hpost1.
  destruct o as [a|r| |].
  - destruct (Hk a (Hpost1 a eq_refl) w1) as [evs2 [Ht2 [Hev2 Hpost2]]].
    exists (evs1 ++ evs2). rewrite Ht2, Ht1, app_assoc.
    repeat split; [now apply Forall_app|exact Hpost2].
  - exists evs1. cbn. repeat split; [exact Ht1|exact Hev1|discriminate].
  - exists evs1. cbn. repeat split; [exact Ht1|exact Hev1|discriminate].
  - exists evs1. cbn. repeat split; [exact Ht1|exact Hev1|discriminate].
Qed.

Lemma hoare_call (P : event -> Prop) (m : M KMCUDAResult) :
  emits P m -> emits P (call m).
Proof.
  intros Hm w. unfold call.
  destruct (Hm w) as [evs [Ht [Hev _]]].
  exists evs. destruct (m w) as [[a|r| |] w1]; cbn in *; repeat split; auto.
Qed.

Lemma hoare_FOR_ALL_DEVS {S} (P : event -> Prop) (I : S -> Prop)
      (body : Z -> S -> M S) (devs : list Z) :
  (forall dev s, I s -> hoare P (body dev s) I) ->
  forall s, I s -> hoare P (FOR_ALL_DEVS devs body s) I.
Proof.
  intros Hbody. induction devs as [|dev rest IH]; intros s Hs; cbn [FOR_ALL_DEVS].
  - now apply hoare_ret.
  - eapply hoare_bind; [now apply Hbody|]. intros s' Hs'. now apply IH.
Qed.

Lemma hoare_FOR_ALL_DEVSI (P : event -> Prop) (body : nat -> Z -> M unit) (devs : list Z) :
  (forall devi dev, emits P (body devi dev)) ->
  forall devi, emits P (FOR_ALL_DEVSI devi devs body).
Proof.
  intros Hbody. induction devs as [|dev rest IH]; intros devi; cbn [FOR_ALL_DEVSI].
  - now apply hoare_ret.
  - eapply hoare_bind; [apply Hbody|]. intros _ _. apply IH.
Qed.

Lemma hoare_for_range (P : event -> Prop) (body : Z -> M unit) (rounds : nat) :
  (forall c, emits P (body c)) ->
  forall c, emits P (for_range rounds c body).
Proof.
  intros Hbody. induction rounds as [|rounds IH]; intros c; cbn [for_range].
  - now apply hoare_ret.
  - eapply hoare_bind; [apply Hbody|]. intros _ _. apply IH.
Qed.

(** One step of the proof that a computation only emits events of a given
    kind: the rule of the head construct, or a case analysis. *)
Ltac emits_step :=
  match goal with
  | |- emits _ _ => unfold emits
  | |- hoare _ (ret _) _ => apply hoare_ret; exact I
  | |- hoare _ (return_ _) _ => apply hoare_return_
  | |- hoare _ out_of_fuel _ => apply hoare_out_of_fuel
  | |- hoare _ (assert _) _ =>
      eapply hoare_conseq; [apply hoare_assert|intros; exact I]
  | |- hoare _ (emit _) _ => apply hoare_emit
  | |- hoare _ (srand _) _ => apply hoare_srand
  | |- hoare _ (do_rand _) _ => apply hoare_do_rand
  | |- hoare _ (cuda_malloc _ _ _ _) _ => apply hoare_cuda_malloc; intros
  | |- hoare _ (cuda_memcpy _ _) _ => apply hoare_cuda_memcpy; intros
  | |- hoare _ (call _) _ => apply hoare_call
  | |- hoare _ (bind _ _) _ =>
      eapply hoare_bind with (Q := fun _ => True); [|intros ? _]
  | |- hoare _ (FOR_ALL_DEVS _ _ _) _ =>
      apply hoare_FOR_ALL_DEVS with (I := fun _ => True); [intros ? ? _|exact I]
  | |- hoare _ (FOR_ALL_DEVSI _ _ _) _ => apply hoare_FOR_ALL_DEVSI; intros
  | |- hoare _ (for_range _ _ _) _ => apply hoare_for_range; intros
  | |- hoare _ (if ?b then _ else _) _ => destruct b
  | |- hoare _ (match ?x with _ => _ end) _ => destruct x
  | |- hoare _ (RETERR _) _ => unfold RETERR
  | |- hoare _ (CUCH _ _) _ => unfold CUCH
  | |- hoare _ (CUMALLOC_ONE _ _ _ _ _) _ => unfold CUMALLOC_ONE
  | |- hoare _ (CUMALLOC _ _ _ _ _) _ => unfold CUMALLOC
  | |- hoare _ (CUMEMCPY_H2D_ASYNC _ _ _ _ _ _) _ => unfold CUMEMCPY_H2D_ASYNC
  | |- hoare _ (CUMEMCPY_D2D _ _ _ _ _) _ => unfold CUMEMCPY_D2D
  | |- hoare _ (print_memory_stats _) _ => unfold print_memory_stats
  | |- hoare _ (kmeans_init_centroids _ _ _ _ _ _ _ _) _ =>
      unfold kmeans_init_centroids
  | |- hoare _ (plan_samples _ _ _ _ _ _) _ => unfold plan_samples
  | |- hoare _ (plan_centroids _ _ _ _ _) _ => unfold plan_centroids
  | |- hoare _ (plan_assignments _ _ _ _ _) _ => unfold plan_assignments
  | |- hoare _ (plan_yinyang _ _ _ _ _ _ _) _ => unfold plan_yinyang
  | |- hoare _ (copy_result _ _ _ _ _ _ _ _ _ _) _ => unfold copy_result
  end.

Ltac emits_auto :=
  repeat emits_step;
  try lazymatch goal with
      | |- hoare _ _ _ => fail
      | |- _ => cbn; try reflexivity; exact I
      end.

(** ** The copy-out of the results *)

(** Nothing is copied out before the call of [kmeans_cuda_yy] returns. *)
Lemma kmeans_cuda_refine_no_copy_out
    rt kmpp tolerance yinyang_t samples_size features_size clusters_size
    seed device verbosity device_ptrs samples centroids assignments :
  emits (fun e => is_copy_out e = false)
        (kmeans_cuda_refine rt kmpp tolerance yinyang_t samples_size features_size
                            clusters_size seed device verbosity device_ptrs
                            samples centroids assignments).
Proof.
  unfold kmeans_cuda_refine. emits_auto.
Qed.

Lemma CUMALLOC_ONE_spec rt (P : event -> Prop) tag dest dev size :
  (forall r, P (Malloc tag dev size r)) ->
  hoare P (CUMALLOC_ONE rt tag dest dev size)
        (fun dest' => exists p, dest' = dest ++ [mkDevptr p false]).
Proof.
  intro HP. unfold CUMALLOC_ONE.
  eapply hoare_bind; [now apply hoare_cuda_malloc|].
  intros [p|] _; [|apply hoare_return_].
  apply hoare_ret. now exists p.
Qed.

(** The loop of lines 192-199, from any intermediate state: one buffer is
    appended per device, aliased on the hinted device and owned elsewhere,
    and [must_copy_result] is cleared when the hinted device is met. *)
Lemma plan_centroids_loop rt (P : event -> Prop) centroids_size device_ptrs centroids :
  (forall dev r, P (Malloc Centroids dev centroids_size r)) ->
  forall devs acc must,
    hoare P
      (FOR_ALL_DEVS devs
         (fun dev '(device_centroids, must_copy_result) =>
            if dev =? device_ptrs then
              ret (device_centroids ++ [mkDevptr centroids true], false)
            else
              bind (CUMALLOC_ONE rt Centroids device_centroids dev centroids_size)
                   (fun device_centroids' => ret (device_centroids', must_copy_result)))
         (acc, must))
      (fun '(device_centroids, must_copy_result) =>
         (exists added, device_centroids = acc ++ added
                        /\ Forall2 (alias_or_owned device_ptrs centroids) devs added)
         /\ must_copy_result = must && negb (hinted device_ptrs devs)).
Proof.
  intro HP. induction devs as [|dev rest IH]; intros acc must; cbn [FOR_ALL_DEVS].
  - apply hoare_ret. split.
    + exists []. now rewrite app_nil_r.
    + cbn. now rewrite andb_true_r.
  - eapply hoare_bind with
      (Q := fun s => exists p, s = (acc ++ [p], must && negb (dev =? device_ptrs))
                               /\ alias_or_owned device_ptrs centroids dev p).
    + destruct (dev =? device_ptrs) eqn:E.
      * apply hoare_ret. eexists. split.
        -- cbn. now rewrite andb_false_r.
        -- unfold alias_or_owned. now rewrite E.
      * eapply hoare_bind; [now apply CUMALLOC_ONE_spec|].
        intros dc [p ->]. apply hoare_ret. exists (mkDevptr p false). split.
        -- cbn. now rewrite andb_true_r.
        -- unfold alias_or_owned. now rewrite E.
    + intros s [p [-> Hp]].
      eapply hoare_conseq; [apply IH|].
      intros [dc m] [[added [-> Hadded]] ->]. split.
      * exists (p :: added). rewrite <- app_assoc. split; [reflexivity|].
        now constructor.
      * cbn [hinted existsb]. fold (hinted device_ptrs rest).
        rewrite negb_orb. now rewrite andb_assoc.
Qed.

Lemma plan_centroids_spec rt (P : event -> Prop) centroids_size device_ptrs centroids devs :
  (forall dev r, P (Malloc Centroids dev centroids_size r)) ->
  hoare P (plan_centroids rt centroids_size device_ptrs centroids devs)
        (fun '(device_centroids, must_copy_result) =>
           Forall2 (alias_or_owned device_ptrs centroids) devs device_centroids
           /\ must_copy_result = negb (hinted device_ptrs devs)).
Proof.
  intro HP. unfold plan_centroids.
  eapply hoare_conseq; [now apply plan_centroids_loop|].
  intros [dc m] [[added [-> Hadded]] ->]. now split.
Qed.

(** The loop of lines 201-207, from any intermediate state. *)
Lemma plan_assignments_loop rt (P : event -> Prop) samples_size device_ptrs assignments :
  (forall dev r, P (Malloc Assignments dev samples_size r)) ->
  forall devs acc,
    hoare P
      (FOR_ALL_DEVS devs
         (fun dev device_assignments =>
            if dev =? device_ptrs then
              ret (device_assignments ++ [mkDevptr assignments true])
            else
              CUMALLOC_ONE rt Assignments device_assignments dev samples_size)
         acc)
      (fun device_assignments =>
         exists added, device_assignments = acc ++ added
                       /\ Forall2 (alias_or_owned device_ptrs assignments) devs added).
Proof.
  intro HP. induction devs as [|dev rest IH]; intros acc; cbn [FOR_ALL_DEVS].
  - apply hoare_ret. exists []. now rewrite app_nil_r.
  - eapply hoare_bind with
      (Q := fun s => exists p, s = acc ++ [p]
                               /\ alias_or_owned device_ptrs assignments dev p).
    + destruct (dev =? device_ptrs) eqn:E.
      * apply hoare_ret. eexists. split; [reflexivity|].
        unfold alias_or_owned. now rewrite E.
      * eapply hoare_conseq; [now apply CUMALLOC_ONE_spec|].
        intros dc [p ->]. exists (mkDevptr p false). split; [reflexivity|].
        unfold alias_or_owned. now rewrite E.
    + intros s [p [-> Hp]].
      eapply hoare_conseq; [apply IH|].
      intros da [added [-> Hadded]].
      exists (p :: added). rewrite <- app_assoc. split; [reflexivity|].
      now constructor.
Qed.

Lemma plan_assignments_spec rt (P : event -> Prop) samples_size device_ptrs assignments devs :
  (forall dev r, P (Malloc Assignments dev samples_size r)) ->
  hoare P (plan_assignments rt samples_size device_ptrs assignments devs)
        (fun device_assignments =>
           Forall2 (alias_or_owned device_ptrs assignments) devs device_assignments).
Proof.
  intro HP. unfold plan_assignments.
  eapply hoare_conseq; [now apply plan_assignments_loop|].
  intros da [added [-> Hadded]]. exact Hadded.
Qed.

(** What holds of the local variables when [kmeans_cuda_yy] has returned
    successfully. *)
Lemma kmeans_cuda_refine_spec
    rt kmpp tolerance yinyang_t samples_size features_size clusters_size
    seed device verbosity device_ptrs samples centroids assignments :
  hoare (fun e => is_copy_out e = false)
        (kmeans_cuda_refine rt kmpp tolerance yinyang_t samples_size features_size
                            clusters_size seed device verbosity device_ptrs
                            samples centroids assignments)
        (fun st =>
           setup_devices (cudaSetDevice rt) device = Some (devs_of st)
           /\ devs_of st <> []
           /\ centroids_size_of st = usize (clusters_size * features_size)
           /\ must_copy_result_of st = negb (hinted device_ptrs (devs_of st))
           /\ Forall2 (alias_or_owned device_ptrs centroids)
                      (devs_of st) (device_centroids_of st)
           /\ Forall2 (alias_or_owned device_ptrs assignments)
                      (devs_of st) (device_assignments_of st)).
Proof.
  unfold kmeans_cuda_refine.
  eapply hoare_bind with (Q := fun _ => True); [emits_auto|intros _ _].
  eapply hoare_bind with
    (Q := fun devs => setup_devices (cudaSetDevice rt) device = Some devs).
  { destruct (setup_devices (cudaSetDevice rt) device);
      [now apply hoare_ret|apply hoare_out_of_fuel]. }
  intros devs Hdevs.
  destruct devs as [|d0 rest]; [apply hoare_return_|].
  eapply hoare_bind with (Q := fun _ => True); [emits_auto|intros device_samples _].
  cbv zeta.
  eapply hoare_bind; [apply plan_centroids_spec; intros; reflexivity|].
  intros [device_centroids must_copy_result] [Hdc Hmust].
  eapply hoare_bind; [apply plan_assignments_spec; intros; reflexivity|].
  intros device_assignments Hda.
  repeat (eapply hoare_bind with (Q := fun _ => True); [emits_auto|intros ? _]).
  apply hoare_ret.
  cbn [devs_of centroids_size_of must_copy_result_of device_centroids_of
       device_assignments_of].
  repeat split; auto. discriminate.
Qed.

Lemma usize_small (z : Z) : 0 <= z < 2 ^ 64 -> usize z = z.
Proof. intro H. unfold usize. now apply Z.mod_small. Qed.

(** C8.  Assume the pipeline has come back from [kmeans_cuda_yy] with
    success, in world [w1] and with local variables [st].  Nothing has been
    copied out so far.  The buffers of centroids and of assignments are
    aliased to the caller's pointers on the device the location hint names
    and owned on every other device.  If the hinted device participates,
    [kmeans_cuda] returns [kmcudaSuccess] without any further request.
    Otherwise it requests the transfer of [clusters_size * features_size]
    floats from the centroid buffer of the primary device to [centroids]
    and then of [samples_size] indices from its assignment buffer to
    [assignments] (copies to the host, or peer copies to the hinted device);
    the first transfer that fails ends the invocation with
    [kmcudaMemoryCopyError], and [kmcudaSuccess] is returned when both
    succeed. *)
Theorem copy_out_after_refinement
    rt kmpp tolerance yinyang_t samples_size features_size clusters_size
    seed device verbosity device_ptrs samples centroids assignments w st w1 :
  0 <= samples_size < 2 ^ 32 ->
  0 <= features_size < 2 ^ 16 ->
  0 <= clusters_size < 2 ^ 32 ->
  kmeans_cuda_refine rt kmpp tolerance yinyang_t samples_size features_size
                     clusters_size seed device verbosity device_ptrs
                     samples centroids assignments w
  = (Value st, w1) ->
  let run := kmeans_cuda rt kmpp tolerance yinyang_t samples_size features_size
                         clusters_size seed device verbosity device_ptrs
                         samples centroids assignments w in
  let primary := nth 0 (devs_of st) 0 in
  let src_centroids := get (nth 0 (device_centroids_of st) null_devptr) in
  let src_assignments := get (nth 0 (device_assignments_of st) null_devptr) in
  let ok1 := cudaMemcpy rt (memcpys w1) in
  let ok2 := cudaMemcpy rt (S (memcpys w1)) in
  (exists evs, trace w1 = trace w ++ evs /\ Forall (fun e => is_copy_out e = false) evs)
  /\ Forall2 (alias_or_owned device_ptrs centroids) (devs_of st) (device_centroids_of st)
  /\ Forall2 (alias_or_owned device_ptrs assignments)
             (devs_of st) (device_assignments_of st)
  /\ (hinted device_ptrs (devs_of st) = true -> run = (Value kmcudaSuccess, w1))
  /\ (hinted device_ptrs (devs_of st) = false ->
      fst run = Value (if ok1 && ok2 then kmcudaSuccess else kmcudaMemoryCopyError)
      /\ trace (snd run)
         = trace w1
           ++ copy_out device_ptrs centroids src_centroids primary
                       (clusters_size * features_size * sizeof_float) ok1
           :: (if ok1
               then [copy_out device_ptrs assignments src_assignments primary
                              (samples_size * sizeof_uint32_t) ok2]
               else [])).
Proof.
  intros Hss Hfs Hcs Hrun run primary src_centroids src_assignments ok1 ok2.
  destruct (kmeans_cuda_refine_spec rt kmpp tolerance yinyang_t samples_size
              features_size clusters_size seed device verbosity device_ptrs
              samples centroids assignments w) as [evs [Ht [Hev Hpost]]].
  rewrite Hrun in Ht, Hpost. cbn [fst snd] in Ht, Hpost.
  destruct (Hpost st eq_refl) as [_ [_ [Hsize [Hmust [Hdc Hda]]]]].
  assert (Hbytes1 : usize (centroids_size_of st * sizeof_float)
                    = clusters_size * features_size * sizeof_float).
  { rewrite Hsize. unfold sizeof_float.
    assert (0 <= clusters_size * features_size < 2 ^ 48) by nia.
    rewrite (usize_small (clusters_size * features_size)) by lia.
    apply usize_small. lia. }
  assert (Hbytes2 : usize (samples_size * sizeof_uint32_t)
                    = samples_size * sizeof_uint32_t).
  { unfold sizeof_uint32_t. apply usize_small. lia. }
  split; [now exists evs|]. split; [exact Hdc|]. split; [exact Hda|].
  subst run. unfold kmeans_cuda, call, bind. rewrite Hrun.
  unfold copy_result. rewrite Hmust, Hbytes1, Hbytes2.
  fold primary src_centroids src_assignments.
  split; intros Hh; rewrite Hh; cbn [negb].
  - reflexivity.
  - subst ok1 ok2.
    unfold copy_out, cuda_memcpy, bind, CUCH, ret, return_.
    destruct (device_ptrs <? 0);
      destruct (cudaMemcpy rt (memcpys w1)); cbn;
      destruct (cudaMemcpy rt (S (memcpys w1))); cbn;
      rewrite <- ?app_assoc; split; reflexivity.
Qed.

Lemma copy_out_after_refinement_witness :
  0 <= 6 < 2 ^ 32
  /\ 0 <= 2 < 2 ^ 16
  /\ 0 <= 3 < 2 ^ 32
  /\ kmeans_cuda_refine two_devices true f32_0_01 f32_0_1 6 2 3 42 3 0 (-1)
                        111 222 333 world0
     = (Value host_run_state, snd host_run)
  /\ let run := kmeans_cuda two_devices true f32_0_01 f32_0_1 6 2 3 42 3 0 (-1)
                            111 222 333 world0 in
     let primary := nth 0 (devs_of host_run_state) 0 in
     let src_centroids := get (nth 0 (device_centroids_of host_run_state) null_devptr) in
     let src_assignments :=
       get (nth 0 (device_assignments_of host_run_state) null_devptr) in
     let ok1 := cudaMemcpy two_devices (memcpys (snd host_run)) in
     let ok2 := cudaMemcpy two_devices (S (memcpys (snd host_run))) in
     (exists evs, trace (snd host_run) = trace world0 ++ evs
                  /\ Forall (fun e => is_copy_out e = false) evs)
     /\ Forall2 (alias_or_owned (-1) 222) (devs_of host_run_state)
                (device_centroids_of host_run_state)
     /\ Forall2 (alias_or_owned (-1) 333) (devs_of host_run_state)
                (device_assignments_of host_run_state)
     /\ (hinted (-1) (devs_of host_run_state) = true ->
         run = (Value kmcudaSuccess, snd host_run))
     /\ (hinted (-1) (devs_of host_run_state) = false ->
         fst run = Value (if ok1 && ok2 then kmcudaSuccess else kmcudaMemoryCopyError)
         /\ trace (snd run)
            = trace (snd host_run)
              ++ copy_out (-1) 222 src_centroids primary (3 * 2 * sizeof_float) ok1
              :: (if ok1
                  then [copy_out (-1) 333 src_assignments primary
                                 (6 * sizeof_uint32_t) ok2]
                  else [])).
Proof.
  assert (H1 : 0 <= 6 < 2 ^ 32) by (split; [discriminate|reflexivity]).
  assert (H2 : 0 <= 2 < 2 ^ 16) by (split; [discriminate|reflexivity]).
  assert (H3 : 0 <= 3 < 2 ^ 32) by (split; [discriminate|reflexivity]).
  assert (H4 : kmeans_cuda_refine two_devices true f32_0_01 f32_0_1 6 2 3 42 3 0 (-1)
                                  111 222 333 world0
               = (Value host_run_state, snd host_run))
    by (vm_compute; reflexivity).
  split; [exact H1|]. split; [exact H2|]. split; [exact H3|]. split; [exact H4|].
  exact (copy_out_after_refinement two_devices true f32_0_01 f32_0_1 6 2 3 42 3 0
           (-1) 111 222 333 world0 host_run_state (snd host_run) H1 H2 H3 H4).
Defined.

(** ** The accelerated variant *)

Lemma u32_nonneg (z : Z) : 0 <= u32 z.
Proof. unfold u32. apply Z.mod_pos_bound. reflexivity. Qed.



(** Line 213 rounds in single precision: [0.04f * 25] and [0.01f * 100] are
    [1.0f], one group, although the exact products of these [float]s and
    integers are below 1. *)
Example yinyang_groups_rounding :
  yinyang_groups_of f32_0_04 25 = 1 /\ yinyang_groups_of f32_0_01 100 = 1
  /\ yinyang_groups_of f32_0_1 3 = 0 /\ yinyang_groups_of f32_0_5 262144 = 131072.
Proof. repeat split; vm_compute; reflexivity. Qed.


(** When neither the product nor the sum of line 224 wraps around, the
    test is the one on the exact numbers. *)
Lemma reuse_passed_yy_exact (yinyang_groups samples_size features_size clusters_size : Z) :
  0 <= yinyang_groups -> 0 <= features_size -> 0 <= clusters_size ->
  yinyang_groups * features_size < 2 ^ 32 ->
  clusters_size + yinyang_groups < 2 ^ 32 ->
  reuse_passed_yy yinyang_groups samples_size features_size clusters_size
  = (yinyang_groups * features_size + clusters_size + yinyang_groups <=? samples_size).
Proof.
  intros Hyg Hfs Hcs Hprod Hsum. unfold reuse_passed_yy, u32.
  assert (0 <= yinyang_groups * features_size) by nia.
  rewrite (Z.mod_small (yinyang_groups * features_size)) by lia.
  rewrite (Z.mod_small (clusters_size + yinyang_groups)) by lia.
  rewrite usize_small by lia.
  now rewrite Z.add_assoc.
Qed.

(** X15.  Whenever the exact sum fits in [samples_size], nothing wraps around
    and the test of line 224 succeeds. *)
Lemma reuse_passed_yy_when_fits (yinyang_groups samples_size features_size clusters_size : Z) :
  0 <= yinyang_groups -> 0 <= features_size -> 0 <= clusters_size ->
  samples_size < 2 ^ 32 ->
  yinyang_groups * features_size + clusters_size + yinyang_groups <= samples_size ->
  reuse_passed_yy yinyang_groups samples_size features_size clusters_size = true.
Proof.
  intros Hyg Hfs Hcs Hss Hfit.
  assert (0 <= yinyang_groups * features_size) by nia.
  rewrite reuse_passed_yy_exact by lia.
  now apply Z.leb_le.
Qed.

Lemma reuse_passed_yy_when_fits_witness :
  0 <= 1 /\ 0 <= 2 /\ 0 <= 3 /\ 10 < 2 ^ 32 /\ 1 * 2 + 3 + 1 <= 10
  /\ reuse_passed_yy 1 10 2 3 = true.
Proof.
  assert (H1 : 0 <= 1) by discriminate.
  assert (H2 : 0 <= 2) by discriminate.
  assert (H3 : 0 <= 3) by discriminate.
  assert (H4 : 10 < 2 ^ 32) by reflexivity.
  assert (H5 : 1 * 2 + 3 + 1 <= 10) by discriminate.
  repeat (split; [assumption|]).
  exact (reuse_passed_yy_when_fits 1 10 2 3 H1 H2 H3 H4 H5).
Defined.

(** When the test of line 224 holds, no buffer is requested for the group
    centroids, and [device_centroids_yy] holds one alias per passed-flags
    buffer. *)
Lemma plan_yinyang_reuse rt yinyang_groups samples_size features_size clusters_size
      centroids_size devs :
  reuse_passed_yy yinyang_groups samples_size features_size clusters_size = true ->
  hoare (fun e => is_malloc_of is_centroids_yy e = false)
        (plan_yinyang rt yinyang_groups samples_size features_size clusters_size
                      centroids_size devs)
        (fun yy => device_centroids_yy yy = map alias_of (device_passed_yy yy)).
Proof.
  intro Hreuse. unfold plan_yinyang. rewrite Hreuse.
  destruct (yinyang_groups >=? 1); [|now apply hoare_ret].
  repeat (eapply hoare_bind with (Q := fun _ => True); [emits_auto|intros ? _]).
  now apply hoare_ret.
Qed.

(** C2, at the failing input: [samples_size = 393216], [features_size =
    32768], [clusters_size = 262144], [yinyang_t = 1/2], arguments that
    [check_args] accepts.  [yinyang_groups] is [131072]; the exact sum
    [yinyang_groups * features_size + clusters_size + yinyang_groups]
    exceeds [samples_size], but the 32-bit product of line 223 wraps to 0,
    the test of line 224 succeeds, no buffer is requested for the group
    centroids and [device_centroids_yy] aliases the passed-flags buffer. *)
Theorem group_centroids_aliased_on_wrap :
  check_args 2 f32_0_01 f32_0_5 393216 32768 262144 1 111 222 333 = kmcudaSuccess
  /\ yinyang_groups_of f32_0_5 262144 = 131072
  /\ ~ (131072 * 32768 + 262144 + 131072 <= 393216)
  /\ reuse_passed_yy 131072 393216 32768 262144 = true
  /\ match plan_yinyang two_devices 131072 393216 32768 262144
                        (usize (262144 * 32768)) [0] world0 with
     | (Value yy, w) =>
         device_centroids_yy yy = map alias_of (device_passed_yy yy)
         /\ length (device_passed_yy yy) = 1%nat
         /\ existsb (is_malloc_of is_centroids_yy) (trace w) = false
     | _ => False
     end.
Proof.
  split; [vm_compute; reflexivity|].
  split; [vm_compute; reflexivity|].
  split; [intro H; vm_compute in H; now apply H|].
  split; [vm_compute; reflexivity|].
  vm_compute. repeat split.
Qed.

(** C6, at the failing input: devices 0 and 1 participate and the samples
    are on device 0.  [device_samples] holds a single entry, the caller's
    pointer, and nothing is requested for device 1: the whole invocation
    runs to [kmcudaSuccess] without one allocation for the samples, while
    the centroids get an owned buffer on device 1. *)
Theorem samples_single_alias_on_hint :
  setup_devices (cudaSetDevice two_devices) 3 = Some [0; 1]
  /\ plan_samples two_devices 10 2 0 111 [0; 1] world0
     = (Value [mkDevptr 111 true], world0)
  /\ fst (kmeans_cuda two_devices false f32_0_01 f32_0 10 2 3 42 3 0 0 111 222 333 world0)
     = Value kmcudaSuccess
  /\ filter (is_malloc_of is_samples)
            (trace (snd (kmeans_cuda two_devices false f32_0_01 f32_0 10 2 3 42 3 0 0
                                     111 222 333 world0)))
     = []
  /\ filter (is_malloc_of (fun b => match b with Centroids => true | _ => false end))
            (trace (snd (kmeans_cuda two_devices false f32_0_01 f32_0 10 2 3 42 3 0 0
                                     111 222 333 world0)))
     = [Malloc Centroids 1 6 (Some 4096)].
Proof. repeat split; vm_compute; reflexivity. Qed.

(** Whatever the devices, a non-negative location hint yields the single
    aliased entry. *)
Lemma plan_samples_on_hint rt samples_size features_size device_ptrs samples devs w :
  0 <= device_ptrs ->
  plan_samples rt samples_size features_size device_ptrs samples devs w
  = (Value [mkDevptr samples true], w).
Proof.
  intro H. unfold plan_samples.
  destruct (device_ptrs <? 0) eqn:E; [apply Z.ltb_lt in E; lia|reflexivity].
Qed.

(** ** What the search does on every input *)

Section ScanFacts.

Variable samples_size : Z.
Variable host_dists : list Q.
Variable choice_sum : Q.

(** The forward scan returns when its fuel covers the rest of the array.
    It never moves [j] back nor past [samples_size], it only reads at
    indices between its start and [samples_size], and it takes at least one
    step when its condition holds at the start. *)
Lemma scan_forward_runs (fuel : nat) :
  forall j s,
    samples_size - j <= Z.of_nat fuel ->
    exists r,
      scan_forward samples_size host_dists choice_sum fuel j s = Some r
      /\ j <= scan_j r
      /\ (j <= samples_size -> scan_j r <= samples_size)
      /\ Forall (fun t => j <= t < samples_size) (scan_reads r)
      /\ ((j <? samples_size) && Qlt_bool s choice_sum = true -> j + 1 <= scan_j r).
Proof.
  induction fuel as [|fuel IH]; intros j s Hfuel.
  - cbn [scan_forward].
    assert (E : (j <? samples_size) = false) by (apply Z.ltb_ge; lia).
    rewrite E. cbn [andb]. eexists. split; [reflexivity|]. cbn.
    repeat split; try lia; try discriminate; constructor.
  - cbn [scan_forward].
    destruct ((j <? samples_size) && Qlt_bool s choice_sum) eqn:G.
    + apply andb_true_iff in G. destruct G as [Hj _]. apply Z.ltb_lt in Hj.
      destruct (IH (j + 1) (s + host_dists_at host_dists j)%Q ltac:(lia))
        as [r [Hr [Hlo [Hhi [Hreads _]]]]].
      rewrite Hr. cbn [option_map]. eexists. split; [reflexivity|].
      unfold scan_read. cbn [scan_j scan_reads].
      repeat split; try lia.
      constructor; [lia|].
      eapply Forall_impl; [|exact Hreads]. cbn. intros t Ht. lia.
    + eexists. split; [reflexivity|]. cbn.
      repeat split; try lia; try discriminate; constructor.
Qed.

(** The backward scan returns when its fuel covers the way down to 1.  It
    never moves [j] up nor below 1, it only reads at indices above 1 and up
    to its start, and it takes at least one step when its condition holds
    at the start. *)
Lemma scan_backward_runs (fuel : nat) :
  forall j s,
    j - 1 <= Z.of_nat fuel ->
    exists r,
      scan_backward host_dists choice_sum fuel j s = Some r
      /\ scan_j r <= j
      /\ (1 <= j -> 1 <= scan_j r)
      /\ Forall (fun t => 1 < t <= j) (scan_reads r)
      /\ ((j >? 1) && Qle_bool choice_sum s = true -> scan_j r <= j - 1).
Proof.
  induction fuel as [|fuel IH]; intros j s Hfuel.
  - cbn [scan_backward].
    assert (E : (j >? 1) = false) by (rewrite Z.gtb_ltb; apply Z.ltb_ge; lia).
    rewrite E. cbn [andb]. eexists. split; [reflexivity|]. cbn.
    repeat split; try lia; try discriminate; constructor.
  - cbn [scan_backward].
    destruct ((j >? 1) && Qle_bool choice_sum s) eqn:G.
    + apply andb_true_iff in G. destruct G as [Hj _].
      rewrite Z.gtb_ltb in Hj. apply Z.ltb_lt in Hj.
      destruct (IH (j - 1) (s - host_dists_at host_dists j)%Q ltac:(lia))
        as [r [Hr [Hhi [Hlo [Hreads _]]]]].
      rewrite Hr. cbn [option_map]. eexists. split; [reflexivity|].
      unfold scan_read. cbn [scan_j scan_reads].
      repeat split; try lia.
      constructor; [lia|].
      eapply Forall_impl; [|exact Hreads]. cbn. intros t Ht. lia.
    + eexists. split; [reflexivity|]. cbn.
      repeat split; try lia; try discriminate; constructor.
Qed.

Lemma partial_sum_reads_below (choice_approx : Z) :
  Forall (fun t => 0 <= t < choice_approx) (partial_sum_reads choice_approx).
Proof.
  unfold partial_sum_reads. apply Forall_forall. intros t Ht.
  apply in_map_iff in Ht. destruct Ht as [k [<- Hk]].
  apply in_seq in Hk. lia.
Qed.

End ScanFacts.

(** The search of a seeding step returns on every input: the fuel of its
    loops is never exhausted. *)
Lemma kmpp_search_total (samples_size : Z) (host_dists : list Q) (dist_sum choice : Q) :
  exists r, kmpp_search samples_size host_dists dist_sum choice = Some r.
Proof.
  unfold kmpp_search.
  set (choice_approx := float_to_u32 (choice * inject_Z samples_size)).
  set (choice_sum := (choice * dist_sum)%Q).
  assert (Happrox : 0 <= choice_approx) by apply u32_nonneg.
  destruct (scan_forward_runs samples_size host_dists choice_sum
              (Z.to_nat samples_size) 0 0%Q ltac:(lia)) as [naive [Hn _]].
  rewrite Hn.
  destruct (choice_approx <? 100); [eexists; reflexivity|].
  destruct (Qlt_bool (partial_sum host_dists choice_approx) choice_sum).
  - destruct (scan_forward_runs samples_size host_dists choice_sum
                (Z.to_nat samples_size) choice_approx
                (partial_sum host_dists choice_approx) ltac:(lia)) as [r [Hr _]].
    rewrite Hr. eexists. reflexivity.
  - destruct (scan_backward_runs host_dists choice_sum (Z.to_nat choice_approx)
                choice_approx (partial_sum host_dists choice_approx) ltac:(lia))
      as [r [Hr _]].
    rewrite Hr. eexists. reflexivity.
Qed.

(** [choice_approx] for a draw in the open interval: below [samples_size]. *)
Lemma choice_approx_below (samples_size : Z) (choice : Q) :
  1 <= samples_size < 2 ^ 32 ->
  (0 < choice < 1)%Q ->
  0 <= float_to_u32 (choice * inject_Z samples_size) < samples_size.
Proof.
  intros Hn [Hc0 Hc1]. unfold float_to_u32, Qtrunc.
  set (q := (choice * inject_Z samples_size)%Q).
  assert (Hn0 : (0 < inject_Z samples_size)%Q).
  { change 0%Q with (inject_Z 0). rewrite <- Zlt_Qlt. lia. }
  assert (Hq0 : (0 <= q)%Q).
  { apply Qmult_le_0_compat; now apply Qlt_le_weak. }
  assert (Hq1 : (q < inject_Z samples_size)%Q).
  { unfold q. rewrite <- (Qmult_1_l (inject_Z samples_size)) at 2.
    now apply Qmult_lt_compat_r. }
  apply Qle_bool_iff in Hq0 as Hb. rewrite Hb.
  assert (H0 : 0 <= Qfloor q).
  { change 0 with (Qfloor 0). now apply Qfloor_resp_le. }
  assert (H1 : Qfloor q < samples_size).
  { rewrite Zlt_Qlt. eapply Qle_lt_trans; [apply Qfloor_le|exact Hq1]. }
  unfold u32. rewrite Z.mod_small by lia. lia.
Qed.

Lemma kmpp_search_inside (samples_size : Z) (host_dists : list Q) (dist_sum choice : Q) :
  1 <= samples_size < 2 ^ 32 ->
  (0 < choice < 1)%Q ->
  (0 < dist_sum)%Q ->
  exists r,
    kmpp_search samples_size host_dists dist_sum choice = Some r
    /\ Forall (fun t => 0 <= t < samples_size) (reads r)
    /\ 1 <= final_j r <= samples_size.
Proof.
  intros Hn Hc HS.
  pose proof (choice_approx_below samples_size choice Hn Hc) as Happrox.
  unfold kmpp_search.
  set (choice_approx := float_to_u32 (choice * inject_Z samples_size)) in *.
  set (choice_sum := (choice * dist_sum)%Q).
  assert (Hcs : Qlt_bool 0 choice_sum = true).
  { apply Qlt_bool_iff. apply Qmult_lt_0_compat; [apply Hc|exact HS]. }
  destruct (scan_forward_runs samples_size host_dists choice_sum
              (Z.to_nat samples_size) 0 0%Q ltac:(lia))
    as [naive [Hrun [_ [Hhi [Hreads Hstep]]]]].
  rewrite Hrun.
  assert (Hg0 : (0 <? samples_size) && Qlt_bool 0 choice_sum = true).
  { rewrite Hcs, andb_true_r. apply Z.ltb_lt. lia. }
  destruct (choice_approx <? 100) eqn:Esmall.
  - eexists. split; [reflexivity|]. cbn [reads final_j]. split.
    + apply Forall_app. split; exact Hreads.
    + specialize (Hstep Hg0). lia.
  - apply Z.ltb_ge in Esmall.
    pose proof (partial_sum_reads_below choice_approx) as Hpre.
    destruct (Qlt_bool (partial_sum host_dists choice_approx) choice_sum) eqn:Elt.
    + destruct (scan_forward_runs samples_size host_dists choice_sum
                  (Z.to_nat samples_size) choice_approx
                  (partial_sum host_dists choice_approx) ltac:(lia))
        as [r [Hr [Hlo [Hhi' [Hreads' Hstep']]]]].
      rewrite Hr. eexists. split; [reflexivity|]. cbn [reads final_j scan_j scan_reads].
      split.
      * rewrite !Forall_app. repeat split.
        -- exact Hreads.
        -- eapply Forall_impl; [|exact Hpre]. cbn. intros t Ht. lia.
        -- eapply Forall_impl; [|exact Hreads']. cbn. intros t Ht. lia.
      * assert (Hg : (choice_approx <? samples_size)
                     && Qlt_bool (partial_sum host_dists choice_approx) choice_sum
                     = true).
        { rewrite Elt, andb_true_r. apply Z.ltb_lt. lia. }
        specialize (Hstep' Hg). lia.
    + destruct (scan_backward_runs host_dists choice_sum (Z.to_nat choice_approx)
                  choice_approx (partial_sum host_dists choice_approx) ltac:(lia))
        as [r [Hr [Hhi' [Hlo [Hreads' Hstep']]]]].
      rewrite Hr. eexists. split; [reflexivity|]. cbn [reads final_j scan_j scan_reads].
      assert (Hg : (choice_approx >? 1)
                   && Qle_bool choice_sum (partial_sum host_dists choice_approx)
                   = true).
      { unfold Qlt_bool in Elt. apply negb_false_iff in Elt. rewrite Elt, andb_true_r.
        rewrite Z.gtb_ltb. apply Z.ltb_lt. lia. }
      specialize (Hstep' Hg). specialize (Hlo ltac:(lia)).
      split.
      * rewrite !Forall_app. repeat split.
        -- exact Hreads.
        -- eapply Forall_impl; [|exact Hpre]. cbn. intros t Ht. lia.
        -- eapply Forall_impl; [|exact Hreads']. cbn. intros t Ht. lia.
      * unfold u32. rewrite Z.mod_small by lia. lia.
Qed.

(** X5.  For a draw strictly between 0 and 1 and a positive total distance,
    the search stays in the array: every read of [host_dists] is at an index
    of [0 .. samples_size - 1], [j] ends in [1 .. samples_size], and so the
    selected row [j - 1] is a sample. *)
Lemma search_in_bounds (samples_size : Z) (host_dists : list Q) (dist_sum choice : Q) :
  1 <= samples_size < 2 ^ 32 ->
  (0 < choice < 1)%Q ->
  (0 < dist_sum)%Q ->
  exists r,
    kmpp_search samples_size host_dists dist_sum choice = Some r
    /\ Forall (fun t => 0 <= t < samples_size) (reads r)
    /\ 1 <= final_j r <= samples_size.
Proof. apply kmpp_search_inside. Qed.

Lemma search_in_bounds_witness :
  1 <= 200 < 2 ^ 32
  /\ (0 < 3 # 4 < 1)%Q
  /\ (0 < 100)%Q
  /\ exists r,
       kmpp_search 200 (repeat 0%Q 50 ++ [100%Q] ++ repeat 0%Q 149) 100 (3 # 4) = Some r
       /\ Forall (fun t => 0 <= t < 200) (reads r)
       /\ 1 <= final_j r <= 200.
Proof.
  assert (Hn : 1 <= 200 < 2 ^ 32) by (split; [discriminate|reflexivity]).
  assert (Hc : (0 < 3 # 4 < 1)%Q) by (split; reflexivity).
  assert (Hs : (0 < 100)%Q) by reflexivity.
  repeat split; try exact (proj1 Hn); try exact (proj2 Hn);
    try exact (proj1 Hc); try exact (proj2 Hc); try exact Hs.
  exact (search_in_bounds 200 (repeat 0%Q 50 ++ [100%Q] ++ repeat 0%Q 149) 100 (3 # 4)
           Hn Hc Hs).
Defined.

(** ** Where the search policy and the reference scan agree *)

Section Agreement.

Variable samples_size : Z.
Variable host_dists : list Q.
Variable choice_sum : Q.

Hypothesis dists_nonneg : Forall (fun d => (0 <= d)%Q) host_dists.

Lemma host_dists_at_nonneg (t : Z) : (0 <= host_dists_at host_dists t)%Q.
Proof.
  unfold host_dists_at.
  destruct (nth_in_or_default (Z.to_nat t) host_dists 0%Q) as [Hin | Hd].
  - rewrite Forall_forall in dists_nonneg. now apply dists_nonneg.
  - rewrite Hd. apply Qle_refl.
Qed.

Lemma partial_sum_succ (k : nat) :
  partial_sum host_dists (Z.of_nat (S k))
  = (partial_sum host_dists (Z.of_nat k) + host_dists_at host_dists (Z.of_nat k))%Q.
Proof.
  unfold partial_sum, partial_sum_reads.
  rewrite !Nat2Z.id, seq_S, map_app, fold_left_app. reflexivity.
Qed.

Lemma partial_sum_monotone (k : nat) :
  forall m, (k <= m)%nat ->
    (partial_sum host_dists (Z.of_nat k) <= partial_sum host_dists (Z.of_nat m))%Q.
Proof.
  intros m Hkm. induction Hkm as [|m Hkm IH].
  - apply Qle_refl.
  - rewrite partial_sum_succ.
    eapply Qle_trans; [exact IH|].
    rewrite <- (Qplus_0_r (partial_sum host_dists (Z.of_nat m))) at 1.
    apply Qplus_le_r. apply host_dists_at_nonneg.
Qed.

(** Two runs of the forward scan from the same state return the same
    result, whatever fuel each of them was given. *)
Lemma scan_forward_fuel (fuel1 : nat) :
  forall fuel2 j s r1 r2,
    scan_forward samples_size host_dists choice_sum fuel1 j s = Some r1 ->
    scan_forward samples_size host_dists choice_sum fuel2 j s = Some r2 ->
    r1 = r2.
Proof.
  induction fuel1 as [|fuel1 IH]; intros fuel2 j s r1 r2 H1 H2;
    destruct fuel2 as [|fuel2]; cbn [scan_forward] in H1, H2;
    destruct ((j <? samples_size) && Qlt_bool s choice_sum);
    try discriminate; try congruence.
  destruct (scan_forward samples_size host_dists choice_sum fuel1 (j + 1)
              (s + host_dists_at host_dists j)) as [r1'|] eqn:E1; [|discriminate].
  destruct (scan_forward samples_size host_dists choice_sum fuel2 (j + 1)
              (s + host_dists_at host_dists j)) as [r2'|] eqn:E2; [|discriminate].
  cbn [option_map] in H1, H2. rewrite (IH _ _ _ _ _ E1 E2) in H1. congruence.
Qed.

(** While the prefix sums stay below the target, the reference scan walks
    through the states [(k, partial_sum k)]: it ends where a scan started
    from any of them ends. *)
Lemma scan_forward_skip (choice_approx : Z) :
  choice_approx <= samples_size ->
  Qlt_bool (partial_sum host_dists choice_approx) choice_sum = true ->
  forall (k : nat) fuel,
    Z.of_nat k <= choice_approx ->
    option_map scan_j
      (scan_forward samples_size host_dists choice_sum (k + fuel) 0 0%Q)
    = option_map scan_j
        (scan_forward samples_size host_dists choice_sum fuel (Z.of_nat k)
                      (partial_sum host_dists (Z.of_nat k))).
Proof.
  intros Hn Hbelow. induction k as [|k IH]; intros fuel Hk.
  - reflexivity.
  - replace (S k + fuel)%nat with (k + S fuel)%nat by lia.
    rewrite IH by lia.
    cbn [scan_forward].
    assert (G : (Z.of_nat k <? samples_size)
                && Qlt_bool (partial_sum host_dists (Z.of_nat k)) choice_sum = true).
    { apply andb_true_iff. split; [apply Z.ltb_lt; lia|].
      apply Qlt_bool_iff. apply Qlt_bool_iff in Hbelow.
      eapply Qle_lt_trans; [|exact Hbelow].
      rewrite <- (Z2Nat.id choice_approx) by lia.
      apply partial_sum_monotone. lia. }
    rewrite G, partial_sum_succ, Nat2Z.inj_succ, <- Z.add_1_r.
    now destruct (scan_forward samples_size host_dists choice_sum fuel
                    (Z.of_nat k + 1)
                    (partial_sum host_dists (Z.of_nat k)
                     + host_dists_at host_dists (Z.of_nat k))).
Qed.

End Agreement.

(** On exact sums of non-negative distances the search policy ends with
    the same [j] as the reference scan of lines 124-129 whenever it does
    not take the backward branch: when [choice_approx < 100], and when the
    sum of the first [choice_approx] distances is below the target.  (In
    the source the sums are rounded, and the sum of lines 136-140 may be
    taken in another order; this is about the model's exact sums only.) *)
Lemma forward_search_agrees (samples_size : Z) (host_dists : list Q) (dist_sum choice : Q) :
  Forall (fun d => (0 <= d)%Q) host_dists ->
  let choice_approx := float_to_u32 (choice * inject_Z samples_size) in
  choice_approx <= samples_size ->
  choice_approx < 100
  \/ (partial_sum host_dists choice_approx < choice * dist_sum)%Q ->
  exists r,
    kmpp_search samples_size host_dists dist_sum choice = Some r
    /\ final_j r = naive_j r.
Proof.
  intros Hpos choice_approx Hle Hbranch.
  unfold kmpp_search. fold choice_approx.
  set (choice_sum := (choice * dist_sum)%Q) in *.
  assert (Happrox : 0 <= choice_approx) by apply u32_nonneg.
  destruct (scan_forward_runs samples_size host_dists choice_sum
              (Z.to_nat samples_size) 0 0%Q ltac:(lia)) as [naive [Hn _]].
  rewrite Hn.
  destruct (choice_approx <? 100) eqn:Esmall.
  { eexists. split; reflexivity. }
  apply Z.ltb_ge in Esmall.
  destruct Hbranch as [Hsmall|Hlt]; [lia|].
  apply Qlt_bool_iff in Hlt. rewrite Hlt.
  destruct (scan_forward_runs samples_size host_dists choice_sum
              (Z.to_nat samples_size) choice_approx
              (partial_sum host_dists choice_approx) ltac:(lia)) as [r [Hr _]].
  rewrite Hr. eexists. split; [reflexivity|]. cbn [final_j naive_j scan_j].
  destruct (scan_forward_runs samples_size host_dists choice_sum
              (Z.to_nat samples_size - Z.to_nat choice_approx) choice_approx
              (partial_sum host_dists choice_approx) ltac:(lia)) as [r' [Hr' _]].
  rewrite (scan_forward_fuel samples_size host_dists choice_sum _ _ _ _ _ _ Hr Hr').
  pose proof (scan_forward_skip samples_size host_dists choice_sum Hpos choice_approx
                Hle Hlt (Z.to_nat choice_approx)
                (Z.to_nat samples_size - Z.to_nat choice_approx)%nat) as Hskip.
  rewrite Z2Nat.id in Hskip by lia.
  replace (Z.to_nat choice_approx
           + (Z.to_nat samples_size - Z.to_nat choice_approx))%nat
    with (Z.to_nat samples_size) in Hskip by lia.
  rewrite Hn, Hr' in Hskip. specialize (Hskip ltac:(lia)).
  cbn [option_map] in Hskip. congruence.
Qed.

(** The reference scan against the spec's words.  From a state in which
    the running sum is still below the target, the scan over the rest of
    the array stops one past the smallest index whose prefix sum reaches
    the target, and at [samples_size] when no prefix sum does. *)
Lemma scan_forward_smallest_index (samples_size : Z) (T : Q) (rest : list Q) :
  forall (before : list Q) (s : Q) (fuel : nat),
    samples_size = Z.of_nat (length (before ++ rest)) ->
    (length rest <= fuel)%nat ->
    Qlt_bool s T = true ->
    exists r,
      scan_forward samples_size (before ++ rest) T fuel (Z.of_nat (length before)) s
      = Some r
      /\ match spec_smallest_index rest T (Z.of_nat (length before)) s with
         | Some k => scan_j r = k + 1
         | None => scan_j r = samples_size
         end.
Proof.
  induction rest as [|d rest IH]; intros before s fuel Hn Hfuel Hs.
  - rewrite app_nil_r in *. cbn [spec_smallest_index].
    assert (E : (Z.of_nat (length before) <? samples_size) = false)
      by (apply Z.ltb_ge; lia).
    destruct fuel; cbn [scan_forward]; rewrite E; cbn [andb];
      eexists; (split; [reflexivity|]); cbn; lia.
  - destruct fuel as [|fuel]; [cbn in Hfuel; lia|].
    cbn [scan_forward spec_smallest_index].
    assert (E : (Z.of_nat (length before) <? samples_size) = true).
    { apply Z.ltb_lt. rewrite Hn, length_app. cbn [length]. lia. }
    rewrite E, Hs. cbn [andb].
    assert (Hd : host_dists_at (before ++ d :: rest) (Z.of_nat (length before)) = d).
    { unfold host_dists_at. rewrite Nat2Z.id. apply nth_middle. }
    rewrite Hd.
    destruct (Qle_bool T (s + d)) eqn:Ereach.
    + assert (G : Qlt_bool (s + d) T = false) by (unfold Qlt_bool; now rewrite Ereach).
      destruct fuel; cbn [scan_forward]; rewrite G, andb_false_r; cbn [option_map];
        eexists; (split; [reflexivity|]); reflexivity.
    + assert (G : Qlt_bool (s + d) T = true) by (unfold Qlt_bool; now rewrite Ereach).
      assert (Hlist : before ++ d :: rest = (before ++ [d]) ++ rest)
        by now rewrite <- app_assoc.
      destruct (IH (before ++ [d]) (s + d)%Q fuel) as [r [Hr Hk]].
      * now rewrite <- Hlist.
      * cbn in Hfuel. lia.
      * exact G.
      * rewrite length_app in Hr, Hk. cbn [length] in Hr, Hk.
        rewrite Nat.add_1_r, Nat2Z.inj_succ, <- Z.add_1_r in Hr, Hk.
        rewrite Hlist, Hr. cbn [option_map]. eexists. split; [reflexivity|].
        exact Hk.
Qed.

(** On exact sums, the reference scan of lines 124-129 stops one past the
    smallest sample index whose prefix sum reaches a positive target.  (In
    the source the running sum is rounded at every step; this is about the
    model's exact sums only.) *)
Lemma reference_scan_smallest_index (host_dists : list Q) (T : Q) :
  (0 < T)%Q ->
  let samples_size := Z.of_nat (length host_dists) in
  exists r,
    scan_forward samples_size host_dists T (Z.to_nat samples_size) 0 0%Q = Some r
    /\ match spec_smallest_index host_dists T 0 0%Q with
       | Some k => scan_j r = k + 1
       | None => scan_j r = samples_size
       end.
Proof.
  intros HT samples_size.
  apply (scan_forward_smallest_index samples_size T host_dists [] 0%Q
           (Z.to_nat samples_size)).
  - reflexivity.
  - subst samples_size. rewrite Nat2Z.id. apply Nat.le_refl.
  - now apply Qlt_bool_iff.
Qed.

(** X8.  When the total distance is zero and [choice_approx < 100], the linear
    scan takes no step and the assertion of line 152 fails. *)
Lemma zero_target_fails_assertion (samples_size : Z) (host_dists : list Q)
      (dist_sum choice : Q) :
  (dist_sum == 0)%Q ->
  float_to_u32 (choice * inject_Z samples_size) < 100 ->
  kmpp_pick samples_size host_dists dist_sum choice = Some AssertionFailure.
Proof.
  intros HS Happrox. unfold kmpp_pick, kmpp_search.
  apply Z.ltb_lt in Happrox. rewrite Happrox.
  assert (G : Qlt_bool 0 (choice * dist_sum) = false).
  { unfold Qlt_bool. apply negb_false_iff. apply Qle_bool_iff.
    rewrite HS, Qmult_0_r. apply Qle_refl. }
  assert (Hscan : scan_forward samples_size host_dists (choice * dist_sum)
                               (Z.to_nat samples_size) 0 0%Q
                  = Some (mkScan 0 0%Q [])).
  { destruct (Z.to_nat samples_size); cbn [scan_forward];
      now rewrite G, andb_false_r. }
  rewrite Hscan. reflexivity.
Qed.

Lemma zero_target_fails_assertion_witness :
  (0 == 0)%Q
  /\ float_to_u32 ((3 # 4) * inject_Z 4) < 100
  /\ kmpp_pick 4 [0; 0; 0; 0]%Q 0 (3 # 4) = Some AssertionFailure.
Proof.
  assert (HS : (0 == 0)%Q) by reflexivity.
  assert (Happrox : float_to_u32 ((3 # 4) * inject_Z 4) < 100) by (vm_compute; reflexivity).
  split; [exact HS|]. split; [exact Happrox|].
  exact (zero_target_fails_assertion 4 [0; 0; 0; 0]%Q 0 (3 # 4) HS Happrox).
Defined.

(** ** Owned allocations *)

Lemma bind_value {A B} (m : M A) (k : A -> M B) w b w' :
  bind m k w = (Value b, w') ->
  exists a w1, m w = (Value a, w1) /\ k a w1 = (Value b, w').
Proof.
  unfold bind. destruct (m w) as [[a|r| |] w1]; intro H; try discriminate.
  now exists a, w1.
Qed.

(** When [CUMALLOC] goes through, it has made one successful request per
    device, in the order of [devs], and appended the pointers to [dest]. *)
Lemma CUMALLOC_value rt tag size :
  forall devs dest w v w',
    CUMALLOC rt tag dest size devs w = (Value v, w') ->
    exists ptrs,
      length ptrs = length devs
      /\ v = dest ++ map owned ptrs
      /\ trace w' = trace w ++ granted tag size devs ptrs.
Proof.
  unfold CUMALLOC.
  induction devs as [|dev rest IH]; intros dest w v w' H; cbn [FOR_ALL_DEVS] in H.
  - inversion H; subst. exists []. cbn. now rewrite !app_nil_r.
  - apply bind_value in H. destruct H as [dest1 [w1 [Hone Hrest]]].
    unfold CUMALLOC_ONE, bind, cuda_malloc in Hone.
    destruct (cudaMalloc rt (mallocs w)) as [p|] eqn:Ep; [|discriminate].
    inversion Hone; subst dest1 w1. clear Hone.
    destruct (IH _ _ _ _ Hrest) as [ptrs [Hlen [Hv Ht]]].
    exists (p :: ptrs). cbn [length]. split; [now rewrite Hlen|]. split.
    + rewrite Hv, <- app_assoc. reflexivity.
    + rewrite Ht. cbn [trace]. rewrite <- app_assoc. reflexivity.
Qed.

Lemma filter_granted (keep : buffer -> bool) tag size devs ptrs :
  filter (is_malloc_of keep) (granted tag size devs ptrs)
  = if keep tag then granted tag size devs ptrs else [].
Proof.
  unfold granted. induction (combine devs ptrs) as [|dp l IH]; cbn.
  - now destruct (keep tag).
  - rewrite IH. now destruct (keep tag).
Qed.

(** X10.  When the test of line 224 fails, a run of lines 215-232 that goes
    through has made exactly one request per device for the group
    centroids, of [yinyang_groups * features_size] elements in 32-bit
    arithmetic, and [device_centroids_yy] owns the pointers it was given. *)
Lemma plan_yinyang_fresh rt yinyang_groups samples_size features_size clusters_size
      centroids_size devs w yy w' :
  1 <= yinyang_groups ->
  reuse_passed_yy yinyang_groups samples_size features_size clusters_size = false ->
  plan_yinyang rt yinyang_groups samples_size features_size clusters_size
               centroids_size devs w
  = (Value yy, w') ->
  exists evs ptrs,
    trace w' = trace w ++ evs
    /\ length ptrs = length devs
    /\ device_centroids_yy yy = map owned ptrs
    /\ filter (is_malloc_of is_centroids_yy) evs
       = granted CentroidsYY (u32 (yinyang_groups * features_size)) devs ptrs.
Proof.
  intros Hyg Hreuse Hrun. unfold plan_yinyang in Hrun.
  assert (E : (yinyang_groups >=? 1) = true) by (apply Z.geb_le; lia).
  rewrite E, Hreuse in Hrun.
  apply bind_value in Hrun. destruct Hrun as [v1 [w1 [H1 Hrun]]].
  apply bind_value in Hrun. destruct Hrun as [v2 [w2 [H2 Hrun]]].
  apply bind_value in Hrun. destruct Hrun as [v3 [w3 [H3 Hrun]]].
  apply bind_value in Hrun. destruct Hrun as [v4 [w4 [H4 Hrun]]].
  apply bind_value in Hrun. destruct Hrun as [v5 [w5 [H5 Hrun]]].
  inversion Hrun; subst yy w'. clear Hrun.
  apply CUMALLOC_value in H1. destruct H1 as [p1 [_ [_ T1]]].
  apply CUMALLOC_value in H2. destruct H2 as [p2 [_ [_ T2]]].
  apply CUMALLOC_value in H3. destruct H3 as [p3 [_ [_ T3]]].
  apply CUMALLOC_value in H4. destruct H4 as [p4 [_ [_ T4]]].
  apply CUMALLOC_value in H5. destruct H5 as [p5 [L5 [V5 T5]]].
  eexists. exists p5. split.
  - rewrite T5, T4, T3, T2, T1, <- !app_assoc. reflexivity.
  - split; [exact L5|]. split; [exact V5|].
    rewrite !filter_app, !filter_granted. reflexivity.
Qed.

Lemma plan_yinyang_fresh_witness :
  1 <= 2
  /\ reuse_passed_yy 2 6 2 3 = false
  /\ exists yy w',
       plan_yinyang two_devices 2 6 2 3 6 [0; 1] world0 = (Value yy, w')
       /\ exists evs ptrs,
            trace w' = trace world0 ++ evs
            /\ length ptrs = length [0; 1]
            /\ device_centroids_yy yy = map owned ptrs
            /\ filter (is_malloc_of is_centroids_yy) evs
               = granted CentroidsYY (u32 (2 * 2)) [0; 1] ptrs.
Proof.
  assert (Hyg : 1 <= 2) by discriminate.
  assert (Hfresh : reuse_passed_yy 2 6 2 3 = false) by reflexivity.
  split; [exact Hyg|]. split; [exact Hfresh|].
  assert (Hrun : exists yy w',
             plan_yinyang two_devices 2 6 2 3 6 [0; 1] world0 = (Value yy, w'))
    by (vm_compute; eexists; eexists; reflexivity).
  destruct Hrun as [yy [w' Hrun]]. exists yy, w'. split; [exact Hrun|].
  exact (plan_yinyang_fresh two_devices 2 6 2 3 6 [0; 1] world0 yy w' Hyg Hfresh Hrun).
Defined.

(** X14.  When the test of line 224 holds, a run of lines 215-232 that goes
    through has made no request for the group centroids: the passed-flags
    vector owns one buffer per device and [device_centroids_yy] holds an
    alias of each of them. *)
Lemma plan_yinyang_reuse_value rt yinyang_groups samples_size features_size
      clusters_size centroids_size devs w yy w' :
  1 <= yinyang_groups ->
  reuse_passed_yy yinyang_groups samples_size features_size clusters_size = true ->
  plan_yinyang rt yinyang_groups samples_size features_size clusters_size
               centroids_size devs w
  = (Value yy, w') ->
  exists evs ptrs,
    trace w' = trace w ++ evs
    /\ length ptrs = length devs
    /\ device_passed_yy yy = map owned ptrs
    /\ device_centroids_yy yy = map alias_of (device_passed_yy yy)
    /\ filter (is_malloc_of is_centroids_yy) evs = [].
Proof.
  intros Hyg Hreuse Hrun. unfold plan_yinyang in Hrun.
  assert (E : (yinyang_groups >=? 1) = true) by (apply Z.geb_le; lia).
  rewrite E, Hreuse in Hrun.
  apply bind_value in Hrun. destruct Hrun as [v1 [w1 [H1 Hrun]]].
  apply bind_value in Hrun. destruct Hrun as [v2 [w2 [H2 Hrun]]].
  apply bind_value in Hrun. destruct Hrun as [v3 [w3 [H3 Hrun]]].
  apply bind_value in Hrun. destruct Hrun as [v4 [w4 [H4 Hrun]]].
  inversion Hrun; subst yy w'. clear Hrun.
  apply CUMALLOC_value in H1. destruct H1 as [p1 [_ [_ T1]]].
  apply CUMALLOC_value in H2. destruct H2 as [p2 [_ [_ T2]]].
  apply CUMALLOC_value in H3. destruct H3 as [p3 [_ [_ T3]]].
  apply CUMALLOC_value in H4. destruct H4 as [p4 [L4 [V4 T4]]].
  eexists. exists p4. split.
  - rewrite T4, T3, T2, T1, <- !app_assoc. reflexivity.
  - split; [exact L4|]. split; [exact V4|]. split; [reflexivity|].
    rewrite !filter_app, !filter_granted. reflexivity.
Qed.

Lemma plan_yinyang_reuse_value_witness :
  1 <= 1
  /\ reuse_passed_yy 1 10 2 3 = true
  /\ exists yy w',
       plan_yinyang two_devices 1 10 2 3 6 [0; 1] world0 = (Value yy, w')
       /\ exists evs ptrs,
            trace w' = trace world0 ++ evs
            /\ length ptrs = length [0; 1]
            /\ device_passed_yy yy = map owned ptrs
            /\ device_centroids_yy yy = map alias_of (device_passed_yy yy)
            /\ filter (is_malloc_of is_centroids_yy) evs = [].
Proof.
  assert (Hyg : 1 <= 1) by discriminate.
  assert (Hreuse : reuse_passed_yy 1 10 2 3 = true) by reflexivity.
  split; [exact Hyg|]. split; [exact Hreuse|].
  assert (Hrun : exists yy w',
             plan_yinyang two_devices 1 10 2 3 6 [0; 1] world0 = (Value yy, w'))
    by (vm_compute; eexists; eexists; reflexivity).
  destruct Hrun as [yy [w' Hrun]]. exists yy, w'. split; [exact Hrun|].
  exact (plan_yinyang_reuse_value two_devices 1 10 2 3 6 [0; 1] world0 yy w'
           Hyg Hreuse Hrun).
Defined.

(** ** The sample buffers when the samples are in host memory *)

Lemma CUMEMCPY_H2D_ASYNC_value rt dst src size :
  forall devs devi w w',
    FOR_ALL_DEVSI devi devs
      (fun devi dev =>
         bind (cuda_memcpy rt
                 (MemcpyH2DAsync dev (get (nth devi dst (mkDevptr 0 false)) + 0) src size))
              (fun ok => CUCH ok kmcudaMemoryCopyError)) w
    = (Value tt, w') ->
    trace w' = trace w ++ uploaded dst src size devi devs.
Proof.
  induction devs as [|dev rest IH]; intros devi w w' H; cbn [FOR_ALL_DEVSI] in H.
  - inversion H; subst. unfold uploaded. cbn. now rewrite app_nil_r.
  - apply bind_value in H. destruct H as [[] [w1 [Hone Hrest]]].
    unfold bind, cuda_memcpy, CUCH in Hone.
    destruct (cudaMemcpy rt (memcpys w)) eqn:Eok; [|discriminate].
    inversion Hone; subst w1. clear Hone.
    rewrite (IH _ _ _ Hrest). cbn [trace]. rewrite <- app_assoc. reflexivity.
Qed.

(** X9.  With a negative location hint, a run of lines 181-185 that goes through
    has made one successful request per device for the samples and then one
    successful upload from the caller's pointer to each of the new buffers;
    [device_samples] owns the pointers. *)
Lemma plan_samples_on_host rt samples_size features_size device_ptrs samples devs
      w v w' :
  device_ptrs < 0 ->
  plan_samples rt samples_size features_size device_ptrs samples devs w = (Value v, w') ->
  exists ptrs,
    length ptrs = length devs
    /\ v = map owned ptrs
    /\ trace w'
       = trace w
         ++ granted Samples (usize (samples_size * features_size)) devs ptrs
         ++ uploaded v samples (usize (samples_size * features_size)) 0 devs.
Proof.
  intros Hhost Hrun. unfold plan_samples in Hrun.
  apply Z.ltb_lt in Hhost. rewrite Hhost in Hrun.
  apply bind_value in Hrun. destruct Hrun as [v1 [w1 [H1 Hrun]]].
  apply bind_value in Hrun. destruct Hrun as [[] [w2 [H2 Hrun]]].
  inversion Hrun; subst v1 w2. clear Hrun.
  apply CUMALLOC_value in H1. destruct H1 as [ptrs [Hlen [Hv Ht]]].
  apply CUMEMCPY_H2D_ASYNC_value in H2.
  exists ptrs. split; [exact Hlen|]. split; [exact Hv|].
  rewrite H2, Ht, <- app_assoc. reflexivity.
Qed.

Lemma plan_samples_on_host_witness :
  -1 < 0
  /\ exists v w',
       plan_samples two_devices 6 2 (-1) 111 [0; 1] world0 = (Value v, w')
       /\ exists ptrs,
            length ptrs = length [0; 1]
            /\ v = map owned ptrs
            /\ trace w'
               = trace world0
                 ++ granted Samples (usize (6 * 2)) [0; 1] ptrs
                 ++ uploaded v 111 (usize (6 * 2)) 0 [0; 1].
Proof.
  assert (Hhost : -1 < 0) by reflexivity.
  split; [exact Hhost|].
  assert (Hrun : exists v w',
             plan_samples two_devices 6 2 (-1) 111 [0; 1] world0 = (Value v, w'))
    by (vm_compute; eexists; eexists; reflexivity).
  destruct Hrun as [v [w' Hrun]]. exists v, w'. split; [exact Hrun|].
  exact (plan_samples_on_host two_devices 6 2 (-1) 111 [0; 1] world0 v w' Hhost Hrun).
Defined.

(** * Further properties of the code *)

(** ** Which arguments [check_args] accepts *)

Lemma check_args_success devices tolerance yinyang_t samples_size features_size
      clusters_size device samples centroids assignments :
  check_args devices tolerance yinyang_t samples_size features_size clusters_size
             device samples centroids assignments = kmcudaSuccess ->
  ~ shape_violation samples_size features_size clusters_size
  /\ selector_passes devices device
  /\ ~ value_violation tolerance yinyang_t samples centroids assignments.
Proof.
  unfold check_args, shape_violation, selector_passes, value_violation. intro H.
  destruct (clusters_size <? 2) eqn:E1; [discriminate|].
  destruct (clusters_size =? UINT32_MAX) eqn:E2; [discriminate|].
  destruct (features_size =? 0) eqn:E3; [discriminate|].
  destruct (samples_size <? clusters_size) eqn:E4; [discriminate|].
  destruct (device =? 0) eqn:E5; [discriminate|].
  destruct (device >? u32 (Z.shiftl 1 devices)) eqn:E6; [discriminate|].
  destruct (samples =? 0) eqn:E7; [discriminate|].
  destruct (centroids =? 0) eqn:E8; [discriminate|].
  destruct (assignments =? 0) eqn:E9; [discriminate|].
  cbn [orb] in H.
  destruct (f32_lt tolerance f32_0) eqn:E10; [discriminate|].
  destruct (f32_lt f32_1 tolerance) eqn:E11; [discriminate|].
  destruct (f32_lt yinyang_t f32_0) eqn:E12; [discriminate|].
  destruct (f32_lt f32_0_5 yinyang_t) eqn:E13; [discriminate|].
  repeat split; try lia;
    intros [V|[V|[V|[V|[V|[V|V]]]]]]; try lia; congruence.
Qed.

Lemma check_args_accepted devices tolerance yinyang_t samples_size features_size
      clusters_size device samples centroids assignments :
  ~ shape_violation samples_size features_size clusters_size ->
  selector_passes devices device ->
  ~ value_violation tolerance yinyang_t samples centroids assignments ->
  check_args devices tolerance yinyang_t samples_size features_size clusters_size
             device samples centroids assignments = kmcudaSuccess.
Proof.
  unfold shape_violation, selector_passes, value_violation, check_args.
  intros Hs [Hd0 Hd1] Hv.
  destruct (clusters_size <? 2) eqn:E1; [exfalso; lia|].
  destruct (clusters_size =? UINT32_MAX) eqn:E2; [exfalso; lia|].
  destruct (features_size =? 0) eqn:E3; [exfalso; lia|].
  destruct (samples_size <? clusters_size) eqn:E4; [exfalso; lia|].
  destruct (device =? 0) eqn:E5; [exfalso; lia|].
  destruct (device >? u32 (Z.shiftl 1 devices)) eqn:E6; [exfalso; lia|].
  destruct (samples =? 0) eqn:E7; [exfalso; apply Hv; lia|].
  destruct (centroids =? 0) eqn:E8; [exfalso; apply Hv; lia|].
  destruct (assignments =? 0) eqn:E9; [exfalso; apply Hv; lia|].
  cbn [orb].
  destruct (f32_lt tolerance f32_0) eqn:E10; [tauto|].
  destruct (f32_lt f32_1 tolerance) eqn:E11; [tauto|].
  destruct (f32_lt yinyang_t f32_0) eqn:E12; [tauto|].
  destruct (f32_lt f32_0_5 yinyang_t) eqn:E13; [tauto|].
  reflexivity.
Qed.

(** ** The selector bound of [check_args] and the devices that are tried *)

Lemma shift_one_u32 (devices : Z) :
  0 <= devices < 32 -> u32 (Z.shiftl 1 devices) = 2 ^ devices.
Proof.
  intro H. rewrite Z.shiftl_1_l. unfold u32. apply Z.mod_small. split.
  - apply Z.pow_nonneg. lia.
  - apply Z.pow_lt_mono_r; lia.
Qed.

(** X1.  With fewer than 32 devices, [check_args] returns [kmcudaSuccess]
    exactly when no shape rule is violated, the device selector is non-zero
    and at most [2 ^ devices], no pointer is null, the tolerance compares
    neither below [0] nor above [1] and the accelerated fraction compares
    neither below [0] nor above [0.5].  A NaN compares neither way and is
    accepted. *)
Theorem check_args_accepts_iff devices tolerance yinyang_t samples_size features_size
        clusters_size device samples centroids assignments :
  0 <= devices < 32 ->
  check_args devices tolerance yinyang_t samples_size features_size clusters_size
             device samples centroids assignments = kmcudaSuccess
  <-> ~ shape_violation samples_size features_size clusters_size
      /\ (device <> 0 /\ device <= 2 ^ devices)
      /\ ~ value_violation tolerance yinyang_t samples centroids assignments.
Proof.
  intro Hdevices. rewrite <- (shift_one_u32 devices Hdevices).
  split; [apply check_args_success|].
  intros [Hs [Hd Hv]]. now apply check_args_accepted.
Qed.

Lemma check_args_accepts_iff_witness :
  0 <= 2 < 32
  /\ (check_args 2 S754_nan f32_0_5 10 2 3 4 111 222 333 = kmcudaSuccess
      <-> ~ shape_violation 10 2 3
          /\ (4 <> 0 /\ 4 <= 2 ^ 2)
          /\ ~ value_violation S754_nan f32_0_5 111 222 333).
Proof.
  assert (H : 0 <= 2 < 32) by (split; [discriminate|reflexivity]).
  split; [exact H|].
  exact (check_args_accepts_iff 2 S754_nan f32_0_5 10 2 3 4 111 222 333 H).
Defined.

Lemma set_bit_below (device k d : Z) :
  0 <= k -> 0 <= device <= 2 ^ k -> Z.testbit device d = true -> d <= k.
Proof.
  intros Hk Hdev Hbit.
  destruct (Z_le_gt_dec d k) as [Hle|Hgt]; [exact Hle|exfalso].
  destruct (Z.eq_dec device 0) as [->|Hnz].
  - rewrite Z.bits_0 in Hbit. discriminate.
  - assert (Hlog : Z.log2 device <= k).
    { rewrite <- (Z.log2_pow2 k) by lia. apply Z.log2_le_mono. lia. }
    rewrite Z.bits_above_log2 in Hbit by lia. discriminate.
Qed.

(** X2.  With fewer than 32 devices, every device that [setup_devices]
    resolves from a selector accepted by [check_args] has an index between
    0 and the device count, the count included. *)
Theorem resolved_devices_within_count
    (f : Z -> bool) devices tolerance yinyang_t samples_size features_size
    clusters_size device samples centroids assignments devs :
  0 <= devices < 32 ->
  0 <= device < 2 ^ 32 ->
  check_args devices tolerance yinyang_t samples_size features_size clusters_size
             device samples centroids assignments = kmcudaSuccess ->
  setup_devices f device = Some devs ->
  Forall (fun d => 0 <= d <= devices) devs.
Proof.
  intros Hdevices Hrange Hcheck Hrun.
  destruct (check_args_success _ _ _ _ _ _ _ _ _ _ Hcheck) as [_ [[_ Hle] _]].
  rewrite shift_one_u32 in Hle by exact Hdevices.
  destruct (setup_devices_spec f device Hrange) as [devs' [Hrun' Hin]].
  rewrite Hrun in Hrun'. inversion Hrun'; subst devs'.
  apply Forall_forall. intros d Hd. apply Hin in Hd. destruct Hd as [Hd0 [Hbit _]].
  split; [exact Hd0|].
  apply (set_bit_below device devices d); [lia|lia|exact Hbit].
Qed.

Lemma resolved_devices_within_count_witness :
  0 <= 2 < 32
  /\ 0 <= 3 < 2 ^ 32
  /\ check_args 2 f32_0_01 f32_0 10 2 3 3 111 222 333 = kmcudaSuccess
  /\ setup_devices (cudaSetDevice two_devices) 3 = Some [0; 1]
  /\ Forall (fun d => 0 <= d <= 2) [0; 1].
Proof.
  assert (H1 : 0 <= 2 < 32) by (split; [discriminate|reflexivity]).
  assert (H2 : 0 <= 3 < 2 ^ 32) by (split; [discriminate|reflexivity]).
  assert (H3 : check_args 2 f32_0_01 f32_0 10 2 3 3 111 222 333 = kmcudaSuccess)
    by (vm_compute; reflexivity).
  assert (H4 : setup_devices (cudaSetDevice two_devices) 3 = Some [0; 1])
    by (vm_compute; reflexivity).
  split; [exact H1|]. split; [exact H2|]. split; [exact H3|]. split; [exact H4|].
  exact (resolved_devices_within_count (cudaSetDevice two_devices) 2 f32_0_01 f32_0
           10 2 3 3 111 222 333 [0; 1] H1 H2 H3 H4).
Defined.

(** The loop on a selector with the single bit [k] set: device [dev + k] is
    the only one that is tried. *)
Lemma setup_devices_loop_single_bit (f : Z -> bool) (fuel : nat) :
  forall (k : nat) dev devs,
    (k < fuel)%nat ->
    setup_devices_loop f fuel dev (2 ^ Z.of_nat k) devs
    = Some (devs ++ if f (dev + Z.of_nat k) then [dev + Z.of_nat k] else []).
Proof.
  induction fuel as [|fuel IH]; intros k dev devs Hk; [lia|].
  cbn [setup_devices_loop].
  assert (Hpos : 0 < 2 ^ Z.of_nat k) by (apply Z.pow_pos_nonneg; lia).
  assert (E0 : (2 ^ Z.of_nat k =? 0) = false) by (apply Z.eqb_neq; lia).
  rewrite E0, land_1_testbit, Z.pow2_bits_eqb by lia.
  destruct k as [|k].
  - change (Z.of_nat 0) with 0. rewrite Z.add_0_r.
    change (2 ^ 0) with 1. change (Z.shiftr 1 1) with 0.
    change (0 =? 0) with true. cbv iota.
    rewrite removelast_last.
    destruct fuel; cbn [setup_devices_loop]; change (0 =? 0) with true; cbv iota;
      destruct (f dev); [reflexivity|now rewrite app_nil_r
                        |reflexivity|now rewrite app_nil_r].
  - assert (E1 : (Z.of_nat (S k) =? 0) = false) by (apply Z.eqb_neq; lia).
    rewrite E1.
    assert (Hshift : Z.shiftr (2 ^ Z.of_nat (S k)) 1 = 2 ^ Z.of_nat k).
    { rewrite Z.shiftr_div_pow2 by lia. change (2 ^ 1) with 2.
      rewrite Nat2Z.inj_succ, Z.pow_succ_r by lia.
      rewrite Z.mul_comm. apply Z.div_mul. lia. }
    rewrite Hshift, IH by lia.
    replace (dev + 1 + Z.of_nat k) with (dev + Z.of_nat (S k)) by lia.
    reflexivity.
Qed.

(** X3.  The bound of line 33 is not strict: with [devices] devices
    (fewer than 32), the selector whose only set bit is bit number
    [devices] passes [check_args] when the other arguments are valid, and
    [setup_devices] then tries to activate device number [devices], one
    past the last device index, and keeps it if [cudaSetDevice] accepts it. *)
Theorem selector_bit_devices_accepted
    (f : Z -> bool) devices tolerance yinyang_t samples_size features_size
    clusters_size samples centroids assignments :
  0 <= devices < 32 ->
  ~ shape_violation samples_size features_size clusters_size ->
  ~ value_violation tolerance yinyang_t samples centroids assignments ->
  check_args devices tolerance yinyang_t samples_size features_size clusters_size
             (2 ^ devices) samples centroids assignments = kmcudaSuccess
  /\ setup_devices f (2 ^ devices) = Some (if f devices then [devices] else []).
Proof.
  intros Hdevices Hs Hv.
  assert (Hpos : 0 < 2 ^ devices) by (apply Z.pow_pos_nonneg; lia).
  split.
  - apply check_args_accepted; try assumption.
    unfold selector_passes. rewrite shift_one_u32 by exact Hdevices. lia.
  - unfold setup_devices.
    rewrite <- (Z2Nat.id devices) at 1 by lia.
    rewrite setup_devices_loop_single_bit by lia.
    rewrite Z2Nat.id by lia. reflexivity.
Qed.

Lemma selector_bit_devices_accepted_witness :
  0 <= 2 < 32
  /\ ~ shape_violation 10 2 3
  /\ ~ value_violation f32_0_01 f32_0 111 222 333
  /\ check_args 2 f32_0_01 f32_0 10 2 3 (2 ^ 2) 111 222 333 = kmcudaSuccess
  /\ setup_devices (cudaSetDevice two_devices) (2 ^ 2)
     = Some (if cudaSetDevice two_devices 2 then [2] else []).
Proof.
  assert (H1 : 0 <= 2 < 32) by (split; [discriminate|reflexivity]).
  assert (H2 : ~ shape_violation 10 2 3).
  { unfold shape_violation, UINT32_MAX. lia. }
  assert (H3 : ~ value_violation f32_0_01 f32_0 111 222 333).
  { unfold value_violation.
    intros [V|[V|[V|[V|[V|[V|V]]]]]]; try discriminate V;
      vm_compute in V; discriminate V. }
  split; [exact H1|]. split; [exact H2|]. split; [exact H3|].
  exact (selector_bit_devices_accepted (cudaSetDevice two_devices) 2 f32_0_01 f32_0
           10 2 3 111 222 333 H1 H2 H3).
Defined.

(** ** The order of the resolved devices *)

(** The loop appends device numbers in increasing order, starting at
    [dev]. *)
Lemma setup_devices_loop_sorted (f : Z -> bool) (fuel : nat) :
  forall dev device devs added,
    setup_devices_loop f fuel dev device devs = Some added ->
    exists new,
      added = devs ++ new
      /\ StronglySorted Z.lt new
      /\ Forall (fun d => dev <= d < dev + Z.of_nat fuel) new.
Proof.
  induction fuel as [|fuel IH]; intros dev device devs added H;
    cbn [setup_devices_loop] in H.
  - destruct (device =? 0); [|discriminate]. inversion H; subst.
    exists []. rewrite app_nil_r. repeat split; constructor.
  - destruct (device =? 0).
    + inversion H; subst. exists []. rewrite app_nil_r. repeat split; constructor.
    + set (kept := if Z.land device 1 =? 1
                   then if f dev then [dev] else [] else [] : list Z).
      assert (Hkept : (if Z.land device 1 =? 1
                       then if f dev then devs ++ [dev] else removelast (devs ++ [dev])
                       else devs) = devs ++ kept).
      { subst kept. destruct (Z.land device 1 =? 1); [|now rewrite app_nil_r].
        destruct (f dev); [reflexivity|].
        now rewrite removelast_last, app_nil_r. }
      cbv zeta in H. rewrite Hkept in H.
      destruct (IH _ _ _ _ H) as [new [Hadded [Hsorted Hrange]]].
      exists (kept ++ new). split; [now rewrite Hadded, app_assoc|].
      assert (Hrange' : Forall (fun d => dev <= d < dev + Z.of_nat (S fuel)) new).
      { eapply Forall_impl; [|exact Hrange]. cbn beta. intros d Hd. lia. }
      subst kept.
      destruct (Z.land device 1 =? 1); [|now split].
      destruct (f dev); [|now split].
      cbn [app]. split.
      * constructor; [exact Hsorted|].
        eapply Forall_impl; [|exact Hrange]. cbn beta. intros d Hd. lia.
      * constructor; [lia|exact Hrange'].
Qed.

Lemma setup_devices_unfold (f : Z -> bool) (device : Z) :
  setup_devices f device = setup_devices_loop f 32 0 device [].
Proof. unfold setup_devices. reflexivity. Qed.

(** X4.  For a 32-bit selector the list of [setup_devices] is strictly
    increasing, so it has no duplicate and its first element, the primary
    device of the copy-out, is the lowest resolved device; every element
    is a bit position of the selector, between 0 and 31. *)
Theorem setup_devices_increasing (f : Z -> bool) (device : Z) :
  0 <= device < 2 ^ 32 ->
  exists devs,
    setup_devices f device = Some devs
    /\ StronglySorted Z.lt devs
    /\ Forall (fun d => 0 <= d < 32) devs.
Proof.
  intro Hrange.
  destruct (setup_devices_spec f device Hrange) as [devs [Hrun _]].
  exists devs. split; [exact Hrun|].
  rewrite setup_devices_unfold in Hrun.
  destruct (setup_devices_loop_sorted f 32 0 device [] devs Hrun)
    as [new [Hn [Hsorted Hbound]]].
  cbn [app] in Hn. subst devs.
  split; [exact Hsorted|].
  eapply Forall_impl; [|exact Hbound]. cbn beta. intros d Hd.
  change (Z.of_nat 32) with 32 in Hd. lia.
Qed.

Lemma setup_devices_increasing_witness :
  0 <= 11 < 2 ^ 32
  /\ exists devs,
       setup_devices (fun d => negb (d =? 1)) 11 = Some devs
       /\ StronglySorted Z.lt devs
       /\ Forall (fun d => 0 <= d < 32) devs.
Proof.
  assert (H : 0 <= 11 < 2 ^ 32) by (split; [discriminate|reflexivity]).
  split; [exact H|].
  exact (setup_devices_increasing (fun d => negb (d =? 1)) 11 H).
Defined.

Lemma KMCUDAResult_eq_dec (a b : KMCUDAResult) : {a = b} + {a <> b}.
Proof. decide equality. Defined.

(** ** Endings and events *)

Section Obeys.

Variable R : ending -> list event -> Prop.
Hypothesis HR : discipline R.

Lemma obeys_ret {A} (Q : A -> Prop) (a : A) : Q a -> obeys R (ret a) Q.
Proof.
  intros HQ w. exists []. cbn. rewrite app_nil_r.
  repeat split; [apply (d_skip R HR)|]. intros a' H. now inversion H; subst.
Qed.

Lemma obeys_return_ {A} (Q : A -> Prop) r :
  r <> kmcudaSuccess -> obeys R (@return_ A r) Q.
Proof.
  intros Hr w. exists []. cbn. rewrite app_nil_r.
  repeat split; [now apply (d_return R HR)|discriminate].
Qed.

Lemma obeys_RETERR r : obeys R (RETERR r) (fun _ => r = kmcudaSuccess).
Proof.
  destruct r; try (apply obeys_return_; discriminate).
  now apply obeys_ret.
Qed.

Lemma obeys_assert b :
  (b = false -> R EndAssert []) -> obeys R (assert b) (fun _ => b = true).
Proof.
  intros Hb w. exists []. unfold assert. destruct b; cbn; rewrite app_nil_r.
  - repeat split. apply (d_skip R HR).
  - repeat split; [now apply Hb|discriminate].
Qed.

Lemma obeys_out_of_fuel {A} (Q : A -> Prop) : R EndFuel [] -> obeys R (@out_of_fuel A) Q.
Proof.
  intros Hf w. exists []. cbn. rewrite app_nil_r.
  repeat split; [exact Hf|discriminate].
Qed.

Lemma obeys_emit e : R EndValue [e] -> obeys R (emit e) (fun _ => True).
Proof. intros He w. exists [e]. cbn. repeat split. exact He. Qed.

Lemma obeys_srand seed : obeys R (srand seed) (fun _ => True).
Proof.
  intros w. exists []. cbn. rewrite app_nil_r. repeat split. apply (d_skip R HR).
Qed.

Lemma obeys_do_rand rt :
  obeys R (do_rand rt) (fun r => exists seed n, r = rand rt seed n).
Proof.
  intros w. exists []. cbn. rewrite app_nil_r.
  repeat split; [apply (d_skip R HR)|].
  intros a H. inversion H; subst. now eexists; eexists.
Qed.

Lemma obeys_cuda_malloc rt tag dev size :
  (forall r, R EndValue [Malloc tag dev size r]) ->
  obeys R (cuda_malloc rt tag dev size) (fun _ => True).
Proof. intros He w. eexists [_]. cbn. repeat split. apply He. Qed.

Lemma obeys_cuda_memcpy rt request :
  (forall ok, R EndValue [request ok]) ->
  obeys R (cuda_memcpy rt request) (fun _ => True).
Proof. intros He w. eexists [_]. cbn. repeat split. apply He. Qed.

Lemma obeys_conseq {A} (m : M A) (Q Q' : A -> Prop) :
  obeys R m Q -> (forall a, Q a -> Q' a) -> obeys R m Q'.
Proof.
  intros Hm HQ w. destruct (Hm w) as [evs [Ht [Hev Hpost]]].
  exists evs. repeat split; auto.
Qed.

Lemma obeys_bind {A B} (m : M A) (k : A -> M B) (Q : A -> Prop) (Q' : B -> Prop) :
  obeys R m Q -> (forall a, Q a -> obeys R (k a) Q') -> obeys R (bind m k) Q'.
Proof.
  intros Hm Hk w. unfold bind.
  destruct (Hm w) as [evs1 [Ht1 [Hev1 Hpost1]]].
  destruct (m w) as [o w1] eqn:E. cbn [fst snd] in Ht1, Hev1, Hpost1.
  destruct o as [a|r| |].
  - destruct (Hk a (Hpost1 a eq_refl) w1) as [evs2 [Ht2 [Hev2 Hpost2]]].
    exists (evs1 ++ evs2). rewrite Ht2, Ht1, app_assoc.
    repeat split; [|exact Hpost2].
    now apply (d_seq R HR).
  - exists evs1. cbn. repeat split; [exact Ht1|exact Hev1|discriminate].
  - exists evs1. cbn. repeat split; [exact Ht1|exact Hev1|discriminate].
  - exists evs1. cbn. repeat split; [exact Ht1|exact Hev1|discriminate].
Qed.

(** A call whose result code is passed on at once when it is not
    [kmcudaSuccess]: the shape of [RETERR(f(...))] for a function [f] of
    this file. *)
Lemma obeys_call_then {B} (m : M KMCUDAResult) (k : KMCUDAResult -> M B)
      (Q' : B -> Prop) :
  obeys R m (fun _ => True) ->
  (forall r, obeys R (k r) Q') ->
  (forall r w, r <> kmcudaSuccess -> k r w = (Return r, w)) ->
  obeys R (bind (call m) k) Q'.
Proof.
  intros Hm Hk Hpass w. unfold bind, call.
  destruct (Hm w) as [evs1 [Ht1 [Hev1 _]]].
  destruct (m w) as [o w1] eqn:E. cbn [fst snd ending_of] in Ht1, Hev1.
  destruct o as [a|r| |].
  - destruct (Hk a w1) as [evs2 [Ht2 [Hev2 Hpost2]]].
    exists (evs1 ++ evs2). rewrite Ht2, Ht1, app_assoc.
    repeat split; [|exact Hpost2]. now apply (d_seq R HR).
  - destruct (KMCUDAResult_eq_dec r kmcudaSuccess) as [->|Hr].
    + destruct (Hk kmcudaSuccess w1) as [evs2 [Ht2 [Hev2 Hpost2]]].
      exists (evs1 ++ evs2). rewrite Ht2, Ht1, app_assoc.
      repeat split; [|exact Hpost2].
      apply (d_seq R HR); [|exact Hev2]. now apply (d_call R HR).
    + rewrite (Hpass r w1 Hr). exists evs1. cbn.
      repeat split; [exact Ht1|exact Hev1|discriminate].
  - exists evs1. cbn. repeat split; [exact Ht1|exact Hev1|discriminate].
  - exists evs1. cbn. repeat split; [exact Ht1|exact Hev1|discriminate].
Qed.

Lemma obeys_FOR_ALL_DEVS {S} (I : S -> Prop) (body : Z -> S -> M S) (devs : list Z) :
  (forall dev s, I s -> obeys R (body dev s) I) ->
  forall s, I s -> obeys R (FOR_ALL_DEVS devs body s) I.
Proof.
  intros Hbody. induction devs as [|dev rest IH]; intros s Hs; cbn [FOR_ALL_DEVS].
  - now apply obeys_ret.
  - eapply obeys_bind; [now apply Hbody|]. intros s' Hs'. now apply IH.
Qed.

Lemma obeys_FOR_ALL_DEVSI (body : nat -> Z -> M unit) (devs : list Z) :
  (forall devi dev, obeys R (body devi dev) (fun _ => True)) ->
  forall devi, obeys R (FOR_ALL_DEVSI devi devs body) (fun _ => True).
Proof.
  intros Hbody. induction devs as [|dev rest IH]; intros devi; cbn [FOR_ALL_DEVSI].
  - now apply obeys_ret.
  - eapply obeys_bind; [apply Hbody|]. intros _ _. apply IH.
Qed.

Lemma obeys_for_range (body : Z -> M unit) (rounds : nat) :
  forall c,
    (forall i, c <= i < c + Z.of_nat rounds -> obeys R (body i) (fun _ => True)) ->
    obeys R (for_range rounds c body) (fun _ => True).
Proof.
  induction rounds as [|rounds IH]; intros c Hbody; cbn [for_range].
  - now apply obeys_ret.
  - eapply obeys_bind; [apply Hbody; lia|]. intros _ _.
    apply IH. intros i Hi. apply Hbody. lia.
Qed.

End Obeys.

(** One step of a proof of [obeys R m (fun _ => True)] for a relation with
    the discipline [HR]: the rule of the head construct, or a case
    analysis.  Conditions on single events and endings are left. *)
Ltac obeys_step HR :=
  lazymatch goal with
  | |- obeys _ (ret _) _ => apply (obeys_ret _ HR); exact I
  | |- obeys _ (return_ _) _ => apply (obeys_return_ _ HR); discriminate
  | |- obeys _ (RETERR _) _ =>
      eapply obeys_conseq; [apply (obeys_RETERR _ HR)|intros; exact I]
  | |- obeys _ (assert _) _ =>
      eapply obeys_conseq; [apply (obeys_assert _ HR)|intros; exact I]
  | |- obeys _ out_of_fuel _ => apply obeys_out_of_fuel
  | |- obeys _ (emit _) _ => apply obeys_emit
  | |- obeys _ (srand _) _ => apply (obeys_srand _ HR)
  | |- obeys _ (do_rand _) _ =>
      eapply obeys_conseq; [apply (obeys_do_rand _ HR)|intros; exact I]
  | |- obeys _ (cuda_malloc _ _ _ _) _ => apply obeys_cuda_malloc; intros
  | |- obeys _ (cuda_memcpy _ _) _ => apply obeys_cuda_memcpy; intros
  | |- obeys _ (bind (call _) _) _ =>
      apply (obeys_call_then _ HR);
      [|intros ?
       |let r := fresh "r" in
        intros r ? ?; destruct r; try congruence; reflexivity]
  | |- obeys _ (bind _ _) _ =>
      eapply (obeys_bind _ HR) with (Q := fun _ => True); [|intros ? _]
  | |- obeys _ (FOR_ALL_DEVS _ _ _) _ =>
      apply (obeys_FOR_ALL_DEVS _ HR) with (I := fun _ => True);
      [intros ? ? _|exact I]
  | |- obeys _ (FOR_ALL_DEVSI _ _ _) _ => apply (obeys_FOR_ALL_DEVSI _ HR); intros
  | |- obeys _ (for_range _ _ _) _ => apply (obeys_for_range _ HR); intros ? _
  | |- obeys _ (if ?b then _ else _) _ => destruct b
  | |- obeys _ (match ?x with _ => _ end) _ => destruct x
  | |- obeys _ (CUCH _ _) _ => unfold CUCH
  | |- obeys _ (CUMALLOC_ONE _ _ _ _ _) _ => unfold CUMALLOC_ONE
  | |- obeys _ (CUMALLOC _ _ _ _ _) _ => unfold CUMALLOC
  | |- obeys _ (CUMEMCPY_H2D_ASYNC _ _ _ _ _ _) _ => unfold CUMEMCPY_H2D_ASYNC
  | |- obeys _ (CUMEMCPY_D2D _ _ _ _ _) _ => unfold CUMEMCPY_D2D
  | |- obeys _ (print_memory_stats _) _ => unfold print_memory_stats
  | |- obeys _ (kmeans_init_centroids _ _ _ _ _ _ _ _) _ =>
      unfold kmeans_init_centroids
  | |- obeys _ (plan_samples _ _ _ _ _ _) _ => unfold plan_samples
  | |- obeys _ (plan_centroids _ _ _ _ _) _ => unfold plan_centroids
  | |- obeys _ (plan_assignments _ _ _ _ _) _ => unfold plan_assignments
  | |- obeys _ (plan_yinyang _ _ _ _ _ _ _) _ => unfold plan_yinyang
  | |- obeys _ (copy_result _ _ _ _ _ _ _ _ _ _) _ => unfold copy_result
  | |- obeys _ (kmeans_cuda_refine _ _ _ _ _ _ _ _ _ _ _ _ _ _) _ =>
      unfold kmeans_cuda_refine
  end.

(** ** The first refused request ends the invocation *)

Lemma fails_fast_discipline : discipline fails_fast.
Proof.
  constructor.
  - left. split; [constructor|discriminate].
  - intros s evs1 evs2 [[H1 _]|[evs' [e [_ [_ [_ H]]]]]] H2; [|discriminate].
    destruct H2 as [[H2 Hs]|[evs' [e [-> [H2 [He Hs]]]]]].
    + left. split; [now apply Forall_app|exact Hs].
    + right. exists (evs1 ++ evs'), e. rewrite app_assoc.
      repeat split; [now apply Forall_app|exact He|exact Hs].
  - intros r Hr. left. split; [constructor|congruence].
  - intros evs [[_ H]|[evs' [e [_ [_ [_ H]]]]]]; [congruence|].
    destruct e; discriminate.
Qed.

Lemma fails_fast_event (e : event) : failed e = false -> fails_fast EndValue [e].
Proof. intro H. left. split; [now repeat constructor|discriminate]. Qed.

(** [CUMALLOC_ONE]: a refused allocation is the last thing that happens. *)
Lemma fails_fast_CUMALLOC_ONE rt tag dest dev size :
  obeys fails_fast (CUMALLOC_ONE rt tag dest dev size) (fun _ => True).
Proof.
  intros w. unfold CUMALLOC_ONE, bind, cuda_malloc.
  destruct (cudaMalloc rt (mallocs w)) as [p|]; eexists [_]; cbn.
  - split; [reflexivity|]. split; [|trivial]. now apply fails_fast_event.
  - split; [reflexivity|]. split; [|discriminate]. right.
    exists [], (Malloc tag dev size None).
    split; [reflexivity|]. split; [constructor|]. split; reflexivity.
Qed.

(** A transfer followed by [CUCH]: a refused transfer is the last thing
    that happens. *)
Lemma fails_fast_memcpy_then {B} rt (request : bool -> event) (k : bool -> M B)
      (Q : B -> Prop) :
  failed (request true) = false ->
  failed (request false) = true ->
  code_of (request false) = kmcudaMemoryCopyError ->
  obeys fails_fast (k true) Q ->
  (forall w, k false w = (Return kmcudaMemoryCopyError, w)) ->
  obeys fails_fast (bind (cuda_memcpy rt request) k) Q.
Proof.
  intros Hok Hfail Hcode Hk Hstop w. unfold bind, cuda_memcpy.
  destruct (cudaMemcpy rt (memcpys w)).
  - match goal with |- context [k true ?w1] => destruct (Hk w1) as [evs [Ht [Hev Hpost]]] end.
    exists (request true :: evs). rewrite Ht. cbn [trace].
    rewrite <- app_assoc. split; [reflexivity|]. split; [|exact Hpost].
    apply (d_seq _ fails_fast_discipline _ [request true] evs); [|exact Hev].
    now apply fails_fast_event.
  - rewrite Hstop. exists [request false]. cbn.
    split; [reflexivity|]. split; [|discriminate].
    right. exists [], (request false). rewrite Hcode.
    split; [reflexivity|]. split; [constructor|]. split; [exact Hfail|reflexivity].
Qed.

Ltac fails_fast_step :=
  lazymatch goal with
  | |- obeys _ (CUMALLOC_ONE _ _ _ _ _) _ => apply fails_fast_CUMALLOC_ONE
  | |- obeys _ (bind (cuda_memcpy _ _) _) _ =>
      apply fails_fast_memcpy_then;
      [reflexivity|reflexivity|reflexivity| |intros; reflexivity]
  | |- obeys _ _ _ => obeys_step fails_fast_discipline
  | |- fails_fast EndValue [_] => apply fails_fast_event; reflexivity
  | |- _ -> fails_fast _ [] => intros _; left; split; [constructor|discriminate]
  | |- fails_fast _ [] => left; split; [constructor|discriminate]
  end.

(** [kmeans_cuda] before its outermost [return]. *)
Lemma kmeans_cuda_body_fails_fast
    rt kmpp tolerance yinyang_t samples_size features_size clusters_size
    seed device verbosity device_ptrs samples centroids assignments :
  obeys fails_fast
        (bind (kmeans_cuda_refine rt kmpp tolerance yinyang_t samples_size
                 features_size clusters_size seed device verbosity device_ptrs
                 samples centroids assignments)
              (fun st =>
                 bind (copy_result rt (must_copy_result_of st) device_ptrs centroids
                         assignments (centroids_size_of st) samples_size
                         (device_centroids_of st) (device_assignments_of st)
                         (devs_of st))
                      (fun _ => ret kmcudaSuccess)))
        (fun r => r = kmcudaSuccess).
Proof.
  eapply (obeys_bind _ fails_fast_discipline) with (Q := fun _ => True).
  - repeat fails_fast_step.
  - intros st _.
    eapply (obeys_bind _ fails_fast_discipline) with (Q := fun _ => True).
    + repeat fails_fast_step.
    + intros _ _. now apply (obeys_ret _ fails_fast_discipline).
Qed.

(** X11.  In every invocation at most one request (allocation or transfer)
    is refused: a refused request is the last event of the invocation, and
    [kmeans_cuda] then returns [kmcudaMemoryAllocationFailure] for an
    allocation and [kmcudaMemoryCopyError] for a transfer.  In particular no
    request was refused when [kmcudaSuccess] is returned. *)
Theorem kmeans_cuda_fails_fast
    rt kmpp tolerance yinyang_t samples_size features_size clusters_size
    seed device verbosity device_ptrs samples centroids assignments w :
  let run := kmeans_cuda rt kmpp tolerance yinyang_t samples_size features_size
                         clusters_size seed device verbosity device_ptrs
                         samples centroids assignments w in
  exists evs,
    trace (snd run) = trace w ++ evs
    /\ (clean evs
        \/ exists evs' e,
             evs = evs' ++ [e] /\ clean evs' /\ failed e = true
             /\ fst run = Value (code_of e))
    /\ (fst run = Value kmcudaSuccess -> clean evs).
Proof.
  intro run. subst run. unfold kmeans_cuda, call.
  destruct (kmeans_cuda_body_fails_fast rt kmpp tolerance yinyang_t samples_size
              features_size clusters_size seed device verbosity device_ptrs
              samples centroids assignments w) as [evs [Ht [Hev _]]].
  match type of Ht with
  | trace (snd (?m w)) = _ => destruct (m w) as [o w1]
  end.
  cbn [fst snd] in Ht, Hev. exists evs.
  destruct o as [a|r| |]; cbn [fst snd ending_of] in *;
    (split; [exact Ht|]);
    destruct Hev as [[Hc Hs]|[evs' [e [-> [Hc [He Hs]]]]]];
    try discriminate Hs.
  - split; [now left|now intros _].
  - split; [now left|now intros _].
  - inversion Hs; subst r. split.
    + right. now exists evs', e.
    + intro H. inversion H as [H']. destruct e; discriminate H'.
  - split; [now left|now intros _].
  - split; [now left|now intros _].
Qed.

(** ** What a successful invocation has been through *)

Lemma RETERR_value r w w' : RETERR r w = (Value tt, w') -> r = kmcudaSuccess.
Proof. destruct r; cbn; intro H; [reflexivity|discriminate..]. Qed.

Lemma kmeans_cuda_refine_value
    rt kmpp tolerance yinyang_t samples_size features_size clusters_size
    seed device verbosity device_ptrs samples centroids assignments w st w' :
  kmeans_cuda_refine rt kmpp tolerance yinyang_t samples_size features_size
                     clusters_size seed device verbosity device_ptrs
                     samples centroids assignments w
  = (Value st, w') ->
  let yinyang_groups := yinyang_groups_of yinyang_t clusters_size in
  check_args (cudaGetDeviceCount rt) tolerance yinyang_t samples_size features_size
             clusters_size device samples centroids assignments = kmcudaSuccess
  /\ setup_devices (cudaSetDevice rt) device = Some (devs_of st)
  /\ devs_of st <> []
  /\ (verbosity > 1 -> cudaMemGetInfo rt = true)
  /\ kmeans_cuda_setup rt samples_size features_size clusters_size yinyang_groups
                       (devs_of st) verbosity = kmcudaSuccess
  /\ kmeans_cuda_yy rt tolerance yinyang_groups samples_size clusters_size
                    features_size verbosity (devs_of st) = kmcudaSuccess.
Proof.
  intros H yinyang_groups. unfold kmeans_cuda_refine in H.
  apply bind_value in H. destruct H as [[] [w1 [Hcheck H]]].
  apply RETERR_value in Hcheck.
  apply bind_value in H. destruct H as [devs [w2 [Hdevs H]]].
  destruct (setup_devices (cudaSetDevice rt) device) as [devs'|] eqn:Esetup;
    [|discriminate Hdevs].
  inversion Hdevs; subst devs' w2. clear Hdevs.
  destruct devs as [|d0 rest]; [discriminate H|].
  apply bind_value in H. destruct H as [device_samples [w3 [_ H]]].
  cbv zeta in H.
  apply bind_value in H. destruct H as [[device_centroids must] [w4 [_ H]]].
  apply bind_value in H. destruct H as [device_assignments [w5 [_ H]]].
  apply bind_value in H. destruct H as [prev [w6 [_ H]]].
  apply bind_value in H. destruct H as [ccounts [w7 [_ H]]].
  apply bind_value in H. destruct H as [yy [w8 [_ H]]].
  apply bind_value in H. destruct H as [[] [w9 [Hstats H]]].
  apply bind_value in H. destruct H as [[] [w10 [_ H]]].
  apply bind_value in H. destruct H as [[] [w11 [Hsetup H]]].
  apply RETERR_value in Hsetup.
  apply bind_value in H. destruct H as [r [w12 [_ H]]].
  apply bind_value in H. destruct H as [[] [w13 [_ H]]].
  apply bind_value in H. destruct H as [[] [w14 [_ H]]].
  apply bind_value in H. destruct H as [[] [w15 [Hyy H]]].
  apply RETERR_value in Hyy.
  inversion H; subst st w'. cbn [devs_of].
  repeat split; try assumption; try discriminate.
  intro Hv.
  assert (E : (verbosity >? 1) = true) by (rewrite Z.gtb_ltb; apply Z.ltb_lt; lia).
  rewrite E in Hstats. unfold print_memory_stats, bind, call in Hstats.
  destruct (cudaMemGetInfo rt); [reflexivity|discriminate Hstats].
Qed.

(** A successful invocation has gone through the whole pipeline: no
    [return] of the body carries [kmcudaSuccess]. *)
Lemma kmeans_cuda_success_refined
    rt kmpp tolerance yinyang_t samples_size features_size clusters_size
    seed device verbosity device_ptrs samples centroids assignments w :
  fst (kmeans_cuda rt kmpp tolerance yinyang_t samples_size features_size
                   clusters_size seed device verbosity device_ptrs
                   samples centroids assignments w)
  = Value kmcudaSuccess ->
  exists a w1,
    bind (kmeans_cuda_refine rt kmpp tolerance yinyang_t samples_size
            features_size clusters_size seed device verbosity device_ptrs
            samples centroids assignments)
         (fun st =>
            bind (copy_result rt (must_copy_result_of st) device_ptrs centroids
                    assignments (centroids_size_of st) samples_size
                    (device_centroids_of st) (device_assignments_of st)
                    (devs_of st))
                 (fun _ => ret kmcudaSuccess)) w
    = (Value a, w1)
    /\ snd (kmeans_cuda rt kmpp tolerance yinyang_t samples_size features_size
                        clusters_size seed device verbosity device_ptrs
                        samples centroids assignments w)
       = w1.
Proof.
  intros H. unfold kmeans_cuda, call in *.
  destruct (kmeans_cuda_body_fails_fast rt kmpp tolerance yinyang_t samples_size
              features_size clusters_size seed device verbosity device_ptrs
              samples centroids assignments w) as [evs [_ [Hev _]]].
  match type of H with
  | fst (let (o, w') := ?m w in _) = _ => destruct (m w) as [o w1] eqn:Ebody
  end.
  cbn [fst snd] in Hev.
  destruct o as [a|r| |]; cbn [fst snd ending_of] in *; try discriminate H.
  - now exists a, w1.
  - exfalso. inversion H; subst r.
    destruct Hev as [[_ Hs]|[evs' [e [_ [_ [_ Hs]]]]]]; [congruence|].
    destruct e; discriminate Hs.
Qed.

(** X12.  For an accelerated fraction that is not a NaN, [kmeans_cuda]
    returns [kmcudaSuccess] only if [check_args] has accepted the
    arguments, at least one device was resolved, the memory query has
    succeeded when [verbosity > 1], and both [kmeans_cuda_setup] and
    [kmeans_cuda_yy] have returned [kmcudaSuccess] for the resolved devices
    and the group count of line 213, the integer part of the
    single-precision product: no failure is masked. *)
Theorem success_means_all_succeeded
    rt kmpp tolerance yinyang_t samples_size features_size clusters_size
    seed device verbosity device_ptrs samples centroids assignments w :
  yinyang_t <> S754_nan ->
  fst (kmeans_cuda rt kmpp tolerance yinyang_t samples_size features_size
                   clusters_size seed device verbosity device_ptrs
                   samples centroids assignments w)
  = Value kmcudaSuccess ->
  let yinyang_groups := yinyang_groups_of yinyang_t clusters_size in
  check_args (cudaGetDeviceCount rt) tolerance yinyang_t samples_size features_size
             clusters_size device samples centroids assignments = kmcudaSuccess
  /\ exists devs,
       setup_devices (cudaSetDevice rt) device = Some devs
       /\ devs <> []
       /\ (verbosity > 1 -> cudaMemGetInfo rt = true)
       /\ kmeans_cuda_setup rt samples_size features_size clusters_size
                            yinyang_groups devs verbosity = kmcudaSuccess
       /\ kmeans_cuda_yy rt tolerance yinyang_groups samples_size clusters_size
                         features_size verbosity devs = kmcudaSuccess.
Proof.
  intros _ H yinyang_groups.
  destruct (kmeans_cuda_success_refined _ _ _ _ _ _ _ _ _ _ _ _ _ _ _ H)
    as [a [w1 [Ebody _]]].
  apply bind_value in Ebody. destruct Ebody as [st [w2 [Hrefine _]]].
  destruct (kmeans_cuda_refine_value _ _ _ _ _ _ _ _ _ _ _ _ _ _ _ _ _ Hrefine)
    as [Hc [Hd [Hn [Hs [Hsetup Hyy]]]]].
  split; [exact Hc|]. exists (devs_of st). now repeat split.
Qed.

Lemma success_means_all_succeeded_witness :
  f32_0_04 <> S754_nan
  /\ fst (kmeans_cuda two_devices true f32_0_01 f32_0_04 30 2 25 42 3 0 (-1)
                      111 222 333 world0)
     = Value kmcudaSuccess
  /\ yinyang_groups_of f32_0_04 25 = 1
  /\ let yinyang_groups := yinyang_groups_of f32_0_04 25 in
     check_args (cudaGetDeviceCount two_devices) f32_0_01 f32_0_04 30 2 25 3
                111 222 333 = kmcudaSuccess
     /\ exists devs,
          setup_devices (cudaSetDevice two_devices) 3 = Some devs
          /\ devs <> []
          /\ (0 > 1 -> cudaMemGetInfo two_devices = true)
          /\ kmeans_cuda_setup two_devices 30 2 25 yinyang_groups devs 0
             = kmcudaSuccess
          /\ kmeans_cuda_yy two_devices f32_0_01 yinyang_groups 30 25 2 0 devs
             = kmcudaSuccess.
Proof.
  assert (Hn : f32_0_04 <> S754_nan) by discriminate.
  assert (H : fst (kmeans_cuda two_devices true f32_0_01 f32_0_04 30 2 25 42 3 0 (-1)
                               111 222 333 world0)
              = Value kmcudaSuccess) by (vm_compute; reflexivity).
  split; [exact Hn|]. split; [exact H|]. split; [vm_compute; reflexivity|].
  exact (success_means_all_succeeded two_devices true f32_0_01 f32_0_04 30 2 25 42
           3 0 (-1) 111 222 333 world0 Hn H).
Defined.

(** ** The refinement without groups *)








(** With an accelerated fraction of zero the run above returns
    [kmcudaSuccess], so it has called [kmeans_cuda_yy] with no group. *)
Example refine_called_without_groups :
  fst (kmeans_cuda two_devices true f32_0_01 f32_0 6 2 3 42 3 0 (-1)
                   111 222 333 world0)
  = Value kmcudaSuccess
  /\ existsb (fun e => match e with Refine 0 [] [] => true | _ => false end)
             (trace (snd (kmeans_cuda two_devices true f32_0_01 f32_0 6 2 3 42 3 0 (-1)
                                      111 222 333 world0)))
     = true.
Proof. split; vm_compute; reflexivity. Qed.

(** ** How an invocation ends *)

Lemma finishes_discipline : discipline finishes.
Proof. constructor; unfold finishes; intros; congruence. Qed.

Lemma returns_discipline : discipline returns.
Proof. constructor; unfold returns; intros; split; intuition congruence. Qed.

(** Steps of the proofs that an invocation ends by itself: the two places
    where the model could run out of fuel are dealt with by the lemmas on
    [setup_devices] and [kmpp_search]. *)
Ltac ends_step HR Hrange :=
  lazymatch goal with
  | |- obeys _ (match kmpp_search ?n ?d ?s ?c with _ => _ end) _ =>
      let found := fresh "found" in
      let E := fresh "E" in
      destruct (kmpp_search_total n d s c) as [found E]; rewrite E
  | |- obeys _ (match setup_devices ?f ?d with _ => _ end) _ =>
      let devs := fresh "devs" in
      let E := fresh "E" in
      destruct (setup_devices_spec f d Hrange) as [devs [E _]]; rewrite E
  | |- obeys _ _ _ => obeys_step HR
  | |- finishes _ _ => discriminate
  | |- _ -> finishes _ _ => intros _; discriminate
  | |- returns _ _ => split; discriminate
  end.

Lemma kmeans_cuda_body_finishes
    rt kmpp tolerance yinyang_t samples_size features_size clusters_size
    seed device verbosity device_ptrs samples centroids assignments :
  0 <= device < 2 ^ 32 ->
  obeys finishes
        (bind (kmeans_cuda_refine rt kmpp tolerance yinyang_t samples_size
                 features_size clusters_size seed device verbosity device_ptrs
                 samples centroids assignments)
              (fun st =>
                 bind (copy_result rt (must_copy_result_of st) device_ptrs centroids
                         assignments (centroids_size_of st) samples_size
                         (device_centroids_of st) (device_assignments_of st)
                         (devs_of st))
                      (fun _ => ret kmcudaSuccess)))
        (fun _ => True).
Proof.
  intro Hrange. repeat ends_step finishes_discipline Hrange.
Qed.

Lemma kmeans_cuda_body_random_returns
    rt tolerance yinyang_t samples_size features_size clusters_size
    seed device verbosity device_ptrs samples centroids assignments :
  0 <= device < 2 ^ 32 ->
  obeys returns
        (bind (kmeans_cuda_refine rt false tolerance yinyang_t samples_size
                 features_size clusters_size seed device verbosity device_ptrs
                 samples centroids assignments)
              (fun st =>
                 bind (copy_result rt (must_copy_result_of st) device_ptrs centroids
                         assignments (centroids_size_of st) samples_size
                         (device_centroids_of st) (device_assignments_of st)
                         (devs_of st))
                      (fun _ => ret kmcudaSuccess)))
        (fun _ => True).
Proof.
  intro Hrange. unfold kmeans_cuda_refine.
  change (init_method_of_bool false) with kmcudaInitMethodRandom.
  unfold kmeans_init_centroids.
  repeat ends_step returns_discipline Hrange.
Qed.

(** X13.  For a 32-bit device selector the loops of an invocation all come
    to an end: [kmeans_cuda] ends with a result code, or, with K-means++
    seeding only, on a failed assertion.  With random seeding it always
    ends with a result code. *)
Theorem kmeans_cuda_ends
    rt kmpp tolerance yinyang_t samples_size features_size clusters_size
    seed device verbosity device_ptrs samples centroids assignments w :
  0 <= device < 2 ^ 32 ->
  let run := kmeans_cuda rt kmpp tolerance yinyang_t samples_size features_size
                         clusters_size seed device verbosity device_ptrs
                         samples centroids assignments w in
  (exists r, fst run = Value r) \/ (kmpp = true /\ fst run = AssertFail).
Proof.
  intros Hrange run. subst run. unfold kmeans_cuda, call.
  destruct kmpp.
  - destruct (kmeans_cuda_body_finishes rt true tolerance yinyang_t samples_size
                features_size clusters_size seed device verbosity device_ptrs
                samples centroids assignments Hrange w) as [evs [_ [Hev _]]].
    match type of Hev with
    | finishes (ending_of (fst (?m w))) _ => destruct (m w) as [o w1]
    end.
    destruct o as [a|r| |]; cbn [fst ending_of] in *.
    + left. now exists a.
    + left. now exists r.
    + right. now split.
    + now contradiction Hev.
  - destruct (kmeans_cuda_body_random_returns rt tolerance yinyang_t samples_size
                features_size clusters_size seed device verbosity device_ptrs
                samples centroids assignments Hrange w) as [evs [_ [[Hf Ha] _]]].
    match type of Hf with
    | ending_of (fst (?m w)) <> _ => destruct (m w) as [o w1]
    end.
    destruct o as [a|r| |]; cbn [fst ending_of] in *.
    + left. now exists a.
    + left. now exists r.
    + now contradiction Ha.
    + now contradiction Hf.
Qed.

Lemma kmeans_cuda_ends_witness :
  0 <= 3 < 2 ^ 32
  /\ let run := kmeans_cuda two_devices true f32_0_01 f32_0_1 6 2 3 42 3 0 (-1)
                            111 222 333 world0 in
     (exists r, fst run = Value r) \/ (true = true /\ fst run = AssertFail).
Proof.
  assert (H : 0 <= 3 < 2 ^ 32) by (split; [discriminate|reflexivity]).
  split; [exact H|].
  exact (kmeans_cuda_ends two_devices true f32_0_01 f32_0_1 6 2 3 42 3 0 (-1)
           111 222 333 world0 H).
Defined.

(** ** The seeding of the centroids *)

Lemma only_discipline (P : event -> Prop) : discipline (only P).
Proof.
  constructor; unfold only; intros; try constructor; try assumption.
  apply Forall_app. now split.
Qed.

Lemma no_success_discipline : discipline no_success.
Proof.
  constructor; unfold no_success; intros; congruence.
Qed.

Lemma both_discipline (R1 R2 : ending -> list event -> Prop) :
  discipline R1 -> discipline R2 -> discipline (both R1 R2).
Proof.
  intros H1 H2. constructor; unfold both.
  - split; [apply (d_skip R1 H1)|apply (d_skip R2 H2)].
  - intros s evs1 evs2 [Ha Hb] [Hc Hd].
    split; [now apply (d_seq R1 H1)|now apply (d_seq R2 H2)].
  - intros r Hr. split; [now apply (d_return R1 H1)|now apply (d_return R2 H2)].
  - intros evs [Ha Hb]. split; [now apply (d_call R1 H1)|now apply (d_call R2 H2)].
Qed.

Lemma only_hoare {A} (P : event -> Prop) (m : M A) (Q : A -> Prop) :
  obeys (only P) m Q -> hoare P m Q.
Proof. intro H. exact H. Qed.

(** A draw of [rand()] strictly between 0 and [RAND_MAX] gives a [choice]
    strictly between 0 and 1. *)
Lemma choice_of_rand_inside (RAND_MAX r : Z) :
  0 < r < RAND_MAX -> (0 < choice_of_rand RAND_MAX r < 1)%Q.
Proof.
  intros [Hr0 Hr1]. unfold choice_of_rand.
  assert (Hm : (0 < inject_Z RAND_MAX)%Q).
  { change 0%Q with (inject_Z 0). rewrite <- Zlt_Qlt. lia. }
  split.
  - apply Qlt_shift_div_l; [exact Hm|]. rewrite Qmult_0_l.
    change 0%Q with (inject_Z 0). rewrite <- Zlt_Qlt. lia.
  - apply Qlt_shift_div_r; [exact Hm|]. rewrite Qmult_1_l.
    rewrite <- Zlt_Qlt. lia.
Qed.

Section Seeding.

Variable rt : runtime.
Variable R : ending -> list event -> Prop.
Hypothesis HR : discipline R.

Variables samples_size features_size clusters_size seed verbosity : Z.
Variable devs : list Z.

Hypothesis samples_range : 1 <= samples_size < 2 ^ 32.
Hypothesis rand_inside : forall seed n, 0 < rand rt seed n < RAND_MAX rt.
Hypothesis sum_positive :
  forall i,
    fst (fst (kmeans_cuda_plus_plus rt samples_size features_size i verbosity devs))
    = kmcudaSuccess ->
    (0 < snd (kmeans_cuda_plus_plus rt samples_size features_size i verbosity devs))%Q.

Hypothesis R_step : forall i, 1 <= i < clusters_size -> R EndValue [PlusPlus i].
Hypothesis R_first :
  forall r0 ok,
    R EndValue [MemcpyD2D true 0 (u32 (u32 r0 mod samples_size * features_size))
                          features_size ok].
Hypothesis R_copy :
  forall i j ok,
    1 <= i < clusters_size -> 1 <= j <= samples_size ->
    R EndValue [MemcpyD2D true (u32 (i * features_size))
                          (u32 (u32 (j - 1) * features_size))
                          (u32 (features_size * sizeof_float)) ok].

(** With draws strictly inside [0, RAND_MAX] and positive distance sums,
    K-means++ seeding passes its assertions; its events are the calls of
    [kmeans_cuda_plus_plus] and copies of rows [j - 1] with [j] in
    [1 .. samples_size]. *)
Lemma obeys_seeding :
  obeys R (kmeans_init_centroids rt kmcudaInitMethodPlusPlus samples_size features_size
             clusters_size seed verbosity devs)
        (fun _ => True).
Proof.
  unfold kmeans_init_centroids.
  eapply (obeys_bind _ HR); [apply (obeys_srand _ HR)|]. intros _ _.
  eapply (obeys_bind _ HR) with (Q := fun _ => True);
    [|intros _ _; now apply (obeys_ret _ HR)].
  eapply (obeys_bind _ HR) with (Q := fun _ => True);
    [eapply obeys_conseq; [apply (obeys_do_rand _ HR)|intros; exact I]|].
  intros r0 _.
  eapply (obeys_bind _ HR) with (Q := fun _ => True).
  { unfold CUMEMCPY_D2D.
    eapply (obeys_bind _ HR) with (Q := fun _ => True);
      [apply obeys_cuda_memcpy; intro ok; apply R_first|].
    intros ok _. unfold CUCH.
    destruct ok; [now apply (obeys_ret _ HR)|apply (obeys_return_ _ HR); discriminate]. }
  intros _ _. apply (obeys_for_range _ HR). intros i Hi.
  assert (Hi' : 1 <= i < clusters_size) by lia.
  eapply (obeys_bind _ HR) with (Q := fun _ => True);
    [apply obeys_emit; now apply R_step|].
  intros _ _.
  pose proof (sum_positive i) as Hsum.
  destruct (kmeans_cuda_plus_plus rt samples_size features_size i verbosity devs)
    as [[res host_dists] dist_sum].
  cbn [fst snd] in Hsum.
  eapply (obeys_bind _ HR); [apply (obeys_RETERR _ HR)|].
  intros [] Hres. cbn beta in Hres. specialize (Hsum Hres).
  eapply (obeys_bind _ HR) with (Q := fun _ => True).
  { eapply obeys_conseq; [apply (obeys_assert _ HR)|intros; exact I].
    rewrite Qeq_bool_refl. discriminate. }
  intros _ _.
  eapply (obeys_bind _ HR); [apply (obeys_do_rand _ HR)|].
  intros r [seed' [n ->]].
  destruct (kmpp_search_inside samples_size host_dists dist_sum
              (choice_of_rand (RAND_MAX rt) (rand rt seed' n)) samples_range
              (choice_of_rand_inside _ _ (rand_inside seed' n)) Hsum)
    as [found [Efound [_ Hj]]].
  rewrite Efound.
  eapply (obeys_bind _ HR) with (Q := fun _ => True).
  { eapply obeys_conseq; [apply (obeys_assert _ HR)|intros; exact I].
    intro Hfalse. rewrite Z.gtb_ltb in Hfalse. apply Z.ltb_ge in Hfalse. lia. }
  intros _ _. apply (obeys_FOR_ALL_DEVSI _ HR). intros devi dev.
  unfold CUMEMCPY_D2D.
  eapply (obeys_bind _ HR) with (Q := fun _ => True);
    [apply obeys_cuda_memcpy; intro ok; now apply R_copy|].
  intros ok _. unfold CUCH.
  destruct ok; [now apply (obeys_ret _ HR)|apply (obeys_return_ _ HR); discriminate].
Qed.

End Seeding.

Lemma u32_row (row features_size rows : Z) :
  0 <= row < rows -> 0 < features_size -> rows * features_size < 2 ^ 32 ->
  u32 (row * features_size) = row * features_size.
Proof.
  intros Hrow Hfs Hfit. unfold u32. apply Z.mod_small. nia.
Qed.

(** X17.  Random seeding copies row to row: when the samples array has
    fewer than [2 ^ 32] elements, every copy of lines 87-100 is given the
    offset of a centroid [c < clusters_size], the offset of a sample
    [rand() % samples_size < samples_size] and the size [features_size]. *)
Theorem random_init_copies_rows
    rt samples_size features_size clusters_size seed verbosity devs :
  0 < features_size ->
  0 < clusters_size <= samples_size ->
  samples_size * features_size < 2 ^ 32 ->
  emits (copies_rows samples_size features_size clusters_size)
        (kmeans_init_centroids rt kmcudaInitMethodRandom samples_size features_size
                               clusters_size seed verbosity devs).
Proof.
  intros Hfs Hcs Hfit. apply only_hoare.
  set (P := copies_rows samples_size features_size clusters_size).
  pose proof (only_discipline P) as HR.
  unfold kmeans_init_centroids.
  eapply (obeys_bind _ HR); [apply (obeys_srand _ HR)|]. intros _ _.
  eapply (obeys_bind _ HR) with (Q := fun _ => True);
    [|intros _ _; now apply (obeys_ret _ HR)].
  apply (obeys_for_range _ HR). intros c Hc.
  eapply (obeys_bind _ HR) with (Q := fun _ => True);
    [eapply obeys_conseq; [apply (obeys_do_rand _ HR)|intros; exact I]|].
  intros r _. unfold CUMEMCPY_D2D.
  eapply (obeys_bind _ HR) with (Q := fun _ => True).
  - apply obeys_cuda_memcpy. intro ok. constructor; [|constructor].
    assert (Hrow : 0 <= u32 r mod samples_size < samples_size)
      by (apply Z.mod_pos_bound; lia).
    subst P. cbn [copies_rows]. split; [|split; [|reflexivity]].
    + exists c. split; [lia|]. apply (u32_row c features_size samples_size); lia.
    + exists (u32 r mod samples_size). split; [exact Hrow|].
      now apply (u32_row _ features_size samples_size).
  - intros ok _. unfold CUCH.
    destruct ok; [now apply (obeys_ret _ HR)|apply (obeys_return_ _ HR); discriminate].
Qed.

Lemma random_init_copies_rows_witness :
  0 < 2 /\ 0 < 3 <= 6 /\ 6 * 2 < 2 ^ 32
  /\ emits (copies_rows 6 2 3)
           (kmeans_init_centroids two_devices kmcudaInitMethodRandom 6 2 3 42 0 [0; 1]).
Proof.
  assert (Hfs : 0 < 2) by reflexivity.
  assert (Hcs : 0 < 3 <= 6) by (split; [reflexivity|discriminate]).
  assert (Hfit : 6 * 2 < 2 ^ 32) by reflexivity.
  split; [exact Hfs|]. split; [exact Hcs|]. split; [exact Hfit|].
  exact (random_init_copies_rows two_devices 6 2 3 42 0 [0; 1] Hfs Hcs Hfit).
Defined.

(** X18.  K-means++ seeding copies row to row: when the samples array has
    fewer than [2 ^ 32] elements, every draw of [rand()] is strictly
    between 0 and [RAND_MAX] and every distance sum that
    [kmeans_cuda_plus_plus] reports is positive, [kmeans_cuda_plus_plus] is
    only called for centroids [1 <= i < clusters_size], and every copy of
    lines 104-157 is given the offset of a centroid [c < clusters_size] and
    the offset of a sample [j - 1 < samples_size]; its size is
    [features_size] for the first centroid and [ssize = features_size *
    sizeof(float)] for the others. *)
Theorem seeding_copies_rows
    rt samples_size features_size clusters_size seed verbosity devs :
  0 < features_size ->
  0 < clusters_size <= samples_size ->
  samples_size * features_size < 2 ^ 32 ->
  (forall seed n, 0 < rand rt seed n < RAND_MAX rt) ->
  (forall i,
      fst (fst (kmeans_cuda_plus_plus rt samples_size features_size i verbosity devs))
      = kmcudaSuccess ->
      (0 < snd (kmeans_cuda_plus_plus rt samples_size features_size i verbosity devs))%Q) ->
  emits (seeds_rows samples_size features_size clusters_size)
        (kmeans_init_centroids rt kmcudaInitMethodPlusPlus samples_size features_size
                               clusters_size seed verbosity devs).
Proof.
  intros Hfs Hcs Hfit Hrand Hsum. apply only_hoare.
  assert (Hss : 1 <= samples_size < 2 ^ 32) by nia.
  apply obeys_seeding; try assumption.
  - apply only_discipline.
  - intros i Hi. constructor; [exact Hi|constructor].
  - intros r0 ok. constructor; [|constructor]. cbn [seeds_rows].
    assert (Hrow : 0 <= u32 r0 mod samples_size < samples_size)
      by (apply Z.mod_pos_bound; lia).
    exists 0, (u32 r0 mod samples_size).
    split; [lia|]. split; [exact Hrow|]. split; [reflexivity|].
    split; [|reflexivity].
    now apply (u32_row _ features_size samples_size).
  - intros i j ok Hi Hj. constructor; [|constructor]. cbn [seeds_rows].
    exists i, (j - 1).
    split; [lia|]. split; [lia|]. split; [|split].
    + apply (u32_row i features_size samples_size); lia.
    + assert (Hj' : u32 (j - 1) = j - 1) by (unfold u32; apply Z.mod_small; lia).
      rewrite Hj'. apply (u32_row _ features_size samples_size); lia.
    + destruct (i =? 0) eqn:E; [apply Z.eqb_eq in E; lia|reflexivity].
Qed.

Lemma seeding_copies_rows_witness :
  0 < 2 /\ 0 < 3 <= 6 /\ 6 * 2 < 2 ^ 32
  /\ (forall seed n, 0 < rand steady_runtime seed n < RAND_MAX steady_runtime)
  /\ (forall i,
         fst (fst (kmeans_cuda_plus_plus steady_runtime 6 2 i 0 [0; 1])) = kmcudaSuccess ->
         (0 < snd (kmeans_cuda_plus_plus steady_runtime 6%Z 2%Z i 0%Z [0%Z; 1%Z]))%Q)
  /\ emits (seeds_rows 6 2 3)
           (kmeans_init_centroids steady_runtime kmcudaInitMethodPlusPlus 6 2 3 42 0
                                  [0; 1]).
Proof.
  assert (Hfs : 0 < 2) by reflexivity.
  assert (Hcs : 0 < 3 <= 6) by (split; [reflexivity|discriminate]).
  assert (Hfit : 6 * 2 < 2 ^ 32) by reflexivity.
  assert (Hrand : forall seed n,
             0 < rand steady_runtime seed n < RAND_MAX steady_runtime).
  { intros seed n. cbn [rand RAND_MAX steady_runtime].
    destruct (Nat.even n); split; reflexivity. }
  assert (Hsum : forall i,
             fst (fst (kmeans_cuda_plus_plus steady_runtime 6 2 i 0 [0; 1]))
             = kmcudaSuccess ->
             (0 < snd (kmeans_cuda_plus_plus steady_runtime 6%Z 2%Z i 0%Z [0%Z; 1%Z]))%Q).
  { intros i _. reflexivity. }
  split; [exact Hfs|]. split; [exact Hcs|]. split; [exact Hfit|].
  split; [exact Hrand|]. split; [exact Hsum|].
  exact (seeding_copies_rows steady_runtime 6 2 3 42 0 [0; 1] Hfs Hcs Hfit Hrand Hsum).
Defined.

(** With such draws and distance sums the steps of [kmeans_cuda] all end by
    themselves and no assertion fails. *)
Lemma kmeans_cuda_body_seeded_returns
    rt tolerance yinyang_t samples_size features_size clusters_size
    seed device verbosity device_ptrs samples centroids assignments :
  0 <= device < 2 ^ 32 ->
  samples_size < 2 ^ 32 ->
  (forall seed n, 0 < rand rt seed n < RAND_MAX rt) ->
  (forall i devs,
      fst (fst (kmeans_cuda_plus_plus rt samples_size features_size i verbosity devs))
      = kmcudaSuccess ->
      (0 < snd (kmeans_cuda_plus_plus rt samples_size features_size i verbosity devs))%Q) ->
  obeys returns
        (bind (kmeans_cuda_refine rt true tolerance yinyang_t samples_size
                 features_size clusters_size seed device verbosity device_ptrs
                 samples centroids assignments)
              (fun st =>
                 bind (copy_result rt (must_copy_result_of st) device_ptrs centroids
                         assignments (centroids_size_of st) samples_size
                         (device_centroids_of st) (device_assignments_of st)
                         (devs_of st))
                      (fun _ => ret kmcudaSuccess)))
        (fun _ => True).
Proof.
  intros Hrange Hss Hrand Hsum.
  pose proof returns_discipline as HR.
  unfold kmeans_cuda_refine.
  change (init_method_of_bool true) with kmcudaInitMethodPlusPlus.
  eapply (obeys_bind _ HR) with (Q := fun _ => True); [|intros ? _].
  2: repeat ends_step returns_discipline Hrange.
  eapply (obeys_bind _ HR); [apply (obeys_RETERR _ HR)|].
  intros [] Hargs. cbn beta in Hargs.
  apply check_args_success in Hargs. destruct Hargs as [Hshape _].
  assert (Hss' : 1 <= samples_size < 2 ^ 32)
    by (unfold shape_violation in Hshape; lia).
  repeat lazymatch goal with
         | |- obeys _ (kmeans_init_centroids _ _ _ _ _ _ _ ?devs) _ =>
             apply obeys_seeding;
             [exact HR|exact Hss'|exact Hrand|intro i; apply (Hsum i devs)
             |intros; split; discriminate..]
         | |- _ => ends_step returns_discipline Hrange
         end.
Qed.

(** X16.  When every draw of [rand()] is strictly between 0 and [RAND_MAX]
    and every distance sum that [kmeans_cuda_plus_plus] reports is
    positive, an invocation with K-means++ seeding ends with a result code:
    neither assertion of [kmeans_init_centroids] fails. *)
Theorem seeded_run_returns
    rt tolerance yinyang_t samples_size features_size clusters_size
    seed device verbosity device_ptrs samples centroids assignments w :
  0 <= device < 2 ^ 32 ->
  samples_size < 2 ^ 32 ->
  (forall seed n, 0 < rand rt seed n < RAND_MAX rt) ->
  (forall i devs,
      fst (fst (kmeans_cuda_plus_plus rt samples_size features_size i verbosity devs))
      = kmcudaSuccess ->
      (0 < snd (kmeans_cuda_plus_plus rt samples_size features_size i verbosity devs))%Q) ->
  exists r,
    fst (kmeans_cuda rt true tolerance yinyang_t samples_size features_size
                     clusters_size seed device verbosity device_ptrs
                     samples centroids assignments w)
    = Value r.
Proof.
  intros Hrange Hss Hrand Hsum. unfold kmeans_cuda, call.
  destruct (kmeans_cuda_body_seeded_returns rt tolerance yinyang_t samples_size
              features_size clusters_size seed device verbosity device_ptrs
              samples centroids assignments Hrange Hss Hrand Hsum w)
    as [evs [_ [[Hf Ha] _]]].
  match type of Hf with
  | ending_of (fst (?m w)) <> _ => destruct (m w) as [o w1]
  end.
  destruct o as [a|r| |]; cbn [fst ending_of] in *.
  - now exists a.
  - now exists r.
  - now contradiction Ha.
  - now contradiction Hf.
Qed.

Lemma seeded_run_returns_witness :
  0 <= 3 < 2 ^ 32
  /\ 6 < 2 ^ 32
  /\ (forall seed n, 0 < rand steady_runtime seed n < RAND_MAX steady_runtime)
  /\ (forall i devs,
         fst (fst (kmeans_cuda_plus_plus steady_runtime 6 2 i 0 devs)) = kmcudaSuccess ->
         (0 < snd (kmeans_cuda_plus_plus steady_runtime 6%Z 2%Z i 0%Z devs))%Q)
  /\ exists r,
       fst (kmeans_cuda steady_runtime true f32_0_01 f32_0_1 6 2 3 42 3 0 (-1)
                        111 222 333 world0)
       = Value r.
Proof.
  assert (Hrange : 0 <= 3 < 2 ^ 32) by (split; [discriminate|reflexivity]).
  assert (Hss : 6 < 2 ^ 32) by reflexivity.
  assert (Hrand : forall seed n,
             0 < rand steady_runtime seed n < RAND_MAX steady_runtime).
  { intros seed n. cbn [rand RAND_MAX steady_runtime].
    destruct (Nat.even n); split; reflexivity. }
  assert (Hsum : forall i devs,
             fst (fst (kmeans_cuda_plus_plus steady_runtime 6 2 i 0 devs))
             = kmcudaSuccess ->
             (0 < snd (kmeans_cuda_plus_plus steady_runtime 6%Z 2%Z i 0%Z devs))%Q).
  { intros i devs _. reflexivity. }
  split; [exact Hrange|]. split; [exact Hss|]. split; [exact Hrand|].
  split; [exact Hsum|].
  exact (seeded_run_returns steady_runtime f32_0_01 f32_0_1 6 2 3 42 3 0 (-1)
           111 222 333 world0 Hrange Hss Hrand Hsum).
Defined.

(** ** A failure of the memory statistics *)

Lemma kmeans_cuda_body_without_stats
    rt kmpp tolerance yinyang_t samples_size features_size clusters_size
    seed device verbosity device_ptrs samples centroids assignments :
  verbosity > 1 ->
  cudaMemGetInfo rt = false ->
  obeys (both no_success (only (fun e => is_preparation e = true)))
        (bind (kmeans_cuda_refine rt kmpp tolerance yinyang_t samples_size
                 features_size clusters_size seed device verbosity device_ptrs
                 samples centroids assignments)
              (fun st =>
                 bind (copy_result rt (must_copy_result_of st) device_ptrs centroids
                         assignments (centroids_size_of st) samples_size
                         (device_centroids_of st) (device_assignments_of st)
                         (devs_of st))
                      (fun _ => ret kmcudaSuccess)))
        (fun _ => False).
Proof.
  intros Hverb Hinfo.
  pose proof (both_discipline _ _ no_success_discipline
                (only_discipline (fun e => is_preparation e = true))) as HR.
  assert (Hev : forall e, is_preparation e = true ->
                          both no_success (only (fun e => is_preparation e = true))
                               EndValue [e]).
  { intros e He. split; [discriminate|]. constructor; [exact He|constructor]. }
  eapply (obeys_bind _ HR) with (Q := fun _ => False); [|intros ? []].
  unfold kmeans_cuda_refine.
  repeat lazymatch goal with
         | |- obeys _ (bind (if verbosity >? 1 then _ else _) _) _ =>
             eapply (obeys_bind _ HR) with (Q := fun _ => False); [|intros ? []];
             replace (verbosity >? 1) with true by (symmetry; apply Z.gtb_lt; lia);
             unfold print_memory_stats; rewrite Hinfo;
             intro w; exists []; cbn; rewrite app_nil_r;
             split; [reflexivity|]; split; [|discriminate];
             split; [discriminate|constructor]
         | |- obeys _ (match setup_devices ?f ?d with _ => _ end) _ =>
             destruct (setup_devices f d)
         | |- obeys _ _ _ => obeys_step HR
         | |- both _ _ _ _ =>
             first [apply Hev; reflexivity|split; [discriminate|constructor]]
         end.
Qed.

(** X19.  When the memory statistics are asked for ([verbosity > 1]) and
    [cudaMemGetInfo] fails, an invocation makes no other requests than
    allocations and the upload of the samples: no collaborator is called,
    no centroid is seeded, nothing is copied out; and it does not return
    [kmcudaSuccess]. *)
Theorem memory_stats_failure_stops
    rt kmpp tolerance yinyang_t samples_size features_size clusters_size
    seed device verbosity device_ptrs samples centroids assignments w :
  verbosity > 1 ->
  cudaMemGetInfo rt = false ->
  let run := kmeans_cuda rt kmpp tolerance yinyang_t samples_size features_size
                         clusters_size seed device verbosity device_ptrs
                         samples centroids assignments w in
  fst run <> Value kmcudaSuccess
  /\ exists evs,
       trace (snd run) = trace w ++ evs
       /\ Forall (fun e => is_preparation e = true) evs.
Proof.
  intros Hverb Hinfo run. subst run. unfold kmeans_cuda, call.
  destruct (kmeans_cuda_body_without_stats rt kmpp tolerance yinyang_t samples_size
              features_size clusters_size seed device verbosity device_ptrs
              samples centroids assignments Hverb Hinfo w)
    as [evs [Ht [[Hno Hev] Hpost]]].
  match type of Ht with
  | trace (snd (?m w)) = _ => destruct (m w) as [o w1]
  end.
  unfold no_success in Hno. unfold only in Hev.
  destruct o as [a|r| |]; cbn [fst snd ending_of] in *.
  - now destruct (Hpost a eq_refl).
  - split; [congruence|]. now exists evs.
  - split; [discriminate|]. now exists evs.
  - split; [discriminate|]. now exists evs.
Qed.

Lemma memory_stats_failure_stops_witness :
  2 > 1
  /\ cudaMemGetInfo blind_runtime = false
  /\ let run := kmeans_cuda blind_runtime true f32_0_01 f32_0_1 6 2 3 42 3 2 (-1)
                            111 222 333 world0 in
     fst run <> Value kmcudaSuccess
     /\ exists evs,
          trace (snd run) = trace world0 ++ evs
          /\ Forall (fun e => is_preparation e = true) evs.
Proof.
  assert (Hverb : 2 > 1) by reflexivity.
  assert (Hinfo : cudaMemGetInfo blind_runtime = false) by reflexivity.
  split; [exact Hverb|]. split; [exact Hinfo|].
  exact (memory_stats_failure_stops blind_runtime true f32_0_01 f32_0_1 6 2 3 42
           3 2 (-1) 111 222 333 world0 Hverb Hinfo).
Defined.

(** ** The draws of random seeding *)

Lemma random_loop_trace rt samples_size features_size clusters_size :
  forall rounds c w w',
    for_range rounds c
      (fun c =>
         bind (do_rand rt)
              (fun r =>
                 let blocking :=
                   (u32 (c + 1) mod 1000 =? 0) || (c =? u32 (clusters_size - 1)) in
                 CUMEMCPY_D2D rt (negb blocking) (u32 (c * features_size))
                              (u32 (u32 r mod samples_size * features_size))
                              features_size)) w
    = (Value tt, w') ->
    trace w'
    = trace w
      ++ map (fun k => random_copy samples_size features_size clusters_size
                                   (c + Z.of_nat k)
                                   (rand rt (rng_seed w) (rng_pos w + k)))
             (seq 0 rounds).
Proof.
  induction rounds as [|rounds IH]; intros c w w' H; cbn [for_range] in H.
  - inversion H; subst. cbn. now rewrite app_nil_r.
  - apply bind_value in H. destruct H as [[] [w1 [Hone Hrest]]].
    cbv beta delta [bind do_rand CUMEMCPY_D2D cuda_memcpy CUCH] in Hone.
    cbn [memcpys trace mallocs rng_seed rng_pos] in Hone.
    destruct (cudaMemcpy rt (memcpys w)) eqn:Eok; [|discriminate].
    inversion Hone; subst w1. clear Hone.
    rewrite (IH _ _ _ Hrest). cbn [trace rng_seed rng_pos].
    rewrite <- app_assoc. f_equal.
    cbn [seq map]. rewrite <- seq_shift, map_map. cbn [app]. f_equal.
    + unfold random_copy. now rewrite Z.add_0_r, Nat.add_0_r.
    + apply map_ext. intro k.
      replace (c + 1 + Z.of_nat k) with (c + Z.of_nat (S k)) by lia.
      now rewrite Nat.add_succ_r.
Qed.

(** X20.  Random seeding is fixed by the seed: a run of lines 85-101 that
    goes through returns [kmcudaSuccess] and has made exactly
    [clusters_size] copies, the one for centroid [c] reading the row chosen
    by the [c]-th draw after [srand(seed)], whatever the state of the
    generator was before. *)
Theorem random_init_trace
    rt samples_size features_size clusters_size seed verbosity devs w r w' :
  kmeans_init_centroids rt kmcudaInitMethodRandom samples_size features_size
                        clusters_size seed verbosity devs w
  = (Value r, w') ->
  r = kmcudaSuccess
  /\ trace w'
     = trace w
       ++ map (fun c => random_copy samples_size features_size clusters_size
                                    (Z.of_nat c) (rand rt seed c))
              (seq 0 (Z.to_nat clusters_size)).
Proof.
  intro H. unfold kmeans_init_centroids in H.
  apply bind_value in H. destruct H as [[] [w1 [Hseed H]]].
  apply bind_value in H. destruct H as [[] [w2 [Hloop H]]].
  inversion H; subst r w2. clear H. split; [reflexivity|].
  unfold srand in Hseed. inversion Hseed; subst w1. clear Hseed.
  apply random_loop_trace in Hloop. rewrite Hloop.
  cbn [trace rng_seed rng_pos]. reflexivity.
Qed.

Lemma random_init_trace_witness :
  kmeans_init_centroids two_devices kmcudaInitMethodRandom 6 2 3 42 0 [0; 1] world0
  = (Value kmcudaSuccess,
     snd (kmeans_init_centroids two_devices kmcudaInitMethodRandom 6 2 3 42 0 [0; 1]
                                world0))
  /\ kmcudaSuccess = kmcudaSuccess
  /\ trace (snd (kmeans_init_centroids two_devices kmcudaInitMethodRandom 6 2 3 42 0
                                       [0; 1] world0))
     = trace world0
       ++ map (fun c => random_copy 6 2 3 (Z.of_nat c) (rand two_devices 42 c))
              (seq 0 (Z.to_nat 3)).
Proof.
  assert (Hrun : kmeans_init_centroids two_devices kmcudaInitMethodRandom 6 2 3 42 0
                                       [0; 1] world0
                 = (Value kmcudaSuccess,
                    snd (kmeans_init_centroids two_devices kmcudaInitMethodRandom
                                               6 2 3 42 0 [0; 1] world0)))
    by (vm_compute; reflexivity).
  split; [exact Hrun|].
  exact (random_init_trace two_devices 6 2 3 42 0 [0; 1] world0 kmcudaSuccess _ Hrun).
Defined.
